(** * Crawl orchestration and idempotent sync: a shallow embedding

    The development follows the Python sources:
    - [rapsodia_scrapper.py] (class [RapsodiaSafeScraper]): completion
      detector, pagination resolver, pagination loop, extraction pipeline;
    - [scrapers/mappers.py]: size normalisation;
    - [scrapers/supabase_client.py] (class [SupabaseClient]): item upsert,
      dependent entities, availability reconciliation;
    - [lambda_worker.py]: the per-URL worker.

    Python [str] values are modelled as [string] (sequences of 8-bit
    characters, read as ASCII); Python [int] values as [Z]; [set] as
    [gset]; [dict]/[defaultdict] as [gmap] with the default written out;
    database tables as lists of rows in storage order. *)

From Stdlib Require Import ZArith String Ascii List Bool Lia.
From stdpp Require Import base decidable option list gmap sets strings pretty.

Local Open Scope string_scope.
Local Open Scope Z_scope.

(** ** Text helpers ([str] methods and the one regular expression used) *)

Module Text.

(** [s.startswith(p)] *)
Definition startswith (p s : string) : bool := String.prefix p s.

(** [sub in s] *)
Fixpoint contains (sub s : string) : bool :=
    String.prefix sub s ||
    match s with
    | EmptyString => false
    | String _ rest => contains sub rest
    end.

(** Python truthiness of a [str]: non-empty. *)
Definition truthy (s : string) : bool :=
    match s with EmptyString => false | String _ _ => true end.

Definition is_digit (c : ascii) : bool :=
    let n := N_of_ascii c in ((48 <=? n) && (n <=? 57))%N.

Definition digit_value (c : ascii) : Z := Z.of_N (N_of_ascii c) - 48.

(** The maximal run of decimal digits at the head of [s]: the greedy
      group [(\d+)]. *)
Fixpoint take_digits (s : string) : list ascii :=
    match s with
    | EmptyString => []
    | String c rest => if is_digit c then c :: take_digits rest else []
    end.

(** [int(group)] for a run of decimal digits. *)
Definition int_of_digits (ds : list ascii) : Z :=
    fold_left (fun acc d => 10 * acc + digit_value d) ds 0.

(** The match of [p=(\d+)] anchored at the head of [s], if any. *)
Definition match_page_here (s : string) : option Z :=
    match s with
    | String "p" (String "=" rest) =>
        match take_digits rest with
        | [] => None
        | ds => Some (int_of_digits ds)
        end
    | _ => None
    end.

(** [m = re.search(r'p=(\d+)', s)] followed by [int(m.group(1))]:
      the leftmost position where the pattern matches wins. *)
Fixpoint re_search_page (s : string) : option Z :=
    match match_page_here s with
    | Some n => Some n
    | None =>
        match s with
        | EmptyString => None
        | String _ rest => re_search_page rest
        end
    end.

(** [s.split(sep)] for a one-character separator. *)
Fixpoint split (sep : ascii) (s : string) : list string :=
    match s with
    | EmptyString => [EmptyString]
    | String c rest =>
        if Ascii.eqb c sep then EmptyString :: split sep rest
        else match split sep rest with
             | [] => [String c EmptyString]
             | part :: parts => String c part :: parts
             end
    end.

(** ASCII white space as recognised by [str.strip()]. *)
Definition is_space (c : ascii) : bool :=
    let n := N_of_ascii c in
    ((n =? 32) || ((9 <=? n) && (n <=? 13)) || ((28 <=? n) && (n <=? 31)))%N.

Fixpoint lstrip (s : string) : string :=
    match s with
    | EmptyString => EmptyString
    | String c rest => if is_space c then lstrip rest else s
    end.

Fixpoint rstrip (s : string) : string :=
    match s with
    | EmptyString => EmptyString
    | String c rest =>
        match rstrip rest with
        | EmptyString => if is_space c then EmptyString else String c EmptyString
        | r => String c r
        end
    end.

(** [s.strip()] *)
Definition strip (s : string) : string := rstrip (lstrip s).

Definition upper_char (c : ascii) : ascii :=
    let n := N_of_ascii c in
    if ((97 <=? n) && (n <=? 122))%N then ascii_of_N (n - 32) else c.

(** [s.upper()] on ASCII letters. *)
Fixpoint upper (s : string) : string :=
    match s with
    | EmptyString => EmptyString
    | String c rest => String (upper_char c) (upper rest)
    end.

Definition lower_char (c : ascii) : ascii :=
    let n := N_of_ascii c in
    if ((65 <=? n) && (n <=? 90))%N then ascii_of_N (n + 32) else c.

(** [s.lower()] on ASCII letters. *)
Fixpoint lower (s : string) : string :=
    match s with
    | EmptyString => EmptyString
    | String c rest => String (lower_char c) (lower rest)
    end.

(** Truthiness of an optional string ([None] and [''] are falsy). *)
Definition truthy_opt (o : option string) : bool :=
    match o with Some s => truthy s | None => false end.

End Text.

(** ** The scraper ([rapsodia_scrapper.py]) *)

Module Scraper.

(** The record stored in [products_by_category] ([formatted_info]). *)
Record formatted_info := FormattedInfo {
    fi_url : string;
    fi_category : string;
    fi_subcategory : string;
    fi_title : option string;
    fi_price : option string;
    fi_old_price : option string;
    fi_description : string;
    fi_sizes : list string;
    fi_available_sizes : list string;
    fi_colors : list string;
    fi_image_urls : list string;
    fi_sku : option string;
    fi_availability : bool
  }.

(** What the scraper writes to its log, as far as the properties below
      observe it. *)
Inductive event :=
  | EvCrawl (url context : string)      (* [safe_crawl_page(url, context)] entered *)
  | EvStored (url : string).            (* a record appended to [products_by_category] *)

(** The mutable attributes of a [RapsodiaSafeScraper] instance. *)
Record t := Mk {
    discovered_urls : gset string;
    product_urls : gset string;
    product_urls_extracted : gset string;
    products_by_category : gmap string (list formatted_info);
    pages_processed : gmap string Z;          (* [category_progress[c]['pages_processed']] *)
    visited_urls_per_category : gmap string (gset string);
    new_products_found : gmap string Z;
    consecutive_empty_pages : gmap string Z;
    log : list event
  }.

(** [__init__] *)
Definition init : t :=
    {| discovered_urls := ∅; product_urls := ∅; product_urls_extracted := ∅;
       products_by_category := ∅; pages_processed := ∅;
       visited_urls_per_category := ∅; new_products_found := ∅;
       consecutive_empty_pages := ∅; log := [] |}.

(** Reading [d[k]] on a [defaultdict]: a missing key reads as the
      default (the entry Python inserts on that read holds the same
      default, so later reads are unaffected). *)
Definition dd_get {V} (d : V) (m : gmap string V) (k : string) : V :=
    default d (m !! k).

(** The four quantities the completion detector reads for a category. *)
Definition empty_streak (s : t) (c : string) : Z :=
    dd_get 0 (consecutive_empty_pages s) c.
Definition new_products (s : t) (c : string) : Z :=
    dd_get 0 (new_products_found s) c.
Definition pages_visited (s : t) (c : string) : Z :=
    Z.of_nat (size (dd_get ∅ (visited_urls_per_category s) c)).
Definition products_recorded (s : t) (c : string) : Z :=
    Z.of_nat (length (dd_get [] (products_by_category s) c)).

(** Which of the four messages the detector prints before returning
      [True]. *)
Inductive rule := EmptyStreak | Stalled | ProductCap | PageCap.

(** [is_category_complete]: the chain of [if ... return True]
      statements, with the printed message as the rule that fired. *)
Definition is_category_complete_rule (s : t) (category_name : string)
    : option rule :=
    if 3 <=? empty_streak s category_name then Some EmptyStreak
    else if (new_products s category_name =? 0)
            && (10 <? pages_visited s category_name) then Some Stalled
    else if 200 <? products_recorded s category_name then Some ProductCap
    else if 20 <? pages_visited s category_name then Some PageCap
    else None.

Definition is_category_complete (s : t) (category_name : string) : bool :=
    match is_category_complete_rule s category_name with
    | Some _ => true
    | None => false
    end.

(** [should_stop_pagination] *)
Definition should_stop_pagination_rule (s : t) (category_name : string)
      (products_found consecutive_empty total_pages : Z) : option rule :=
    if 3 <=? consecutive_empty then Some EmptyStreak
    else if (products_found =? 0) && (15 <? total_pages) then Some Stalled
    else if 300 <? products_recorded s category_name then Some ProductCap
    else if 25 <? total_pages then Some PageCap
    else None.

Definition should_stop_pagination (s : t) (category_name : string)
      (products_found consecutive_empty total_pages : Z) : bool :=
    match should_stop_pagination_rule s category_name
            products_found consecutive_empty total_pages with
    | Some _ => true
    | None => false
    end.

(** [find_next_page_url] *)
Definition page_is (n : Z) (link : string) : bool :=
    match Text.re_search_page link with
    | Some page_num => page_num =? n
    | None => false
    end.

Definition find_next_page_url (pagination_links : list string)
      (current_url : string) : option string :=
    match pagination_links with
    | [] => None
    | _ =>
        let current_page :=
          match Text.re_search_page current_url with
          | Some n => n
          | None => 1
          end in
        match List.find (page_is (current_page + 1)) pagination_links with
        | Some link => Some link
        | None =>
            List.find (fun link => negb (String.eqb link current_url))
                      pagination_links
        end
    end.

(** *** State updates *)

Definition with_log (f : list event -> list event) (s : t) : t :=
    {| discovered_urls := discovered_urls s; product_urls := product_urls s;
       product_urls_extracted := product_urls_extracted s;
       products_by_category := products_by_category s;
       pages_processed := pages_processed s;
       visited_urls_per_category := visited_urls_per_category s;
       new_products_found := new_products_found s;
       consecutive_empty_pages := consecutive_empty_pages s;
       log := f (log s) |}.

Definition with_discovered_urls (f : gset string -> gset string) (s : t) : t :=
    {| discovered_urls := f (discovered_urls s); product_urls := product_urls s;
       product_urls_extracted := product_urls_extracted s;
       products_by_category := products_by_category s;
       pages_processed := pages_processed s;
       visited_urls_per_category := visited_urls_per_category s;
       new_products_found := new_products_found s;
       consecutive_empty_pages := consecutive_empty_pages s;
       log := log s |}.

Definition with_product_urls (f : gset string -> gset string) (s : t) : t :=
    {| discovered_urls := discovered_urls s; product_urls := f (product_urls s);
       product_urls_extracted := product_urls_extracted s;
       products_by_category := products_by_category s;
       pages_processed := pages_processed s;
       visited_urls_per_category := visited_urls_per_category s;
       new_products_found := new_products_found s;
       consecutive_empty_pages := consecutive_empty_pages s;
       log := log s |}.

Definition with_extracted (f : gset string -> gset string) (s : t) : t :=
    {| discovered_urls := discovered_urls s; product_urls := product_urls s;
       product_urls_extracted := f (product_urls_extracted s);
       products_by_category := products_by_category s;
       pages_processed := pages_processed s;
       visited_urls_per_category := visited_urls_per_category s;
       new_products_found := new_products_found s;
       consecutive_empty_pages := consecutive_empty_pages s;
       log := log s |}.

Definition with_products_by_category
      (f : gmap string (list formatted_info) -> gmap string (list formatted_info))
      (s : t) : t :=
    {| discovered_urls := discovered_urls s; product_urls := product_urls s;
       product_urls_extracted := product_urls_extracted s;
       products_by_category := f (products_by_category s);
       pages_processed := pages_processed s;
       visited_urls_per_category := visited_urls_per_category s;
       new_products_found := new_products_found s;
       consecutive_empty_pages := consecutive_empty_pages s;
       log := log s |}.

Definition with_pages_processed (f : gmap string Z -> gmap string Z) (s : t) : t :=
    {| discovered_urls := discovered_urls s; product_urls := product_urls s;
       product_urls_extracted := product_urls_extracted s;
       products_by_category := products_by_category s;
       pages_processed := f (pages_processed s);
       visited_urls_per_category := visited_urls_per_category s;
       new_products_found := new_products_found s;
       consecutive_empty_pages := consecutive_empty_pages s;
       log := log s |}.

Definition with_visited
      (f : gmap string (gset string) -> gmap string (gset string)) (s : t) : t :=
    {| discovered_urls := discovered_urls s; product_urls := product_urls s;
       product_urls_extracted := product_urls_extracted s;
       products_by_category := products_by_category s;
       pages_processed := pages_processed s;
       visited_urls_per_category := f (visited_urls_per_category s);
       new_products_found := new_products_found s;
       consecutive_empty_pages := consecutive_empty_pages s;
       log := log s |}.

Definition with_new_products_found (f : gmap string Z -> gmap string Z) (s : t) : t :=
    {| discovered_urls := discovered_urls s; product_urls := product_urls s;
       product_urls_extracted := product_urls_extracted s;
       products_by_category := products_by_category s;
       pages_processed := pages_processed s;
       visited_urls_per_category := visited_urls_per_category s;
       new_products_found := f (new_products_found s);
       consecutive_empty_pages := consecutive_empty_pages s;
       log := log s |}.

Definition with_consecutive_empty_pages (f : gmap string Z -> gmap string Z) (s : t) : t :=
    {| discovered_urls := discovered_urls s; product_urls := product_urls s;
       product_urls_extracted := product_urls_extracted s;
       products_by_category := products_by_category s;
       pages_processed := pages_processed s;
       visited_urls_per_category := visited_urls_per_category s;
       new_products_found := new_products_found s;
       consecutive_empty_pages := f (consecutive_empty_pages s);
       log := log s |}.

(** [d[k] = f(d[k])] on a [defaultdict]. *)
Definition dd_update {V} (d : V) (f : V -> V) (k : string)
      (m : gmap string V) : gmap string V :=
    <[k := f (dd_get d m k)]> m.

(** *** URL and record validation *)

(** [validate_url] *)
Definition validate_url (url : string) : bool :=
    if negb (Text.truthy url) then false
    else if negb (Text.startswith "http://" url || Text.startswith "https://" url
                  || Text.startswith "file://" url || Text.startswith "raw:" url)
    then false
    else if negb (Text.contains "rapsodia.com.ar" url) then false
    else true.

(** [create_next_page_url] *)
Definition create_next_page_url (current_url : string) (page_number : Z) : string :=
    if negb (validate_url current_url) then ""
    else
      let separator := if Text.contains "?" current_url then "&" else "?" in
      (current_url +:+ separator +:+ "p=" +:+ pretty page_number)%string.

(** [validate_product_data], over the three entries it reads with
      [.get]: ['url'], ['title'] and ['description'] ([None] when the key
      is missing or holds [None]). *)
Definition validate_product_data (url title description : option string) : bool :=
    match url with
    | None => false
    | Some u =>
        if negb (Text.truthy u) then false
        else if negb (Text.startswith "http" u) then false
        else if negb (Text.truthy_opt title) && negb (Text.truthy_opt description)
        then false
        else true
    end.

(** *** Size labels *)

Definition letter_mapping : list (string * string) :=
    [("XS", "XS"); ("S", "S"); ("M", "M"); ("L", "L"); ("XL", "XL");
     ("XXL", "XXL"); ("XXXL", "XXXL"); ("P", "P"); ("G", "G"); ("GG", "GG");
     ("XG", "XG")].

Definition size_mapping : list (string * string) :=
    [("XS", "XS"); ("xs", "XS"); ("S", "S"); ("s", "S"); ("M", "M"); ("m", "M");
     ("L", "L"); ("l", "L"); ("XL", "XL"); ("xl", "XL"); ("XXL", "XXL");
     ("xxl", "XXL"); ("XXXL", "XXXL"); ("xxxl", "XXXL"); ("P", "P"); ("p", "P");
     ("G", "G"); ("g", "G"); ("GG", "GG"); ("gg", "GG"); ("XG", "XG"); ("xg", "XG")].

Definition dict_get (m : list (string * string)) (k : string) : option string :=
    snd <$> List.find (fun kv => String.eqb (fst kv) k) m.

(** [normalize_size_letter] *)
Definition normalize_size_letter (letter : string) : string :=
    let letter := Text.upper (Text.strip letter) in
    default letter (dict_get letter_mapping letter).

(** [clean_size_text] *)
Definition clean_size_text (size_text : string) : string :=
    if negb (Text.truthy size_text) then ""
    else
      let cleaned := Text.strip size_text in
      let mapped :=
        match dict_get size_mapping cleaned with
        | Some v => v
        | None => Text.upper cleaned
        end in
      if Text.contains "/" cleaned then
        match Text.split "/" cleaned with
        | [number_part; letter_part] =>
            (Text.strip number_part +:+ "/" +:+
             normalize_size_letter (Text.strip letter_part))%string
        | _ => mapped
        end
      else mapped.

(** *** Product pages *)

(** A size swatch as the extractor sees it: the label resolved through
      [data-option-label], the element text and the [aria-label] /
      tooltip attributes, and the verdict of [is_element_disabled]. *)
Record size_element := SizeElement {
    se_label : string;
    se_disabled : bool
  }.

(** What the selectors of [extract_product_details] read off a product
      page. *)
Record product_page := ProductPage {
    pp_nombre : option string;
    pp_price : option string;           (* special / final price element *)
    pp_regular_price : option string;   (* old / regular price element *)
    pp_sku : option string;
    pp_sizes : list size_element;       (* [talles_raw] *)
    pp_colors : list string;            (* one [color_text] per swatch *)
    pp_description : option string;
    pp_image_urls : list string;        (* [cleaned_image_urls] *)
    pp_stock_text : option string       (* text of the stock element *)
  }.

(** The dict returned by [extract_product_details]. *)
Record product_info := ProductInfo {
    pi_url : string;
    pi_category : string;
    pi_subcategory : string;
    pi_talles_disponibles : list string;
    pi_talles_todos : list string;
    pi_precio_regular : option string;
    pi_precio_oferta : option string;
    pi_nombre_producto : option string;
    pi_sku : option string;
    pi_description : string;
    pi_image_urls : list string;
    pi_colors : list string;
    pi_availability : bool
  }.

(** The loop over [talles_raw], carrying [talles_todos] and
      [talles_disponibles]. *)
Fixpoint extract_sizes (talles_raw : list size_element)
      (talles_todos talles_disponibles : list string)
    : list string * list string :=
    match talles_raw with
    | [] => (talles_todos, talles_disponibles)
    | talle_element :: rest =>
        let talle_label := se_label talle_element in
        if Text.truthy talle_label then
          let clean_size := clean_size_text talle_label in
          if Text.truthy clean_size then
            let talles_todos :=
              if bool_decide (clean_size ∈ talles_todos) then talles_todos
              else (talles_todos ++ [clean_size])%list in
            let is_available := negb (se_disabled talle_element) in
            let talles_disponibles :=
              if is_available then (talles_disponibles ++ [clean_size])%list
              else talles_disponibles in
            extract_sizes rest talles_todos talles_disponibles
          else extract_sizes rest talles_todos talles_disponibles
        else extract_sizes rest talles_todos talles_disponibles
    end.

(** The loop over the color swatches. *)
Fixpoint extract_colors (elements colors : list string) : list string :=
    match elements with
    | [] => colors
    | color_text :: rest =>
        if Text.truthy color_text && negb (bool_decide (color_text ∈ colors))
        then extract_colors rest (colors ++ [color_text])%list
        else extract_colors rest colors
    end.

(** Steps 2 to 9 of [extract_product_details]: the dict built from a
      parsed page. *)
Definition build_product_info (url category_name subcategory_name : string)
      (page : product_page) : product_info :=
    let '(talles_todos, talles_disponibles) := extract_sizes (pp_sizes page) [] [] in
    let precio_regular :=
      match pp_regular_price page with
      | Some r => Some r
      | None => pp_price page
      end in
    let availability :=
      match pp_stock_text page with
      | Some text =>
          let availability_text := Text.lower text in
          Text.contains "disponible" availability_text
          || Text.contains "en stock" availability_text
          || Text.contains "available" availability_text
      | None => bool_decide (0 < length talles_disponibles)%nat
      end in
    {| pi_url := url; pi_category := category_name; pi_subcategory := subcategory_name;
       pi_talles_disponibles := talles_disponibles; pi_talles_todos := talles_todos;
       pi_precio_regular := precio_regular; pi_precio_oferta := pp_price page;
       pi_nombre_producto := pp_nombre page; pi_sku := pp_sku page;
       pi_description := default "" (pp_description page);
       pi_image_urls := pp_image_urls page;
       pi_colors := extract_colors (pp_colors page) [];
       pi_availability := availability |}.

(** [validate_product_data(product_info)]: the dict carries no ['title']
      entry. *)
Definition validate_product_info (info : product_info) : bool :=
    validate_product_data (Some (pi_url info)) None (Some (pi_description info)).

(** The [formatted_info] dict, built the same way by
      [parse_product_page] and by [process_products]. *)
Definition format_info (info : product_info) : formatted_info :=
    {| fi_url := pi_url info; fi_category := pi_category info;
       fi_subcategory := pi_subcategory info;
       fi_title := pi_nombre_producto info;
       fi_price := pi_precio_oferta info;
       fi_old_price :=
         if Text.truthy_opt (pi_precio_oferta info) then pi_precio_regular info
         else None;
       fi_description := pi_description info;
       fi_sizes := pi_talles_todos info;
       fi_available_sizes := pi_talles_disponibles info;
       fi_colors := pi_colors info;
       fi_image_urls := pi_image_urls info;
       fi_sku := pi_sku info;
       fi_availability := pi_availability info |}.

Definition validate_formatted_info (info : formatted_info) : bool :=
    validate_product_data (Some (fi_url info)) (fi_title info)
                          (Some (fi_description info)).

(** *** The extraction pipeline *)

(** The outcome of [safe_crawl_page]: [{'success': False, ...}], or
      [{'success': True, 'html': ...}] where an empty document leaves
      [soup] at [None]. *)
Inductive crawl_result (Html : Type) :=
  | CrawlFailed
  | CrawlOk (html : option Html).
Arguments CrawlFailed {Html}.
Arguments CrawlOk {Html} html.

(** [extract_product_details] either raises or returns
      [Optional[Dict]]. *)
Inductive extraction :=
  | Raised
  | Returned (info : option product_info).

(** What the selectors of the listing parsers read off a listing page.
      Link lists hold the values of [normalize_url(href, url)] in
      document order (the empty string where normalisation rejects the
      reference). *)
Record listing_page := ListingPage {
    lp_subcategory_links : list string;
    lp_grid_links : list string;
    lp_generic_links : list string;
    lp_pagination_links : list string;   (* [extract_pagination_links(soup, url)] *)
    lp_has_load_more : bool;
    lp_has_infinite_scroll : bool;
    lp_has_product_markers : bool        (* the test of [validate_page_has_products] *)
  }.

(** The dict returned by the listing parsers. *)
Record page_data := PageData {
    pd_subcategories : list string;
    pd_products : list string;
    pd_next_page : option string
  }.

Definition javascript_pagination_detected_marker : string :=
    "javascript_pagination_detected".

Definition category_key (category_name subcategory_name : string) : string :=
    (category_name +:+ "_" +:+ subcategory_name)%string.

(** [self.products_by_category[key].append(formatted_info)] *)
Definition store_product (key : string) (info : formatted_info) (s : t) : t :=
    with_log (fun l => l ++ [EvStored (fi_url info)])%list
      (with_products_by_category
         (dd_update [] (fun l => l ++ [info])%list key) s).

Section Crawl.
Context {World Html : Type}.

(** The page fetcher (browser session with its retries and time-out),
        the HTML selectors and the URL classifier are collaborators. *)
Variable fetch : World -> string -> World * crawl_result Html.
Variable parse_product : Html -> option product_page.  (* [None]: parsing raised *)
Variable parse_listing : Html -> string -> listing_page.
Variable is_product_url : string -> bool.
Variable get_category_name_from_url : string -> string.
Variable get_subcategory_name_from_url : string -> string.

(** [safe_crawl_page] *)
Definition safe_crawl_page (s : t) (w : World) (url context : string)
      : t * World * crawl_result Html :=
      let s := with_log (fun l => l ++ [EvCrawl url context])%list s in
      if negb (validate_url url) then (s, w, CrawlFailed)
      else let '(w, result) := fetch w url in (s, w, result).

(** [extract_product_details] *)
Definition extract_product_details (s : t) (w : World)
        (url category_name subcategory_name : string) : t * World * extraction :=
      let '(s, w, result) := safe_crawl_page s w url "product_page" in
      match result with
      | CrawlFailed => (s, w, Returned None)
      | CrawlOk None => (s, w, Returned None)
      | CrawlOk (Some html) =>
          match parse_product html with
          | None => (s, w, Raised)
          | Some page =>
              let product_info :=
                build_product_info url category_name subcategory_name page in
              if negb (validate_product_info product_info)
              then (s, w, Returned None)
              else (s, w, Returned (Some product_info))
          end
      end.

(** [parse_product_page]; the empty dict is [None]. *)
Definition parse_product_page (s : t) (w : World)
        (url category_name subcategory_name : string)
      : t * World * option formatted_info :=
      if bool_decide (url ∈ product_urls_extracted s) then (s, w, None)
      else
        let '(s, w, r) :=
          extract_product_details s w url category_name subcategory_name in
        match r with
        | Raised => (s, w, None)
        | Returned None => (s, w, None)
        | Returned (Some product_info) =>
            let formatted_info := format_info product_info in
            if negb (validate_formatted_info formatted_info) then (s, w, None)
            else
              let s := with_extracted (fun e => {[url]} ∪ e) s in
              let key :=
                if String.eqb category_name "WOMAN"
                then ("WOMAN_" +:+ subcategory_name)%string
                else if String.eqb category_name "GIRLS"
                then ("GIRLS_" +:+ subcategory_name)%string
                else if String.eqb category_name "DENIM"
                then ("DENIM_" +:+ subcategory_name)%string
                else category_name in
              (store_product key formatted_info s, w, Some formatted_info)
        end.

(** [process_single_product]: [None] when the URL is skipped, else
        the pair [(url, product_info)]. *)
Definition process_single_product (category_name subcategory_name : string)
        (s : t) (w : World) (url : string)
      : t * World * option (string * option product_info) :=
      if bool_decide (url ∈ product_urls_extracted s) then (s, w, None)
      else
        let '(s, w, r) :=
          extract_product_details s w url category_name subcategory_name in
        match r with
        | Raised => (s, w, Some (url, None))
        | Returned None => (s, w, Some (url, None))
        | Returned (Some product_info) =>
            (with_extracted (fun e => {[url]} ∪ e) s, w,
             Some (url, Some product_info))
        end.

(** [asyncio.gather] over the tasks of one batch.  The tasks are
        cooperative and each one touches the extracted set only for its
        own URL, so they are run here one after the other in list
        order. *)
Fixpoint gather (category_name subcategory_name : string)
        (s : t) (w : World) (batch_urls : list string)
      : t * World * list (option (string * option product_info)) :=
      match batch_urls with
      | [] => (s, w, [])
      | url :: rest =>
          let '(s, w, r) :=
            process_single_product category_name subcategory_name s w url in
          let '(s, w, rs) := gather category_name subcategory_name s w rest in
          (s, w, r :: rs)
      end.

(** [for i in range(0, len(urls_to_process), batch_size)]: the
        consecutive slices of [batch_size] URLs.  [fuel] bounds the
        number of slices. *)
Fixpoint run_batches (fuel batch_size : nat)
        (category_name subcategory_name : string)
        (s : t) (w : World) (urls : list string)
        (results : list (option (string * option product_info)))
      : t * World * list (option (string * option product_info)) :=
      match urls, fuel with
      | [], _ => (s, w, results)
      | _, O => (s, w, results)
      | _, S fuel =>
          let batch_urls := take batch_size urls in
          let '(s, w, batch_results) :=
            gather category_name subcategory_name s w batch_urls in
          run_batches fuel batch_size category_name subcategory_name s w
            (drop batch_size urls) (results ++ batch_results)%list
      end.

(** The loop over [results] at the end of [process_products]. *)
Fixpoint store_results (key : string)
        (results : list (option (string * option product_info))) (s : t) : t :=
      match results with
      | [] => s
      | None :: rest => store_results key rest s
      | Some (_, None) :: rest => store_results key rest s
      | Some (_, Some product_info) :: rest =>
          let formatted_info := format_info product_info in
          if negb (validate_formatted_info formatted_info)
          then store_results key rest s
          else store_results key rest (store_product key formatted_info s)
      end.

(** [process_products]; the argument is a [set], enumerated in some
        order as the list [product_urls_to_process]. *)
Definition process_products (s : t) (w : World)
        (category_name subcategory_name : string)
        (product_urls_to_process : list string) (max_concurrent : positive)
      : t * World :=
      let urls_to_process :=
        List.filter (fun url => negb (bool_decide (url ∈ product_urls_extracted s)))
                    product_urls_to_process in
      match urls_to_process with
      | [] => (s, w)
      | _ =>
          let '(s, w, results) :=
            run_batches (length urls_to_process) (Pos.to_nat max_concurrent)
              category_name subcategory_name s w urls_to_process [] in
          (store_results (category_key category_name subcategory_name) results s, w)
      end.

(** *** Listing pages *)

(** The loops that collect product links not seen before. *)
Fixpoint collect_products (links : list string) (s : t)
        (products : list string) (new_products_in_page : Z)
      : t * list string * Z :=
      match links with
      | [] => (s, products, new_products_in_page)
      | full_url :: rest =>
          if Text.truthy full_url && negb (bool_decide (full_url ∈ product_urls s))
             && is_product_url full_url
          then collect_products rest
                 (with_product_urls (fun u => {[full_url]} ∪ u) s)
                 (products ++ [full_url])%list (new_products_in_page + 1)
          else collect_products rest s products new_products_in_page
      end.

(** The loop that collects subcategory links in [parse_category_page]. *)
Fixpoint collect_subcategories (links : list string) (s : t)
        (subcategories : list string) : t * list string :=
      match links with
      | [] => (s, subcategories)
      | full_url :: rest =>
          if Text.truthy full_url && negb (bool_decide (full_url ∈ discovered_urls s))
             && negb (is_product_url full_url)
          then collect_subcategories rest
                 (with_discovered_urls (fun u => {[full_url]} ∪ u) s)
                 (subcategories ++ [full_url])%list
          else collect_subcategories rest s subcategories
      end.

(** The products and the next page read off a parsed listing. *)
Definition read_listing (page : listing_page) (url : string) (s : t)
      : t * list string * Z * option string :=
      let '(s, products, new_products_in_page) :=
        collect_products (lp_grid_links page) s [] 0 in
      let '(s, products, new_products_in_page) :=
        match products with
        | [] => collect_products (lp_generic_links page) s products new_products_in_page
        | _ => (s, products, new_products_in_page)
        end in
      let next_page := find_next_page_url (lp_pagination_links page) url in
      let next_page :=
        if negb (Text.truthy_opt next_page)
           && (lp_has_load_more page || lp_has_infinite_scroll page)
        then Some javascript_pagination_detected_marker
        else next_page in
      (s, products, new_products_in_page, next_page).

(** [parse_subcategory_page] *)
Definition parse_subcategory_page (s : t) (w : World)
        (url category_name : string) : t * World * page_data :=
      let s := with_visited (dd_update ∅ (fun v => {[url]} ∪ v) category_name) s in
      let '(s, w, result) := safe_crawl_page s w url "subcategory_page" in
      match result with
      | CrawlFailed => (s, w, PageData [] [] None)
      | CrawlOk html =>
          let '(s, products, new_products_in_page, next_page) :=
            match html with
            | Some html => read_listing (parse_listing html url) url s
            | None => (s, [], 0, None)
            end in
          let s :=
            if new_products_in_page =? 0 then
              with_consecutive_empty_pages
                (dd_update 0 (fun n => n + 1) category_name) s
            else
              with_new_products_found
                (dd_update 0 (fun n => n + new_products_in_page) category_name)
                (with_consecutive_empty_pages (<[category_name := 0]>) s) in
          (s, w, PageData [] products next_page)
      end.

(** [parse_category_page] *)
Definition parse_category_page (s : t) (w : World) (url : string)
      : t * World * page_data :=
      let '(s, w, result) := safe_crawl_page s w url "category_page" in
      match result with
      | CrawlFailed => (s, w, PageData [] [] None)
      | CrawlOk None => (s, w, PageData [] [] None)
      | CrawlOk (Some html) =>
          let page := parse_listing html url in
          let '(s, subcategories) :=
            collect_subcategories (lp_subcategory_links page) s [] in
          let '(s, products, _, next_page) := read_listing page url s in
          (s, w, PageData subcategories products next_page)
      end.

(** [validate_page_has_products] *)
Definition validate_page_has_products (s : t) (w : World) (url : string)
      : t * World * bool :=
      let '(s, w, result) := safe_crawl_page s w url "page_validation" in
      match result with
      | CrawlFailed => (s, w, false)
      | CrawlOk None => (s, w, false)
      | CrawlOk (Some html) => (s, w, lp_has_product_markers (parse_listing html url))
      end.

(** *** The pagination loop *)

(** The local variables of [process_subcategory_with_pagination];
        [iterations] counts the executions of the loop body. *)
Record loop_state := LoopState {
      current_url : string;
      page_count : Z;
      consecutive_empty : Z;
      total_products_found : Z;
      javascript_pagination_detected : bool;
      iterations : nat
    }.

(** How one execution of the loop body ends. *)
Inductive control :=
    | Continue (st : loop_state)
    | Break (st : loop_state)
    | RaiseKeyError (st : loop_state).

(** The body of the [while] loop. *)
Definition loop_body (s : t) (w : World) (url : string) (max_pages : Z)
        (parent_category subcategory_name : string) (st : loop_state)
      : t * World * control :=
      let page_count := page_count st + 1 in
      let st :=
        LoopState (current_url st) page_count (consecutive_empty st)
          (total_products_found st) (javascript_pagination_detected st)
          (S (iterations st)) in
      if is_category_complete s parent_category then (s, w, Break st)
      else
        let '(s, w, subcategory_data) :=
          parse_subcategory_page s w (current_url st) parent_category in
        match pages_processed s !! parent_category with
        | None => (s, w, RaiseKeyError st)
        | Some n =>
            let s := with_pages_processed (<[parent_category := n + 1]>) s in
            let products_found := Z.of_nat (length (pd_products subcategory_data)) in
            let total := total_products_found st + products_found in
            let valid_product_urls : gset string :=
              list_to_set (List.filter is_product_url (pd_products subcategory_data)) in
            let '(s, w) :=
              match elements valid_product_urls with
              | [] => (s, w)
              | urls => process_products s w parent_category subcategory_name urls 5
              end in
            let next_page := pd_next_page subcategory_data in
            let '(s, w, consecutive_empty_pages, stop_early) :=
              if products_found =? 0 then
                let consecutive_empty_pages := consecutive_empty st + 1 in
                if (2 <=? consecutive_empty_pages) && Text.truthy_opt next_page then
                  let '(s, w, has_products) :=
                    validate_page_has_products s w (default "" next_page) in
                  (s, w, consecutive_empty_pages, negb has_products)
                else (s, w, consecutive_empty_pages, false)
              else (s, w, 0, false) in
            let st :=
              LoopState (current_url st) page_count consecutive_empty_pages total
                (javascript_pagination_detected st) (iterations st) in
            if stop_early then (s, w, Break st)
            else if should_stop_pagination s parent_category products_found
                      consecutive_empty_pages page_count
            then (s, w, Break st)
            else if bool_decide (next_page = Some javascript_pagination_detected_marker)
            then
              let st :=
                LoopState (current_url st) page_count consecutive_empty_pages total
                  true (iterations st) in
              if page_count <? max_pages then
                let next_url := create_next_page_url (current_url st) (page_count + 1) in
                if Text.truthy next_url then
                  (s, w, Continue
                     (LoopState next_url page_count consecutive_empty_pages total
                        true (iterations st)))
                else (s, w, Break st)
              else (s, w, Break st)
            else
              match next_page with
              | Some next_url =>
                  if Text.truthy next_url then
                    (s, w, Continue
                       (LoopState next_url page_count consecutive_empty_pages total
                          (javascript_pagination_detected st) (iterations st)))
                  else (s, w, Break st)
              | None => (s, w, Break st)
              end
        end.

(** How the whole loop ends: by falling out of the [while] (or a
        [break]), or by the [KeyError] of the progress update. *)
Inductive loop_exit := Completed | KeyError.

(** [while current_url and page_count < max_pages: ...]; [None] when
        [fuel] body executions were not enough to leave the loop. *)
Fixpoint pagination_loop (fuel : nat) (s : t) (w : World) (url : string)
        (max_pages : Z) (parent_category subcategory_name : string)
        (st : loop_state) : option (t * World * loop_state * loop_exit) :=
      if Text.truthy (current_url st) && (page_count st <? max_pages) then
        match fuel with
        | O => None
        | S fuel =>
            match loop_body s w url max_pages parent_category subcategory_name st with
            | (s, w, Continue st) =>
                pagination_loop fuel s w url max_pages parent_category
                  subcategory_name st
            | (s, w, Break st) => Some (s, w, st, Completed)
            | (s, w, RaiseKeyError st) => Some (s, w, st, KeyError)
            end
        end
      else Some (s, w, st, Completed).

(** [process_subcategory_with_pagination] *)
Definition process_subcategory_with_pagination (fuel : nat) (s : t) (w : World)
        (url : string) (max_pages : Z) (parent_category subcategory_name : string)
      : option (t * World * loop_state * loop_exit) :=
      pagination_loop fuel s w url max_pages parent_category subcategory_name
        (LoopState url 0 0 0 false 0).

(** The loop over the subcategories in [crawl_with_pagination];
        the result carries the page iterations of every subcategory
        visited and whether a [KeyError] ended the walk. *)
Fixpoint walk_subcategories (fuel : nat) (s : t) (w : World) (max_pages : Z)
        (category_name : string) (subcategories : list string) (pages : list nat)
      : option (t * World * list nat * loop_exit) :=
      match subcategories with
      | [] => Some (s, w, pages, Completed)
      | subcategory_url :: rest =>
          let subcategory_name := get_subcategory_name_from_url subcategory_url in
          if is_category_complete s category_name then Some (s, w, pages, Completed)
          else
            match process_subcategory_with_pagination fuel s w subcategory_url
                    max_pages category_name subcategory_name with
            | None => None
            | Some (s, w, st, KeyError) =>
                Some (s, w, (pages ++ [iterations st])%list, KeyError)
            | Some (s, w, st, Completed) =>
                walk_subcategories fuel s w max_pages category_name rest
                  (pages ++ [iterations st])%list
            end
      end.

(** The loop over the products found directly on the category page. *)
Fixpoint parse_direct_products (s : t) (w : World) (category_name : string)
        (products : list string) : t * World :=
      match products with
      | [] => (s, w)
      | product_url :: rest =>
          if is_product_url product_url then
            let subcategory_name := get_subcategory_name_from_url product_url in
            let '(s, w, _) :=
              parse_product_page s w product_url category_name subcategory_name in
            parse_direct_products s w category_name rest
          else parse_direct_products s w category_name rest
      end.

(** [crawl_with_pagination(start_url, max_pages=5)]; an omitted
        [max_pages] is [None]. *)
Definition crawl_with_pagination (fuel : nat) (s : t) (w : World)
        (start_url : string) (max_pages : option Z)
      : option (t * World * list nat * loop_exit) :=
      let max_pages := default 5 max_pages in
      let category_name := get_category_name_from_url start_url in
      let s := with_pages_processed (<[category_name := 0]>) s in
      let '(s, w, category_data) := parse_category_page s w start_url in
      match walk_subcategories fuel s w max_pages category_name
              (pd_subcategories category_data) [] with
      | None => None
      | Some (s, w, pages, KeyError) => Some (s, w, pages, KeyError)
      | Some (s, w, pages, Completed) =>
          let '(s, w) :=
            parse_direct_products s w category_name (pd_products category_data) in
          Some (s, w, pages, Completed)
      end.

End Crawl.

End Scraper.

(** ** Mappers ([scrapers/mappers.py]) *)

Module Mappers.

(** The loop of [normalize_sizes], carrying [normalized]. *)
Fixpoint normalize_loop (sizes normalized : list string) : list string :=
  match sizes with
  | [] => normalized
  | size :: rest =>
      if Text.truthy size then
        let size_str := Text.upper (Text.strip size) in
        if Text.truthy size_str && negb (bool_decide (size_str ∈ normalized))
        then normalize_loop rest (normalized ++ [size_str])%list
        else normalize_loop rest normalized
      else normalize_loop rest normalized
  end.

(** [normalize_sizes] *)
Definition normalize_sizes (sizes : list string) : list string :=
  match sizes with
  | [] => []
  | _ => normalize_loop sizes []
  end.

End Mappers.

(** ** The database client ([scrapers/supabase_client.py]) *)

Module SupabaseClient.

(** A row of [items].  Identifiers are the keys the database generates;
    the price is the number produced by [normalize_price], carried as
    is. *)
Record item := Item {
  item_id : Z;
  name : string;
  description : option string;
  price : Z;
  brand_id : Z;
  main_category_id : option Z;
  subcategory_id : option Z;
  sizes : list string;
  sizes_available : option (list string);   (* [None]: SQL NULL *)
  available : bool;
  created_at : Z;
  updated_at : Z
}.

(** A row of [item_images]. *)
Record item_image := ItemImage {
  image_item_id : Z;
  image_url : string;
  is_primary : bool;
  image_color_id : option Z;
  image_created_at : Z
}.

(** A row of [item_x_item_colors]. *)
Record item_color := ItemColor {
  link_item_id : Z;
  link_color_id : Z;
  link_created_at : Z
}.

(** A row of [item_colors]. *)
Record color := Color {
  color_id : Z;
  color_name : string;
  hex_code : string
}.

(** What the client writes to its logger. *)
Inductive log_entry :=
| LogUpdated (name : string) (item_id : Z)
| LogNowUnavailable (name : string)
| LogSizesChanged (name : string) (old : option (list string)) (new : list string)
| LogCreated (name : string) (item_id : Z)
| LogImagesInserted (count : nat) (item_id : Z)
| LogColorsLinked (count : nat) (item_id : Z)
| LogMarkedUnavailable (count : nat)
| LogAvailabilityChanged (name : string) (old new : bool)
| LogSynced (count : nat)
| LogColorCreated (name : string) (color_id : Z).

(** The database, with the key sequence and the client's log. *)
Record db := Db {
  items : list item;
  item_images : list item_image;
  item_x_item_colors : list item_color;
  item_colors : list color;
  next_item_id : Z;
  next_color_id : Z;
  logger : list log_entry
}.

Definition with_items (f : list item -> list item) (d : db) : db :=
  {| items := f (items d); item_images := item_images d;
     item_x_item_colors := item_x_item_colors d;
     item_colors := item_colors d;
     next_item_id := next_item_id d; next_color_id := next_color_id d;
     logger := logger d |}.

Definition with_item_images (f : list item_image -> list item_image) (d : db) : db :=
  {| items := items d; item_images := f (item_images d);
     item_x_item_colors := item_x_item_colors d;
     item_colors := item_colors d;
     next_item_id := next_item_id d; next_color_id := next_color_id d;
     logger := logger d |}.

Definition with_item_colors (f : list item_color -> list item_color) (d : db) : db :=
  {| items := items d; item_images := item_images d;
     item_x_item_colors := f (item_x_item_colors d);
     item_colors := item_colors d;
     next_item_id := next_item_id d; next_color_id := next_color_id d;
     logger := logger d |}.

Definition log_info (e : log_entry) (d : db) : db :=
  {| items := items d; item_images := item_images d;
     item_x_item_colors := item_x_item_colors d;
     item_colors := item_colors d;
     next_item_id := next_item_id d; next_color_id := next_color_id d;
     logger := (logger d ++ [e])%list |}.

(** [UPDATE items SET ... WHERE ...] *)
Definition update_where (cond : item -> bool) (set : item -> item)
    (rows : list item) : list item :=
  List.map (fun r => if cond r then set r else r) rows.

(** The argument of [upsert_item]; an optional field is an entry read
    with [.get]. *)
Record item_data := ItemData {
  d_name : string;
  d_description : option string;
  d_price : Z;
  d_brand_id : Z;
  d_category_id : option Z;
  d_subcategory_id : option Z;
  d_sizes : list string;
  d_sizes_available : option (list string);
  d_available : option bool
}.

(** [upsert_item]; [now] is the value of [NOW()]. *)
Definition upsert_item (now : Z) (d : db) (item_data : item_data) : db * option Z :=
  let new_sizes_available := default [] (d_sizes_available item_data) in
  let new_available := default true (d_available item_data) in
  match List.find (fun r => String.eqb (name r) (d_name item_data)
                            && (brand_id r =? d_brand_id item_data))
                  (items d) with
  | Some existing =>
      let id := item_id existing in
      let old_available := available existing in
      let old_sizes_available := sizes_available existing in
      let d :=
        with_items
          (update_where (fun r => item_id r =? id)
             (fun r =>
                {| item_id := item_id r; name := name r;
                   description := d_description item_data;
                   price := d_price item_data;
                   brand_id := brand_id r;
                   main_category_id := main_category_id r;
                   subcategory_id := subcategory_id r;
                   sizes := d_sizes item_data;
                   sizes_available := Some new_sizes_available;
                   available := new_available;
                   created_at := created_at r;
                   updated_at := now |})) d in
      let d := log_info (LogUpdated (d_name item_data) id) d in
      let d :=
        if old_available && negb new_available
        then log_info (LogNowUnavailable (d_name item_data)) d else d in
      let d :=
        if negb (bool_decide (old_sizes_available = Some new_sizes_available))
        then log_info (LogSizesChanged (d_name item_data) old_sizes_available
                         new_sizes_available) d
        else d in
      (d, Some id)
  | None =>
      let id := next_item_id d in
      let row :=
        {| item_id := id; name := d_name item_data;
           description := d_description item_data;
           price := d_price item_data;
           brand_id := d_brand_id item_data;
           main_category_id := d_category_id item_data;
           subcategory_id := d_subcategory_id item_data;
           sizes := d_sizes item_data;
           sizes_available := Some new_sizes_available;
           available := new_available;
           created_at := now; updated_at := now |} in
      let d :=
        {| items := (items d ++ [row])%list; item_images := item_images d;
           item_x_item_colors := item_x_item_colors d;
           item_colors := item_colors d;
           next_item_id := id + 1; next_color_id := next_color_id d;
           logger := logger d |} in
      (log_info (LogCreated (d_name item_data) id) d, Some id)
  end.

(** The rows built by [enumerate(image_urls)]. *)
Fixpoint image_rows (now : Z) (item_id : Z) (color_id : option Z)
    (idx : nat) (image_urls : list string) : list item_image :=
  match image_urls with
  | [] => []
  | img_url :: rest =>
      ItemImage item_id img_url (bool_decide (idx = 0%nat)) color_id now
      :: image_rows now item_id color_id (S idx) rest
  end.

(** [upsert_item_images] *)
Definition upsert_item_images (now : Z) (d : db) (item_id : Z)
    (image_urls : list string) (color_id : option Z) : db :=
  match image_urls with
  | [] => d
  | _ =>
      let d := with_item_images
                 (List.filter (fun r => negb (image_item_id r =? item_id))) d in
      let d := with_item_images
                 (fun rows => rows ++ image_rows now item_id color_id 0 image_urls)%list d in
      log_info (LogImagesInserted (length image_urls) item_id) d
  end.

(** [INSERT INTO item_x_item_colors ... ON CONFLICT (item_id, color_id)
    DO NOTHING], row by row. *)
Fixpoint insert_color_links (now : Z) (item_id : Z) (color_ids : list Z)
    (rows : list item_color) : list item_color :=
  match color_ids with
  | [] => rows
  | color_id :: rest =>
      if existsb (fun r => (link_item_id r =? item_id) && (link_color_id r =? color_id)) rows
      then insert_color_links now item_id rest rows
      else insert_color_links now item_id rest
             (rows ++ [ItemColor item_id color_id now])%list
  end.

(** [link_item_colors] *)
Definition link_item_colors (now : Z) (d : db) (item_id : Z) (color_ids : list Z) : db :=
  match color_ids with
  | [] => d
  | _ =>
      let d := with_item_colors
                 (List.filter (fun r => negb (link_item_id r =? item_id))) d in
      let d := with_item_colors (insert_color_links now item_id color_ids) d in
      log_info (LogColorsLinked (length color_ids) item_id) d
  end.

(** [_color_name_to_hex] *)
Definition color_map : list (string * string) :=
  [("NEGRO", "#000000"); ("BLANCO", "#FFFFFF"); ("AZUL", "#0000FF");
   ("ROJO", "#FF0000"); ("VERDE", "#00FF00"); ("AMARILLO", "#FFFF00");
   ("GRIS", "#808080"); ("ROSA", "#FFC0CB"); ("CRUDO", "#F5F5DC");
   ("BEIGE", "#F5F5DC"); ("CAMEL", "#C19A6B"); ("CELESTE", "#87CEEB")].

Definition _color_name_to_hex (color_name : string) : string :=
  default "#CCCCCC" (Scraper.dict_get color_map (Text.upper color_name)).

(** [get_color_id] (without an explicit [hex_code]) *)
Definition get_color_id (d : db) (name : string) : db * option Z :=
  match List.find (fun c => String.eqb (color_name c) (Text.upper name))
                  (item_colors d) with
  | Some c => (d, Some (color_id c))
  | None =>
      let id := next_color_id d in
      let d :=
        {| items := items d; item_images := item_images d;
           item_x_item_colors := item_x_item_colors d;
           item_colors :=
             (item_colors d ++ [Color id (Text.upper name) (_color_name_to_hex name)])%list;
           next_item_id := next_item_id d; next_color_id := id + 1;
           logger := logger d |} in
      (log_info (LogColorCreated name id) d, Some id)
  end.

Definition set_unavailable (now : Z) (r : item) : item :=
  {| item_id := item_id r; name := name r; description := description r;
     price := price r; brand_id := brand_id r;
     main_category_id := main_category_id r; subcategory_id := subcategory_id r;
     sizes := sizes r; sizes_available := sizes_available r;
     available := false; created_at := created_at r; updated_at := now |}.

Definition set_availability (now : Z) (new_available : bool)
    (new_sizes : list string) (r : item) : item :=
  {| item_id := item_id r; name := name r; description := description r;
     price := price r; brand_id := brand_id r;
     main_category_id := main_category_id r; subcategory_id := subcategory_id r;
     sizes := sizes r; sizes_available := Some new_sizes;
     available := new_available; created_at := created_at r; updated_at := now |}.

(** The [for item_id, name, sizes_available in all_items] loop of
    [mark_missing_items_unavailable]; its body is [pass]. *)
Definition missing_items_loop (found_skus : gset string)
    (all_items : list (Z * string * option (list string))) : list Z :=
  fold_left
    (fun (items_to_mark_unavailable : list Z)
         (row : Z * string * option (list string)) =>
       let '(item_id, name, sizes_available) := row in
       items_to_mark_unavailable)
    all_items [].

(** [mark_missing_items_unavailable] *)
Definition mark_missing_items_unavailable (now : Z) (d : db) (brand : Z)
    (found_skus : gset string) (run_date : Z) : db :=
  let all_items :=
    List.map (fun r => (item_id r, name r, sizes_available r))
      (List.filter (fun r => (brand_id r =? brand) && available r) (items d)) in
  let items_to_mark_unavailable := missing_items_loop found_skus all_items in
  match items_to_mark_unavailable with
  | [] => d
  | ids =>
      let d :=
        with_items
          (update_where (fun r => bool_decide (item_id r ∈ ids)) (set_unavailable now)) d in
      log_info (LogMarkedUnavailable (length ids)) d
  end.

(** An element of [product_data_list]; every field is read with [.get]. *)
Record product_data := ProductData {
  p_name : option string;
  p_available : option bool;
  p_sizes_available : option (list string)
}.

(** [existing_items = {row[1]: (row[0], row[2], row[3]) for row in ...}] *)
Definition existing_items_of (rows : list item)
  : gmap string (Z * bool * option (list string)) :=
  fold_left
    (fun m r => <[name r := (item_id r, available r, sizes_available r)]> m)
    rows ∅.

(** [found_names = {p.get('name', '') for p in ... if p.get('name')}] *)
Definition found_names_of (product_data_list : list product_data) : gset string :=
  list_to_set
    (omap (fun p => if Text.truthy_opt (p_name p) then p_name p else None)
          product_data_list).

(** One iteration of the update loop of [sync_product_availability]. *)
Definition sync_one (now : Z)
    (existing_items : gmap string (Z * bool * option (list string)))
    (d : db) (p : product_data) : db :=
  match p_name p with
  | None => d
  | Some name =>
      if negb (Text.truthy name) then d
      else
        match existing_items !! name with
        | None => d
        | Some (id, current_available, current_sizes) =>
            let new_available := default true (p_available p) in
            let new_sizes := default [] (p_sizes_available p) in
            let d :=
              if negb (Bool.eqb current_available new_available)
              then log_info (LogAvailabilityChanged name current_available
                               new_available) d
              else d in
            let d :=
              if negb (bool_decide
                         ((list_to_set (default [] current_sizes) : gset string)
                          = list_to_set new_sizes))
              then log_info (LogSizesChanged name current_sizes new_sizes) d
              else d in
            with_items
              (update_where (fun r => item_id r =? id)
                 (set_availability now new_available new_sizes)) d
        end
  end.

(** [sync_product_availability] *)
Definition sync_product_availability (now : Z) (d : db) (brand : Z)
    (product_data_list : list product_data) : db :=
  let existing_items :=
    existing_items_of (List.filter (fun r => brand_id r =? brand) (items d)) in
  let found_names := found_names_of product_data_list in
  let items_to_mark_unavailable : list Z :=
    omap (fun entry : string * (Z * bool * option (list string)) =>
            let '(name, (id, current_available, _)) := entry in
            if negb (bool_decide (name ∈ found_names)) && current_available
            then Some id else None)
         (map_to_list existing_items) in
  let d :=
    match items_to_mark_unavailable with
    | [] => d
    | ids =>
        let d :=
          with_items
            (update_where (fun r => bool_decide (item_id r ∈ ids))
               (set_unavailable now)) d in
        log_info (LogMarkedUnavailable (length ids)) d
    end in
  let d := fold_left (sync_one now existing_items) product_data_list d in
  log_info (LogSynced (length product_data_list)) d.

End SupabaseClient.

(** ** The worker ([lambda_worker.py]) *)

Module Worker.
Import SupabaseClient.

(** [a or b] on optional strings. *)
Definition or_else (a b : option string) : option string :=
  if Text.truthy_opt a then a else b.

(** [normalized_data] of [process_product_url]. *)
Record normalized_data := NormalizedData {
  n_name : string;
  n_description : string;
  n_price : string;
  n_sizes : list string;
  n_available_sizes : list string;
  n_availability : bool;
  n_image_urls : list string;
  n_colors : list string
}.

(** The scraper's dict has no ['title'], ['price'], ['sizes'] or
    ['available_sizes'] entry, so the second operand of each [or] is the
    default of its [.get]. *)
Definition normalize (product_data : Scraper.product_info) : normalized_data :=
  {| n_name := default "" (or_else (Scraper.pi_nombre_producto product_data) (Some ""));
     n_description := Scraper.pi_description product_data;
     n_price :=
       default "0" (or_else (Scraper.pi_precio_oferta product_data)
                      (or_else (Scraper.pi_precio_regular product_data) (Some "0")));
     n_sizes :=
       match Scraper.pi_talles_todos product_data with
       | [] => []
       | l => l
       end;
     n_available_sizes :=
       match Scraper.pi_talles_disponibles product_data with
       | [] => []
       | l => l
       end;
     n_availability := Scraper.pi_availability product_data;
     n_image_urls := Scraper.pi_image_urls product_data;
     n_colors := Scraper.pi_colors product_data |}.

Section Worker.
Variable normalize_price : string -> Z.
Variable get_rapsodia_category_mapping : string -> string -> option (Z * Z).

(** [item_data] of [process_product_url]. *)
Definition make_item_data (brand_id : Z) (category_name subcategory_name : string)
    (n : normalized_data) : item_data :=
  let category_mapping :=
    get_rapsodia_category_mapping category_name subcategory_name in
  {| d_name := n_name n;
     d_description := Some (n_description n);
     d_price := normalize_price (n_price n);
     d_brand_id := brand_id;
     d_category_id := fst <$> category_mapping;
     d_subcategory_id := snd <$> category_mapping;
     d_sizes := Mappers.normalize_sizes (n_sizes n);
     d_sizes_available := Some (Mappers.normalize_sizes (n_available_sizes n));
     d_available := Some (n_availability n) |}.

(** The loop resolving color names to ids. *)
Fixpoint resolve_colors (d : db) (colors : list string) (color_ids : list Z)
  : db * list Z :=
  match colors with
  | [] => (d, color_ids)
  | color_name :: rest =>
      match get_color_id d color_name with
      | (d, Some id) => resolve_colors d rest (color_ids ++ [id])%list
      | (d, None) => resolve_colors d rest color_ids
      end
  end.

(** The part of [process_product_url] that follows a successful
    extraction: upsert the item, then its images and colors.  Returns
    the database and the [item_id] of a successful result. *)
Definition sync_record (now : Z) (d : db) (brand_id : Z)
    (category_name subcategory_name : string)
    (product_data : Scraper.product_info) : db * option Z :=
  let n := normalize product_data in
  let item_data := make_item_data brand_id category_name subcategory_name n in
  match upsert_item now d item_data with
  | (d, None) => (d, None)
  | (d, Some item_id) =>
      let d :=
        match n_image_urls n with
        | [] => d
        | image_urls => upsert_item_images now d item_id image_urls None
        end in
      let d :=
        match n_colors n with
        | [] => d
        | colors =>
            let '(d, color_ids) := resolve_colors d colors [] in
            match color_ids with
            | [] => d
            | _ => link_item_colors now d item_id color_ids
            end
        end in
      (d, Some item_id)
  end.

End Worker.

End Worker.

(** ** Sample data used by the examples below *)

Module Samples.
Import SupabaseClient.

(** An item with one stored image and one stored color link. *)
Definition jean : item :=
  {| item_id := 1; name := "JEAN OXFORD"; description := Some "Jean tiro alto";
     price := 240000; brand_id := 7; main_category_id := None;
     subcategory_id := None; sizes := ["S"; "M"; "L"];
     sizes_available := Some ["S"; "M"]; available := true;
     created_at := 0; updated_at := 0 |}.

Definition jean_db : db :=
  {| items := [jean];
     item_images := [ItemImage 1 "https://grupo-alas.com.ar/media/catalog/product/j1.jpg"
                       true None 0];
     item_x_item_colors := [ItemColor 1 3 0];
     item_colors := [Color 3 "AZUL" "#0000FF"];
     next_item_id := 2; next_color_id := 4; logger := [] |}.

(** The same product, re-extracted from a page that shows no image and
    no color swatch. *)
Definition jean_without_media : Scraper.product_info :=
  {| Scraper.pi_url := "https://www.rapsodia.com.ar/jean-oxford-12345678.html";
     Scraper.pi_category := "WOMAN"; Scraper.pi_subcategory := "JEANS";
     Scraper.pi_talles_disponibles := ["S"; "M"];
     Scraper.pi_talles_todos := ["S"; "M"; "L"];
     Scraper.pi_precio_regular := Some "$ 240.000";
     Scraper.pi_precio_oferta := Some "$ 240.000";
     Scraper.pi_nombre_producto := Some "JEAN OXFORD";
     Scraper.pi_sku := None;
     Scraper.pi_description := "Jean tiro alto";
     Scraper.pi_image_urls := [];
     Scraper.pi_colors := [];
     Scraper.pi_availability := true |}.

(** The same product with the same available sizes, listed in another
    order. *)
Definition jean_reordered : item_data :=
  {| d_name := "JEAN OXFORD"; d_description := Some "Jean tiro alto";
     d_price := 240000; d_brand_id := 7; d_category_id := None;
     d_subcategory_id := None; d_sizes := ["S"; "M"; "L"];
     d_sizes_available := Some ["M"; "S"]; d_available := Some true |}.

Definition jean_reordered_observed : product_data :=
  {| p_name := Some "JEAN OXFORD"; p_available := Some true;
     p_sizes_available := Some ["M"; "S"] |}.

(** An item stored under an empty name (the worker stores [''] when the
    page shows no product name), and a record observed with that same
    empty name. *)
Definition nameless : item :=
  {| item_id := 5; name := ""; description := Some "Remera lisa";
     price := 90000; brand_id := 7; main_category_id := None;
     subcategory_id := None; sizes := ["S"]; sizes_available := Some ["S"];
     available := true; created_at := 0; updated_at := 0 |}.

Definition nameless_db : db :=
  {| items := [nameless]; item_images := []; item_x_item_colors := [];
     item_colors := []; next_item_id := 6; next_color_id := 1; logger := [] |}.

Definition nameless_observed : product_data :=
  {| p_name := Some ""; p_available := Some true;
     p_sizes_available := Some ["S"] |}.

(** A site that answers no request, and a product URL on it. *)
Definition dead_fetch (w : unit) (url : string) : unit * Scraper.crawl_result unit :=
  (w, Scraper.CrawlFailed).

Definition no_product_page (html : unit) : option Scraper.product_page := None.

Definition product_url : string :=
  "https://www.rapsodia.com.ar/producto/vestido-12345678.html".

(** A site that serves the same product page for every request. *)
Definition live_fetch (w : unit) (url : string) : unit * Scraper.crawl_result unit :=
  (w, Scraper.CrawlOk (Some tt)).

Definition dress_page : Scraper.product_page :=
  {| Scraper.pp_nombre := Some "VESTIDO LINO";
     Scraper.pp_price := Some "$ 180.000";
     Scraper.pp_regular_price := None;
     Scraper.pp_sku := Some "12345678";
     Scraper.pp_sizes :=
       [Scraper.SizeElement "38/xs" false; Scraper.SizeElement " m " true;
        Scraper.SizeElement "l" false; Scraper.SizeElement "L" false];
     Scraper.pp_colors := ["Crudo"; "Crudo"; "Negro"];
     Scraper.pp_description := Some "Vestido de lino";
     Scraper.pp_image_urls :=
       ["https://grupo-alas.com.ar/media/catalog/product/v1.jpg"];
     Scraper.pp_stock_text := None |}.

Definition dress_parse (html : unit) : option Scraper.product_page := Some dress_page.

(** A scraper that has just seen three empty pages in WOMAN, and one
    that has seen four. *)
Definition three_empty : Scraper.t :=
  Scraper.with_consecutive_empty_pages (fun _ => {["WOMAN" := 3]}) Scraper.init.

Definition four_empty : Scraper.t :=
  Scraper.with_consecutive_empty_pages (fun _ => {["WOMAN" := 4]}) Scraper.init.

(** Two listing pages whose next-page links point at each other. *)
Definition page_a : string := "https://www.rapsodia.com.ar/woman/jean.html".
Definition page_b : string := "https://www.rapsodia.com.ar/woman/jean.html?p=2".

Definition cycle_fetch (w : unit) (url : string) : unit * Scraper.crawl_result string :=
  (w, Scraper.CrawlOk (Some url)).

Definition cycle_listing (html url : string) : Scraper.listing_page :=
  if String.eqb html page_a then
    Scraper.ListingPage []
      ["https://www.rapsodia.com.ar/producto/jean-a-11111111"] [] [page_b]
      false false true
  else
    Scraper.ListingPage []
      ["https://www.rapsodia.com.ar/producto/jean-b-22222222"] [] [page_a]
      false false true.

Definition cycle_product (html : string) : option Scraper.product_page :=
  Some dress_page.

Definition cycle_start : Scraper.t :=
  Scraper.with_pages_processed (fun _ => {["WOMAN" := 0]}) Scraper.init.

End Samples.

(** ** Vocabulary of the properties *)

Section ScraperVocabulary.
Import Scraper.

(** The counters of the completion detector are counts. *)
Definition counters_ok (s : t) : Prop :=
  forall c, 0 <= new_products s c /\ 0 <= empty_streak s c.

(** The page index read off a URL, 1 when the URL carries none. *)
Definition page_index (url : string) : Z :=
    match Text.re_search_page url with Some n => n | None => 1 end.

(** Fetches of product pages and stored records, counted on the log. *)
Definition is_product_fetch (u : string) (e : event) : bool :=
  match e with
  | EvCrawl u' context => String.eqb u' u && String.eqb context "product_page"
  | EvStored _ => false
  end.

Definition is_stored (u : string) (e : event) : bool :=
  match e with
  | EvCrawl _ _ => false
  | EvStored u' => String.eqb u' u
  end.

Definition fetches (u : string) (l : list event) : nat :=
  length (List.filter (is_product_fetch u) l).

Definition records (u : string) (l : list event) : nat :=
  length (List.filter (is_stored u) l).

Definition product_crawl (u : string) : event := EvCrawl u "product_page".

(** The URLs of the results that carry a record. *)
Definition successes (rs : list (option (string * option product_info)))
  : list string :=
  omap (fun r => match r with
                 | Some (u, Some _) => Some u
                 | _ => None
                 end) rs.

(** A result of [process_single_product] for the URL [u] that was not
    skipped. *)
Definition result_for (u : string) (r : option (string * option product_info)) : Prop :=
  exists oi, r = Some (u, oi) /\
             forall info, oi = Some info ->
                          pi_url info = u /\ validate_product_info info = true.

Definition fresh (s : t) (u : string) : bool :=
  negb (bool_decide (u ∈ product_urls_extracted s)).

Definition one_if (b : bool) : nat := if b then 1%nat else 0%nat.

(** A URL has one stored record when it is in the extracted set, and
    none otherwise. *)
Definition one_record_each (s : t) : Prop :=
  forall u, records u (log s) = one_if (bool_decide (u ∈ product_urls_extracted s)).

(** One use of the extraction pipeline: a set of URLs handed to
    [process_products], or one URL handed to [parse_product_page]. *)
Inductive feed :=
| FeedSet (urls : list string) (c sc : string) (max_concurrent : positive)
| FeedPage (u c sc : string).

Definition feed_ok (f : feed) : Prop :=
  match f with
  | FeedSet urls _ _ _ => NoDup urls
  | FeedPage _ _ _ => True
  end.

Definition control_state (c : control) : loop_state :=
  match c with
  | Continue st => st
  | Break st => st
  | RaiseKeyError st => st
  end.

Definition within (max_pages : Z) (n : nat) : Prop :=
  Z.of_nat n <= Z.max 0 max_pages.

End ScraperVocabulary.

Section PipelineVocabulary.
Import Scraper.
Context {World Html : Type}.
Variable fetch : World -> string -> World * crawl_result Html.
Variable parse_product : Html -> option product_page.

Definition run_feed (f : feed) (sw : t * World) : t * World :=
  match f with
  | FeedSet urls c sc mc => process_products fetch parse_product sw.1 sw.2 c sc urls mc
  | FeedPage u c sc => (parse_product_page fetch parse_product sw.1 sw.2 u c sc).1
  end.

Definition run_feeds (fs : list feed) (sw : t * World) : t * World :=
  fold_left (fun sw f => run_feed f sw) fs sw.

End PipelineVocabulary.

Section StoreVocabulary.
Import SupabaseClient.

Definition image_of (id : Z) (r : item_image) : bool := image_item_id r =? id.
Definition link_of (id : Z) (r : item_color) : bool := link_item_id r =? id.

(** The state of the color links of [id] while the insertions run:
    the rows of other items are [others], and the rows of [id] are,
    without repetition, one per color of [seen]. *)
Definition links_inv (now id : Z) (others : list item_color) (seen : list Z)
    (rows : list item_color) : Prop :=
  List.filter (fun r => negb (link_of id r)) rows = others /\
  NoDup (List.filter (link_of id) rows) /\
  (forall r, In r (List.filter (link_of id) rows) <->
             exists c, In c seen /\ r = ItemColor id c now).

Definition same_key (x : item_data) (r : item) : bool :=
  String.eqb (name r) (d_name x) && (brand_id r =? d_brand_id x).

Definition updated_row (now : Z) (x : item_data) (r : item) : item :=
  {| item_id := item_id r; name := name r; description := d_description x;
     price := d_price x; brand_id := brand_id r;
     main_category_id := main_category_id r; subcategory_id := subcategory_id r;
     sizes := d_sizes x; sizes_available := Some (default [] (d_sizes_available x));
     available := default true (d_available x);
     created_at := created_at r; updated_at := now |}.

Definition inserted_row (now : Z) (id : Z) (x : item_data) : item :=
  {| item_id := id; name := d_name x; description := d_description x;
     price := d_price x; brand_id := d_brand_id x;
     main_category_id := d_category_id x; subcategory_id := d_subcategory_id x;
     sizes := d_sizes x; sizes_available := Some (default [] (d_sizes_available x));
     available := default true (d_available x);
     created_at := now; updated_at := now |}.

(** What the dict [existing_items] holds for a row. *)
Definition entry_of (r : item) : Z * bool * option (list string) :=
  (item_id r, available r, sizes_available r).

(** A record counts as an observation of the name [n] when it carries
    that name and the name is not empty. *)
Definition observes (n : string) (p : product_data) : bool :=
  Text.truthy n && bool_decide (p_name p = Some n).

(** The last record of the list that observes [n]. *)
Definition last_observation (n : string) (ps : list product_data)
  : option product_data :=
  List.find (observes n) (rev ps).

(** The row that reconciliation leaves in place of [r]. *)
Definition reconciled (now brand : Z) (ps : list product_data) (r : item) : item :=
  if negb (brand_id r =? brand) then r
  else
    match last_observation (name r) ps with
    | Some p =>
        set_availability now (default true (p_available p))
          (default [] (p_sizes_available p)) r
    | None => if available r then set_unavailable now r else r
    end.

(** Rows are identified by [item_id], and within a brand by [name]:
    the natural key [(name, brand_id)]. *)
Definition keyed (rows : list item) : Prop :=
  NoDup (List.map item_id rows) /\
  NoDup (List.map (fun r => (name r, brand_id r)) rows).

(** The store is keyed and every identifier in it was issued by the
    sequence. *)
Definition store_ok (d : db) : Prop :=
  keyed (items d) /\ forall r, In r (items d) -> item_id r < next_item_id d.

Definition key_of (r : item) : Z * (string * Z) :=
  (item_id r, (name r, brand_id r)).

End StoreVocabulary.

Section ReconcileVocabulary.
Import SupabaseClient.
Variables (now brand : Z) (rows0 : list item) (observed : list product_data).

Definition brand_rows : list item :=
  List.filter (fun r => brand_id r =? brand) rows0.

Definition existing : gmap string (Z * bool * option (list string)) :=
  existing_items_of brand_rows.

Definition to_mark : list Z :=
  omap (fun entry : string * (Z * bool * option (list string)) =>
          let '(name, (id, current_available, _)) := entry in
          if negb (bool_decide (name ∈ found_names_of observed)) && current_available
          then Some id else None)
       (map_to_list existing).

(** The effect of the first [UPDATE] on one row. *)
Definition mark_row (r : item) : item :=
  if bool_decide (item_id r ∈ to_mark) then set_unavailable now r else r.

(** The effect of one iteration of the update loop on one row. *)
Definition one_row (p : product_data) (r : item) : item :=
  match p_name p with
  | None => r
  | Some n =>
      if negb (Text.truthy n) then r
      else
        match existing !! n with
        | None => r
        | Some (id, _, _) =>
            if item_id r =? id
            then set_availability now (default true (p_available p))
                   (default [] (p_sizes_available p)) r
            else r
        end
  end.

(** The row after the first [UPDATE] and the records of [prefix]. *)
Definition reconciled_upto (prefix : list product_data) (r : item) : item :=
  if negb (brand_id r =? brand) then r
  else
    match last_observation (name r) prefix with
    | Some p =>
        set_availability now (default true (p_available p))
          (default [] (p_sizes_available p)) r
    | None =>
        if bool_decide (name r ∉ found_names_of observed) && available r
        then set_unavailable now r else r
    end.

End ReconcileVocabulary.


(** ** Further vocabulary *)

Section ColorVocabulary.
Import SupabaseClient.

(** The color table holds one row per name and one per identifier, and
    every identifier in it was issued by the sequence. *)
Definition colors_ok (d : db) : Prop :=
  NoDup (List.map color_name (item_colors d)) /\
  NoDup (List.map color_id (item_colors d)) /\
  forall c, In c (item_colors d) -> color_id c < next_color_id d.

(** The test of the SELECT of [get_color_id]. *)
Definition named (n : string) (c : color) : bool :=
  String.eqb (color_name c) (Text.upper n).

(** What an empty run of the scraper leaves of a row. *)
Definition delisted (now brand : Z) (r : item) : item :=
  if (brand_id r =? brand) && available r then set_unavailable now r else r.

(** A row of the brand that some record of the scraped list observes:
    the rows the update loop of [sync_product_availability] writes. *)
Definition observed_row (brand : Z) (ps : list product_data) (r : item) : bool :=
  (brand_id r =? brand) && bool_decide (is_Some (last_observation (name r) ps)).

(** The row with [updated_at] set to [now], every other column kept. *)
Definition stamped (now : Z) (r : item) : item :=
  {| item_id := item_id r; name := name r; description := description r;
     price := price r; brand_id := brand_id r;
     main_category_id := main_category_id r; subcategory_id := subcategory_id r;
     sizes := sizes r; sizes_available := sizes_available r;
     available := available r; created_at := created_at r; updated_at := now |}.

(** What a repeated run at time [now] leaves of a row: the observed
    rows are stamped again, the others are not written. *)
Definition restamped (now brand : Z) (ps : list product_data) (r : item) : item :=
  if observed_row brand ps r then stamped now r else r.

(** The columns of an image row and of a color link other than
    [created_at]. *)
Definition image_columns (r : item_image) : Z * string * bool * option Z :=
  (image_item_id r, image_url r, is_primary r, image_color_id r).

Definition link_columns (r : item_color) : Z * Z :=
  (link_item_id r, link_color_id r).

End ColorVocabulary.

Section ReplayVocabulary.
Import SupabaseClient.

(** The contents of the database: every table and both sequences, the
    log left aside. *)
Definition tables (d : db)
  : list item * list item_image * list item_color * list color * Z * Z :=
  (items d, item_images d, item_x_item_colors d, item_colors d,
   next_item_id d, next_color_id d).

(** The image table after the images of [id] were replaced by [urls]
    (an empty list replaces nothing). *)
Definition replace_images (now id : Z) (urls : list string)
    (rows : list item_image) : list item_image :=
  match urls with
  | [] => rows
  | _ => (List.filter (fun r => negb (image_of id r)) rows
          ++ image_rows now id None 0 urls)%list
  end.

(** The link table after the colors of [id] were replaced by [ids]. *)
Definition replace_links (now id : Z) (ids : list Z)
    (rows : list item_color) : list item_color :=
  match ids with
  | [] => rows
  | _ => insert_color_links now id ids
           (List.filter (fun r => negb (link_of id r)) rows)
  end.

End ReplayVocabulary.

Section TextVocabulary.

(** A string that does not start with white space. *)
Definition tight (s : string) : bool :=
  match s with
  | EmptyString => true
  | String c _ => negb (Text.is_space c)
  end.

End TextVocabulary.

Section FrontierVocabulary.
Import Scraper.

(** [new] is what a listing added to the set of known product URLs:
    distinct, non-empty product URLs that were not known before. *)
Definition frontier (is_product_url : string -> bool) (s s' : t)
    (new : list string) : Prop :=
  NoDup new /\
  (forall u, u ∈ new ->
             u <> "" /\ (u ∉ product_urls s) /\ is_product_url u = true) /\
  s' = with_product_urls (fun known => list_to_set new ∪ known) s.

End FrontierVocabulary.

Section ListingVocabulary.
Import Scraper.
Context {World Html : Type}.

(** Whether the fetch of a listing page gave a document or an empty
    page (and not a failure). *)
Definition fetched (fetch : World -> string -> World * crawl_result Html)
    (w : World) (url : string) : bool :=
  validate_url url &&
  match (fetch w url).2 with
  | CrawlFailed => false
  | CrawlOk _ => true
  end.

End ListingVocabulary.

(** ** The orchestrator ([lambda_orchestrator.py]) *)

Module Orchestrator.
Import Scraper.

(** One entry of [send_message_batch]: the ['Id'] and the three fields of
    the JSON body. *)
Record entry := Entry {
  e_id : string;
  e_url : string;
  e_brand : string;
  e_timestamp : Z
}.

(** [range(start, stop, step)] for a positive [step]; [fuel] bounds its
    length. *)
Fixpoint range_from (fuel start stop step : nat) : list nat :=
  match fuel with
  | O => []
  | S fuel =>
      if (start <? stop)%nat
      then start :: range_from fuel (start + step) stop step
      else []
  end.

Definition range (start stop step : nat) : list nat :=
  range_from stop start stop step.

Section Orchestrator.
Context {World Html : Type}.
Variable fetch : World -> string -> World * crawl_result Html.
Variable parse_listing : Html -> string -> listing_page.
Variable is_product_url : string -> bool.
(** [asyncio.get_event_loop().time()] when the message at a position is
    built. *)
Variable time : nat -> Z.

Local Abbreviation parse_subcategory_page :=
  (parse_subcategory_page fetch parse_listing is_product_url).

(** [while next_page and page_count < 3: ...]; [None] when [fuel] body
    executions were not enough to leave the loop. *)
Fixpoint following_pages (fuel : nat) (s : t) (w : World)
    (next_page : option string) (page_count : Z)
    (all_product_urls : list string) : option (t * World * list string) :=
  if Text.truthy_opt next_page && (page_count <? 3) then
    match fuel with
    | O => None
    | S fuel =>
        let page_count := page_count + 1 in
        let '(s, w, next_data) :=
          parse_subcategory_page s w (default "" next_page) "WOMAN" in
        let all_product_urls := (all_product_urls ++ pd_products next_data)%list in
        let next_page := pd_next_page next_data in
        if negb (Text.truthy_opt next_page) then Some (s, w, all_product_urls)
        else following_pages fuel s w next_page page_count all_product_urls
    end
  else Some (s, w, all_product_urls).

(** [for category_url in category_urls: ...] *)
Fixpoint discover (fuel : nat) (s : t) (w : World) (category_urls : list string)
    (all_product_urls : list string) : option (t * World * list string) :=
  match category_urls with
  | [] => Some (s, w, all_product_urls)
  | category_url :: rest =>
      let '(s, w, subcategory_data) :=
        parse_subcategory_page s w category_url "WOMAN" in
      let all_product_urls :=
        (all_product_urls ++ pd_products subcategory_data)%list in
      match following_pages fuel s w (pd_next_page subcategory_data) 1
              all_product_urls with
      | None => None
      | Some (s, w, all_product_urls) => discover fuel s w rest all_product_urls
      end
  end.

(** The [entries] built from the batch that starts at position [i]. *)
Definition entries (i : nat) (batch : list string) : list entry :=
  imap (fun idx url => Entry (pretty (i + idx)%nat) url "Rapsodia" (time (i + idx)%nat))
       batch.

(** The batches handed to [sqs.send_message_batch], in order. *)
Definition batches (all_product_urls : list string) : list (list entry) :=
  let batch_size := 10%nat in
  List.map (fun i => entries i (take batch_size (drop i all_product_urls)))
           (range 0 (length all_product_urls) batch_size).

(** [discover_and_enqueue]: the final scraper state, the batches sent
    and the number returned. *)
Definition discover_and_enqueue (fuel : nat) (s : t) (w : World)
    (category_urls : list string)
  : option (t * World * list (list entry) * Z) :=
  match discover fuel s w category_urls [] with
  | None => None
  | Some (s, w, all_product_urls) =>
      Some (s, w, batches all_product_urls, Z.of_nat (length all_product_urls))
  end.

End Orchestrator.

End Orchestrator.

Section OrchestratorVocabulary.
Import Scraper.

(** Requests for a listing page, counted on the log. *)
Definition is_listing_request (e : event) : bool :=
  match e with
  | EvCrawl _ context => String.eqb context "subcategory_page"
  | EvStored _ => false
  end.

Definition listing_requests (l : list event) : nat :=
  length (List.filter is_listing_request l).

(** The entry built for the URL at position [k] of the whole list. *)
Definition entry_at (time : nat -> Z) (k : nat) (url : string)
  : Orchestrator.entry :=
  Orchestrator.Entry (pretty k) url "Rapsodia" (time k).

End OrchestratorVocabulary.

Section GrowthVocabulary.
Import Scraper.

(** Between [s] and [s'] the set of known product URLs grew by exactly
    the URLs of [new], each of them once. *)
Definition grows (is_product_url : string -> bool) (s s' : t)
    (new : list string) : Prop :=
  NoDup new /\
  (forall u, u ∈ new ->
             u <> "" /\ (u ∉ product_urls s) /\ is_product_url u = true) /\
  product_urls s' = list_to_set new ∪ product_urls s.

End GrowthVocabulary.

(** ** The retry loop of [safe_crawl_page] ([rapsodia_scrapper.py]) *)

Module Retry.
Import Scraper.

(** How one [crawler.arun] under [asyncio.wait_for] ends: a result with
    [success] set (an empty [html] is [None]), a result without it,
    [asyncio.TimeoutError], or another exception. *)
Inductive attempt (Html : Type) :=
  | Succeeded (html : option Html)
  | Unsuccessful
  | TimedOut
  | Crashed.
Arguments Succeeded {Html} html.
Arguments Unsuccessful {Html}.
Arguments TimedOut {Html}.
Arguments Crashed {Html}.

(** The ['error'] of a failed result. *)
Inductive failure :=
  | InvalidURL
  | ErrorMessage
  | Timeout
  | Exception
  | MaxRetriesExceeded.

Inductive result (Html : Type) :=
  | Ok (html : option Html)
  | Failed (error : failure).
Arguments Ok {Html} html.
Arguments Failed {Html} error.

(** The monitoring counters, and the delays passed to [asyncio.sleep]. *)
Record monitor := Monitor {
  successful_requests : Z;
  failed_requests : Z;
  error_counts : gmap string Z;
  timeout_counts : gmap string Z;
  slept : list Z
}.

Definition max_retries : Z := 3.
Definition retry_delay : Z := 2.

Definition succeeded (m : monitor) : monitor :=
  Monitor (successful_requests m + 1) (failed_requests m)
          (error_counts m) (timeout_counts m) (slept m).

Definition errored (context : string) (m : monitor) : monitor :=
  Monitor (successful_requests m) (failed_requests m + 1)
          (dd_update 0 (fun n => n + 1) context (error_counts m))
          (timeout_counts m) (slept m).

Definition timed_out (context : string) (m : monitor) : monitor :=
  Monitor (successful_requests m) (failed_requests m + 1)
          (error_counts m)
          (dd_update 0 (fun n => n + 1) context (timeout_counts m)) (slept m).

Definition sleep (seconds : Z) (m : monitor) : monitor :=
  Monitor (successful_requests m) (failed_requests m)
          (error_counts m) (timeout_counts m) (slept m ++ [seconds])%list.

Section Retry.
Context {World Html : Type}.
Variable arun : World -> string -> World * attempt Html.

(** [for attempt in range(self.max_retries): ...], over the values of
    [attempt] still to come. *)
Fixpoint attempts (remaining : list Z) (m : monitor) (w : World)
    (url context : string) : monitor * World * result Html :=
  match remaining with
  | [] => (m, w, Failed MaxRetriesExceeded)
  | attempt :: rest =>
      let '(w, r) := arun w url in
      let retry (m : monitor) (error : failure) :=
        if attempt <? max_retries - 1
        then attempts rest (sleep (retry_delay * (attempt + 1)) m) w url context
        else (m, w, Failed error) in
      match r with
      | Succeeded html => (succeeded m, w, Ok html)
      | Unsuccessful => retry (errored context m) ErrorMessage
      | TimedOut => retry (timed_out context m) Timeout
      | Crashed => retry (errored context m) Exception
      end
  end.

(** [safe_crawl_page] *)
Definition safe_crawl_page (m : monitor) (w : World) (url context : string)
  : monitor * World * result Html :=
  if negb (validate_url url) then (m, w, Failed InvalidURL)
  else attempts (seqZ 0 max_retries) m w url context.

End Retry.

End Retry.

Section RetryVocabulary.
Import Retry.

(** The failures counted for a context, of either kind. *)
Definition failures_in (context : string) (m : monitor) : Z :=
  Scraper.dd_get 0 (error_counts m) context
  + Scraper.dd_get 0 (timeout_counts m) context.

End RetryVocabulary.

(** ** Category mapping ([scrapers/mappers.py], [lambda_worker.py]) *)

Module Categories.

Record subcategory_info := SubcategoryInfo {
  sub_id : string;
  sub_slug : string
}.

Record category_info := CategoryInfo {
  category_id : string;
  category_slug : string;
  subcategories : list (string * subcategory_info)
}.

(** [RAPSODIA_CATEGORY_MAP] *)
Definition RAPSODIA_CATEGORY_MAP : list (string * category_info) :=
  [("WOMAN",
    CategoryInfo "124af253-3a60-417c-88d9-47bfe3835479" "prendas"
      [("JEANS", SubcategoryInfo "0885711c-7e8c-4bdb-a924-6d3cd48cb269" "jeans");
       ("PANTALONES", SubcategoryInfo "b27e6165-8c44-4f86-b5b0-564f05049f29" "pantalones");
       ("REMERAS", SubcategoryInfo "7095e13c-470f-4352-a8f0-542119a42c09" "tops");
       ("CAMISAS_Y_TOPS", SubcategoryInfo "7095e13c-470f-4352-a8f0-542119a42c09" "tops");
       ("VESTIDOS", SubcategoryInfo "4e2d0317-dbc8-44a8-be44-22111b5c3921" "vestidos");
       ("BUZOS_SWEATERS", SubcategoryInfo "93488394-8772-4ae5-82b4-1dc898118fba" "abrigos");
       ("CAMPERAS_KIMONOS",
        SubcategoryInfo "93488394-8772-4ae5-82b4-1dc898118fba" "abrigos")]);
   ("GIRLS",
    CategoryInfo "124af253-3a60-417c-88d9-47bfe3835479" "prendas"
      [("JEANS", SubcategoryInfo "0885711c-7e8c-4bdb-a924-6d3cd48cb269" "jeans");
       ("PANTALONES", SubcategoryInfo "b27e6165-8c44-4f86-b5b0-564f05049f29" "pantalones");
       ("REMERAS_CAMISAS", SubcategoryInfo "7095e13c-470f-4352-a8f0-542119a42c09" "tops");
       ("BUZOS_SWEATERS", SubcategoryInfo "93488394-8772-4ae5-82b4-1dc898118fba" "abrigos");
       ("CAMPERAS_SACOS",
        SubcategoryInfo "93488394-8772-4ae5-82b4-1dc898118fba" "abrigos")])].

(** [d.get(k)] on a dict written as its list of items. *)
Definition get {V : Type} (d : list (string * V)) (k : string) : option V :=
  snd <$> List.find (fun kv => String.eqb (fst kv) k) d.

(** The dict returned by [get_rapsodia_category_mapping]. *)
Record mapping := Mapping {
  m_category_id : string;
  m_category_slug : string;
  m_subcategory_id : string;
  m_subcategory_slug : string
}.

(** [get_rapsodia_category_mapping]; the dicts of the table are not
    empty, so [not category_info] holds only for a missing key. *)
Definition get_rapsodia_category_mapping (category_name subcategory_name : string)
  : option mapping :=
  match get RAPSODIA_CATEGORY_MAP category_name with
  | None => None
  | Some category_info =>
      match get (subcategories category_info) subcategory_name with
      | None => None
      | Some subcategory_info =>
          Some (Mapping (category_id category_info) (category_slug category_info)
                        (sub_id subcategory_info) (sub_slug subcategory_info))
      end
  end.

(** [infer_category_from_url] of the worker *)
Definition infer_category_from_url (url : string) : string * string :=
  if Text.contains "/woman/" url then
    ("WOMAN",
     if Text.contains "/jean" url then "JEANS"
     else if Text.contains "/camisas-y-tops" url || Text.contains "/remeras" url
     then "CAMISAS_Y_TOPS"
     else if Text.contains "/vestidos" url then "VESTIDOS"
     else if Text.contains "/pantalones" url then "PANTALONES"
     else "GENERAL")
  else if Text.contains "/girls/" url then ("GIRLS", "GENERAL")
  else ("UNKNOWN", "GENERAL").

(** The [category_mapping] of [process_product_url] for a URL. *)
Definition category_mapping_of (url : string) : option mapping :=
  let '(category_name, subcategory_name) := infer_category_from_url url in
  get_rapsodia_category_mapping category_name subcategory_name.

End Categories.

(** ** Pagination links ([rapsodia_scrapper.py]) *)

Module Links.
Import Scraper.

Definition base_url : string := "https://www.rapsodia.com.ar".

(** The patterns of [validate_next_page_url]; each of them matches a
    fixed text. *)
Definition invalid_patterns : list string :=
  ["#"; "javascript:"; "void(0)"; "cat="; "talle_rap="; "color_filtro_cc=";
   "discount_rate="].

Section Links.
(** [urljoin]; [None] when it raises. *)
Variable urljoin : string -> string -> option string.
Variable is_product_url : string -> bool.

(** [normalize_url(href, base_url)]; an omitted [base_url] is [None]. *)
Definition normalize_url (href : string) (base : option string) : string :=
  if negb (Text.truthy href) then ""
  else
    let base := default base_url base in
    if Text.startswith "http" href then href
    else
      match urljoin base href with
      | Some normalized_url =>
          if negb (Text.startswith "http" normalized_url) then ""
          else normalized_url
      | None => ""
      end.

(** [validate_next_page_url] *)
Definition validate_next_page_url (url current_url : string) : bool :=
  if negb (Text.truthy url) then false
  else if String.eqb url current_url then false
  else if negb (Text.contains "rapsodia.com.ar" url) then false
  else if is_product_url url then false
  else if existsb (fun pattern => Text.contains pattern url) invalid_patterns
  then false
  else true.

(** The body shared by the two loops over links: [href] is the value of
    [link.get('href')]. *)
Definition add_link (current_url : string) (pagination_links : list string)
    (href : string) : list string :=
  let full_url := normalize_url href (Some base_url) in
  if Text.truthy full_url && validate_next_page_url full_url current_url
  then (pagination_links ++ [full_url])%list
  else pagination_links.

(** The last loop: duplicates are dropped, the order is kept. *)
Definition unique (pagination_links : list string) : list string :=
  fold_left
    (fun unique_links link =>
       if bool_decide (link ∈ unique_links) then unique_links
       else (unique_links ++ [link])%list)
    pagination_links [].

(** [extract_pagination_links], over what the selectors read off the
    page: for every selector the [href] of each element it selects
    ([None] when the element has none), and the [href] of every anchor
    that has one. *)
Definition extract_pagination_links (selected : list (list (option string)))
    (all_links : list string) (current_url : string) : list string :=
  let pagination_links :=
    fold_left
      (fun acc links =>
         fold_left
           (fun acc href =>
              match href with
              | Some href =>
                  if Text.truthy href then add_link current_url acc href else acc
              | None => acc
              end)
           links acc)
      selected [] in
  let pagination_links :=
    fold_left
      (fun acc href =>
         if Text.truthy href && bool_decide (is_Some (Text.re_search_page href))
         then add_link current_url acc href
         else acc)
      all_links pagination_links in
  unique pagination_links.

End Links.

End Links.

Section LinksVocabulary.

(** The references the two loops of [extract_pagination_links] look at,
    in order. *)
Definition candidates (selected : list (list (option string)))
    (all_links : list string) : list string :=
  (omap id (concat selected)
   ++ List.filter (fun href => bool_decide (is_Some (Text.re_search_page href)))
        all_links)%list.

End LinksVocabulary.

Section AcceptVocabulary.
Variable urljoin : string -> string -> option string.
Variable is_product_url : string -> bool.

(** The link a reference contributes to the pagination links, if any. *)
Definition accepted (current_url href : string) : option string :=
  let full_url := Links.normalize_url urljoin href (Some Links.base_url) in
  if Text.truthy href && Text.truthy full_url
     && Links.validate_next_page_url is_product_url full_url current_url
  then Some full_url else None.

End AcceptVocabulary.

Section DigitsVocabulary.

(** The characters of a string. *)
Fixpoint chars (s : string) : list ascii :=
  match s with
  | EmptyString => []
  | String c rest => c :: chars rest
  end.

End DigitsVocabulary.

(** ** The worker ([lambda_worker.py]) with the brand table *)

Module WorkerLambda.
Import SupabaseClient.

Record brand := Brand {
  brand_row_id : Z;
  brand_name : string
}.

(** The database of the worker: the [brands] table and its sequence, the
    brands logged as created, and the tables of the item layer. *)
Record store := Store {
  brands : list brand;
  next_brand_id : Z;
  brands_created : list (string * Z);
  base : db
}.

(** [get_brand_id] *)
Definition get_brand_id (st : store) (name : string) : store * Z :=
  match List.find (fun b => String.eqb (brand_name b) name) (brands st) with
  | Some b => (st, brand_row_id b)
  | None =>
      let id := next_brand_id st in
      (Store (brands st ++ [Brand id name])%list (id + 1)
             (brands_created st ++ [(name, id)])%list (base st),
       id)
  end.

(** The ['error'] of an unsuccessful result. *)
Inductive error :=
  | UnknownBrand          (* the [ValueError], caught by the handler *)
  | FailedToExtract       (* ['Failed to extract product data'] *)
  | FailedToUpsert        (* ['Failed to upsert item'] *)
  | ExceptionRaised.      (* [str(e)] of an exception of the extraction *)

(** The dict returned by [process_product_url]. *)
Inductive result :=
  | Success (item_id : Z) (url : string)
  | Failure (e : error) (url : string).

Definition success (r : result) : bool :=
  match r with Success _ _ => true | Failure _ _ => false end.

Section WorkerLambda.
Context {World Html : Type}.
Variable fetch : World -> string -> World * Scraper.crawl_result Html.
Variable parse_product : Html -> option Scraper.product_page.
Variable normalize_price : string -> Z.
(** The identifier type of the tables, as read from a UUID text. *)
Variable uuid : string -> Z.

(** [get_rapsodia_category_mapping], with the two ids the worker reads. *)
Definition category_ids (category_name subcategory_name : string) : option (Z * Z) :=
  (fun m => (uuid (Categories.m_category_id m), uuid (Categories.m_subcategory_id m)))
  <$> Categories.get_rapsodia_category_mapping category_name subcategory_name.

(** [process_product_url]; the scraper is created by the call. *)
Definition process_product_url (now : Z) (st : store) (w : World)
    (url brand : string) : store * World * result :=
  if negb (String.eqb (Text.lower brand) "rapsodia")
  then (st, w, Failure UnknownBrand url)
  else
    let '(category_name, subcategory_name) := Categories.infer_category_from_url url in
    let '(_, w, product_data) :=
      Scraper.extract_product_details fetch parse_product Scraper.init w url
        category_name subcategory_name in
    match product_data with
    | Scraper.Raised => (st, w, Failure ExceptionRaised url)
    | Scraper.Returned None => (st, w, Failure FailedToExtract url)
    | Scraper.Returned (Some product_data) =>
        let '(st, brand_id) := get_brand_id st brand in
        let '(d, item_id) :=
          Worker.sync_record normalize_price category_ids now (base st) brand_id
            category_name subcategory_name product_data in
        let st := Store (brands st) (next_brand_id st) (brands_created st) d in
        match item_id with
        | None => (st, w, Failure FailedToUpsert url)
        | Some item_id => (st, w, Success item_id url)
        end
    end.

(** One SQS record: a body that does not parse, or the ['url'] and
    ['brand'] entries of the parsed body. *)
Inductive sqs_record :=
  | Unparsable
  | Message (url : option string) (brand : option string).

(** One entry of [results]: a result of [process_product_url], or the
    failure recorded for a record that raised. *)
Inductive entry :=
  | Processed (r : result)
  | RecordError.

Definition entry_success (e : entry) : bool :=
  match e with Processed r => success r | RecordError => false end.

(** The loop over [event['Records']]. *)
Fixpoint process_records (now : Z) (st : store) (w : World)
    (records : list sqs_record) (results : list entry)
  : store * World * list entry :=
  match records with
  | [] => (st, w, results)
  | Unparsable :: rest =>
      process_records now st w rest (results ++ [RecordError])%list
  | Message url brand :: rest =>
      let brand := default "Rapsodia" brand in
      if negb (Text.truthy_opt url) then process_records now st w rest results
      else
        let '(st, w, result) := process_product_url now st w (default "" url) brand in
        process_records now st w rest (results ++ [Processed result])%list
  end.

(** The body of the response of [lambda_handler]. *)
Record response := Response {
  status_code : Z;
  processed : Z;
  successful : Z;
  failed : Z;
  results : list entry
}.

(** [lambda_handler], after the connection was opened. *)
Definition lambda_handler (now : Z) (st : store) (w : World)
    (records : list sqs_record) : store * World * response :=
  let '(st, w, results) := process_records now st w records [] in
  let successful := Z.of_nat (length (List.filter entry_success results)) in
  let failed := Z.of_nat (length results) - successful in
  (st, w, Response 200 (Z.of_nat (length results)) successful failed results).

End WorkerLambda.

End WorkerLambda.

Section WorkerVocabulary.
Import WorkerLambda.

(** A record that yields an entry of [results]: one that does not parse
    or one that carries a URL. *)
Definition counted (r : sqs_record) : bool :=
  match r with
  | Unparsable => true
  | Message url _ => Text.truthy_opt url
  end.

End WorkerVocabulary.
(** * Properties *)

Example re_search_page_ex1 :
  Text.re_search_page "https://www.rapsodia.com.ar/woman/jean.html?p=12&x=1" = Some 12.
Proof. reflexivity. Qed.

Example re_search_page_ex2 :
  Text.re_search_page "https://www.rapsodia.com.ar/shop=a/p=/p=7" = Some 7.
Proof. reflexivity. Qed.

(** ** Completion detector *)

Section Detector.
Import Scraper.

Ltac split_tests :=
    repeat match goal with
      | |- context [?a <=? ?b] => destruct (Z.leb_spec a b)
      | |- context [?a <? ?b] => destruct (Z.ltb_spec a b)
      | |- context [?a =? ?b] => destruct (Z.eqb_spec a b)
      end; simpl.

Ltac settle := repeat split; intros; try discriminate; try lia; try tauto.

Lemma is_category_complete_rule_cases (s : t) (c : string) :
    let e := empty_streak s c in
    let n := new_products s c in
    let k := products_recorded s c in
    let p := pages_visited s c in
    (is_category_complete_rule s c = Some EmptyStreak <-> 3 <= e) /\
    (is_category_complete_rule s c = Some Stalled <->
       e < 3 /\ n = 0 /\ 10 < p) /\
    (is_category_complete_rule s c = Some ProductCap <->
       e < 3 /\ ~ (n = 0 /\ 10 < p) /\ 200 < k) /\
    (is_category_complete_rule s c = Some PageCap <->
       e < 3 /\ ~ (n = 0 /\ 10 < p) /\ k <= 200 /\ 20 < p) /\
    (is_category_complete_rule s c = None <->
       e < 3 /\ ~ (n = 0 /\ 10 < p) /\ k <= 200 /\ p <= 20).
Proof.
    intros e n k p. unfold is_category_complete_rule.
    fold e n k p. split_tests; settle.
Qed.

Lemma should_stop_pagination_rule_cases (s : t) (c : string) (pf ce tp : Z) :
    let k := products_recorded s c in
    (should_stop_pagination_rule s c pf ce tp = Some EmptyStreak <-> 3 <= ce) /\
    (should_stop_pagination_rule s c pf ce tp = Some Stalled <->
       ce < 3 /\ pf = 0 /\ 15 < tp) /\
    (should_stop_pagination_rule s c pf ce tp = Some ProductCap <->
       ce < 3 /\ ~ (pf = 0 /\ 15 < tp) /\ 300 < k) /\
    (should_stop_pagination_rule s c pf ce tp = Some PageCap <->
       ce < 3 /\ ~ (pf = 0 /\ 15 < tp) /\ k <= 300 /\ 25 < tp) /\
    (should_stop_pagination_rule s c pf ce tp = None <->
       ce < 3 /\ ~ (pf = 0 /\ 15 < tp) /\ k <= 300 /\ tp <= 25).
Proof.
    intros k. unfold should_stop_pagination_rule.
    fold k. split_tests; settle.
Qed.

Lemma is_category_complete_true (s : t) (c : string) :
    is_category_complete s c = true <->
    3 <= empty_streak s c \/
    (new_products s c = 0 /\ 10 < pages_visited s c) \/
    200 < products_recorded s c \/
    20 < pages_visited s c.
Proof.
    unfold is_category_complete, is_category_complete_rule.
    split_tests; settle.
Qed.

Lemma should_stop_pagination_true (s : t) (c : string) (pf ce tp : Z) :
    should_stop_pagination s c pf ce tp = true <->
    3 <= ce \/ (pf = 0 /\ 15 < tp) \/ 300 < products_recorded s c \/ 25 < tp.
Proof.
    unfold should_stop_pagination, should_stop_pagination_rule.
    split_tests; settle.
Qed.

End Detector.

(** C1. [is_category_complete] returns true exactly when one of its four
    rules holds, and the rule it reports is the first one, in the order
    empty streak (>= 3), stalled (no new product and more than 10 pages),
    product cap (more than 200), page cap (more than 20); otherwise it
    returns false.  [should_stop_pagination] is the same chain over its
    arguments with the thresholds 3 / 15 / 300 / 25. *)
Theorem C1_completion_detector_rules
    (s : Scraper.t) (c : string) (pf ce tp : Z) :
  let e := Scraper.empty_streak s c in
  let n := Scraper.new_products s c in
  let k := Scraper.products_recorded s c in
  let p := Scraper.pages_visited s c in
  (* is_category_complete *)
  (Scraper.is_category_complete s c = true <->
     3 <= e \/ (n = 0 /\ 10 < p) \/ 200 < k \/ 20 < p) /\
  (Scraper.is_category_complete s c = false <->
     Scraper.is_category_complete_rule s c = None) /\
  (Scraper.is_category_complete_rule s c = Some Scraper.EmptyStreak <->
     3 <= e) /\
  (Scraper.is_category_complete_rule s c = Some Scraper.Stalled <->
     e < 3 /\ n = 0 /\ 10 < p) /\
  (Scraper.is_category_complete_rule s c = Some Scraper.ProductCap <->
     e < 3 /\ ~ (n = 0 /\ 10 < p) /\ 200 < k) /\
  (Scraper.is_category_complete_rule s c = Some Scraper.PageCap <->
     e < 3 /\ ~ (n = 0 /\ 10 < p) /\ k <= 200 /\ 20 < p) /\
  (* should_stop_pagination *)
  (Scraper.should_stop_pagination s c pf ce tp = true <->
     3 <= ce \/ (pf = 0 /\ 15 < tp) \/ 300 < k \/ 25 < tp) /\
  (Scraper.should_stop_pagination s c pf ce tp = false <->
     Scraper.should_stop_pagination_rule s c pf ce tp = None) /\
  (Scraper.should_stop_pagination_rule s c pf ce tp = Some Scraper.EmptyStreak <->
     3 <= ce) /\
  (Scraper.should_stop_pagination_rule s c pf ce tp = Some Scraper.Stalled <->
     ce < 3 /\ pf = 0 /\ 15 < tp) /\
  (Scraper.should_stop_pagination_rule s c pf ce tp = Some Scraper.ProductCap <->
     ce < 3 /\ ~ (pf = 0 /\ 15 < tp) /\ 300 < k) /\
  (Scraper.should_stop_pagination_rule s c pf ce tp = Some Scraper.PageCap <->
     ce < 3 /\ ~ (pf = 0 /\ 15 < tp) /\ k <= 300 /\ 25 < tp).
Proof.
  intros e n k p.
  pose proof (is_category_complete_rule_cases s c) as (A1 & A2 & A3 & A4 & _).
  pose proof (should_stop_pagination_rule_cases s c pf ce tp) as (B1 & B2 & B3 & B4 & _).
  pose proof (is_category_complete_true s c) as A0.
  pose proof (should_stop_pagination_true s c pf ce tp) as B0.
  repeat split; try tauto;
    try (unfold Scraper.is_category_complete;
         destruct (Scraper.is_category_complete_rule s c); congruence);
    try (unfold Scraper.should_stop_pagination;
         destruct (Scraper.should_stop_pagination_rule s c pf ce tp); congruence).
Qed.

(** C6. Both detectors are monotone: if a detector answers true on a
    snapshot, it answers true on every snapshot whose empty-page streak,
    recorded products and visited pages are at least as large and whose
    new-product count (a count, hence not negative) is at most as
    large. *)
Theorem C6_completion_monotone
    (s s' : Scraper.t) (c : string) (pf ce tp pf' ce' tp' : Z) :
  0 <= Scraper.new_products s' c ->
  0 <= pf' ->
  Scraper.empty_streak s c <= Scraper.empty_streak s' c ->
  Scraper.new_products s' c <= Scraper.new_products s c ->
  Scraper.products_recorded s c <= Scraper.products_recorded s' c ->
  Scraper.pages_visited s c <= Scraper.pages_visited s' c ->
  ce <= ce' -> pf' <= pf -> tp <= tp' ->
  (Scraper.is_category_complete s c = true ->
   Scraper.is_category_complete s' c = true) /\
  (Scraper.should_stop_pagination s c pf ce tp = true ->
   Scraper.should_stop_pagination s' c pf' ce' tp' = true).
Proof.
  intros Hn Hpf He Hn' Hk Hp Hce Hpf' Htp.
  rewrite !is_category_complete_true, !should_stop_pagination_true. lia.
Qed.

Lemma C6_completion_monotone_witness :
  Scraper.is_category_complete Samples.three_empty "WOMAN" = true /\
  Scraper.should_stop_pagination Samples.three_empty "WOMAN" 0 0 16 = true /\
  Scraper.is_category_complete Samples.four_empty "WOMAN" = true /\
  Scraper.should_stop_pagination Samples.four_empty "WOMAN" 0 1 17 = true.
Proof.
  assert (H1 : Scraper.is_category_complete Samples.three_empty "WOMAN" = true)
    by (vm_compute; reflexivity).
  assert (H2 : Scraper.should_stop_pagination Samples.three_empty "WOMAN" 0 0 16 = true)
    by (vm_compute; reflexivity).
  split; [exact H1|]. split; [exact H2|].
  destruct (C6_completion_monotone Samples.three_empty Samples.four_empty "WOMAN"
              0 0 16 0 1 17) as [M1 M2];
    try (vm_compute; discriminate).
  split; [exact (M1 H1) | exact (M2 H2)].
Defined.

(** *** The counters are counts *)

Section Counters.
Import Scraper.
Context {World Html : Type}.
Variable fetch : World -> string -> World * crawl_result Html.
Variable parse_listing : Html -> string -> listing_page.
Variable is_product_url : string -> bool.

Lemma counters_ok_init : counters_ok init.
Proof. intros c. split; reflexivity. Qed.

Lemma collect_products_counters (links : list string) :
  forall (s : t) (products : list string) (n : Z),
    let r := collect_products is_product_url links s products n in
    n <= r.2 /\
    new_products_found r.1.1 = new_products_found s /\
    consecutive_empty_pages r.1.1 = consecutive_empty_pages s.
Proof.
  induction links as [|u links IH]; intros s products n; simpl.
  - split; [lia|]. split; reflexivity.
  - destruct (_ && _).
    + destruct (IH (with_product_urls (fun x => {[u]} ∪ x) s)
                  (products ++ [u])%list (n + 1)) as (H1 & H2 & H3).
      split; [lia|]. split; assumption.
    + apply IH.
Qed.

Lemma read_listing_counters (page : listing_page) (url : string) (s : t) :
  let r := read_listing is_product_url page url s in
  0 <= r.1.2 /\
  new_products_found r.1.1.1 = new_products_found s /\
  consecutive_empty_pages r.1.1.1 = consecutive_empty_pages s.
Proof.
  unfold read_listing.
  pose proof (collect_products_counters (lp_grid_links page) s [] 0) as H1.
  destruct (collect_products is_product_url (lp_grid_links page) s [] 0)
    as [[s1 products] n]. simpl in H1. destruct H1 as (Hn & Hf & He).
  destruct products as [|p products]; simpl.
  - pose proof (collect_products_counters (lp_generic_links page) s1 [] n) as H2.
    destruct (collect_products is_product_url (lp_generic_links page) s1 [] n)
      as [[s2 products2] n2]. simpl in *. destruct H2 as (Hn2 & Hf2 & He2).
    split; [lia|]. split; congruence.
  - split; [exact Hn|]. split; assumption.
Qed.

Lemma dd_get_update (f : Z -> Z) (k c : string) (m : gmap string Z) :
  dd_get 0 (dd_update 0 f k m) c = if decide (k = c) then f (dd_get 0 m k) else dd_get 0 m c.
Proof.
  unfold dd_update, dd_get. rewrite lookup_insert. destruct (decide (k = c)); reflexivity.
Qed.

(** [parse_subcategory_page] only ever adds a count of new products and
    either resets the streak or adds one to it. *)
Lemma parse_subcategory_page_counters (s : t) (w : World) (url category : string) :
  counters_ok s ->
  counters_ok (parse_subcategory_page fetch parse_listing is_product_url
                 s w url category).1.1.
Proof.
  intros Hok. unfold parse_subcategory_page, safe_crawl_page.
  set (s0 := with_log _ (with_visited _ s)).
  assert (H0 : new_products_found s0 = new_products_found s /\
               consecutive_empty_pages s0 = consecutive_empty_pages s)
    by (split; reflexivity).
  clearbody s0. destruct H0 as [Hf0 He0].
  assert (Hok0 : counters_ok s0).
  { intros c. unfold new_products, empty_streak. rewrite Hf0, He0. apply Hok. }
  clear Hok Hf0 He0.
  destruct (negb (validate_url url)); [exact Hok0|].
  destruct (fetch w url) as [w1 [|html]]; [exact Hok0|].
  assert (Hread : exists (s1 : t) (products : list string) (n : Z) (next : option string),
            match html with
            | Some html => read_listing is_product_url (parse_listing html url) url s0
            | None => (s0, [], 0, None)
            end = (s1, products, n, next) /\ 0 <= n /\
            new_products_found s1 = new_products_found s0 /\
            consecutive_empty_pages s1 = consecutive_empty_pages s0).
  { destruct html as [html|].
    - pose proof (read_listing_counters (parse_listing html url) url s0) as H.
      destruct (read_listing is_product_url (parse_listing html url) url s0)
        as [[[s1 products] n] next]. simpl in H.
      exists s1, products, n, next. split; [reflexivity | exact H].
    - exists s0, [], 0, None. split; [reflexivity|]. split; [lia|]. split; reflexivity. }
  destruct Hread as (s1 & products & n & next & -> & Hn & Hf & He).
  intros c. specialize (Hok0 c). unfold new_products, empty_streak in *.
  destruct Hok0 as [H1 H2].
  destruct (Z.eqb_spec n 0) as [->|Hne]; simpl.
  - rewrite Hf, He, dd_get_update.
    destruct (decide (category = c)) as [->|]; (split; [exact H1|]);
      clear -H2; lia.
  - rewrite Hf, He, dd_get_update.
    unfold dd_get at 3. rewrite lookup_insert.
    destruct (decide (category = c)) as [->|]; simpl; split;
      first [exact H1 | exact H2 | clear -H1 H2 Hn; lia].
Qed.

End Counters.

(** ** Pagination resolver *)

Section Resolver.
Import Scraper.

Lemma page_is_true (n : Z) (link : string) :
    page_is n link = true <-> Text.re_search_page link = Some n.
Proof.
    unfold page_is. destruct (Text.re_search_page link) as [m|].
    - rewrite Z.eqb_eq. split; congruence.
    - split; discriminate.
Qed.

Lemma find_head_filter {A} (f : A -> bool) (l : list A) :
    List.find f l = head (List.filter f l).
Proof.
    induction l as [|a l IH]; simpl; [reflexivity|].
    destruct (f a); simpl; [reflexivity | exact IH].
Qed.

Lemma find_next_page_url_unfold (links : list string) (cur : string) :
    find_next_page_url links cur =
    match List.find (page_is (page_index cur + 1)) links with
    | Some link => Some link
    | None => List.find (fun link => negb (String.eqb link cur)) links
    end.
Proof. destruct links; reflexivity. Qed.

Lemma next_index_not_current (cur : string) :
    Text.re_search_page cur <> Some (page_index cur + 1).
Proof.
    unfold page_index. destruct (Text.re_search_page cur); [|discriminate].
    intros [= E]. lia.
Qed.

End Resolver.

(** C5. [find_next_page_url] reads the page index [p] of the current URL
    (1 when absent); when some candidate has index [p+1] it returns the
    first such candidate; otherwise it returns the first candidate that
    differs from the current URL, and none when there is no such
    candidate.  The result is always one of the candidates and is never
    the current URL.  Scenario A is the last conjunct. *)
Theorem C5_find_next_page_url (links : list string) (cur : string) :
  let p := page_index cur in
  let exact l := bool_decide (Text.re_search_page l = Some (p + 1)) in
  let other l := bool_decide (l <> cur) in
  (forall l, Scraper.find_next_page_url links cur = Some l ->
             In l links /\ l <> cur) /\
  ((exists l, In l links /\ Text.re_search_page l = Some (p + 1)) ->
   exists l, Scraper.find_next_page_url links cur = Some l /\
             Text.re_search_page l = Some (p + 1) /\
             head (List.filter exact links) = Some l) /\
  ((forall l, In l links -> Text.re_search_page l <> Some (p + 1)) ->
   Scraper.find_next_page_url links cur = head (List.filter other links)) /\
  (Scraper.find_next_page_url [] cur = None) /\
  Scraper.find_next_page_url
    ["https://www.rapsodia.com.ar/cat?p=1"; "https://www.rapsodia.com.ar/cat?p=3"]
    "https://www.rapsodia.com.ar/cat?p=2"
  = Some "https://www.rapsodia.com.ar/cat?p=3".
Proof.
  intros p exact other.
  assert (Hexact : forall l, Scraper.page_is (p + 1) l = exact l).
  { intros l. unfold exact. apply eq_true_iff_eq.
    rewrite page_is_true, bool_decide_eq_true. reflexivity. }
  assert (Hother : forall l, negb (String.eqb l cur) = other l).
  { intros l. unfold other. apply eq_true_iff_eq.
    rewrite negb_true_iff, bool_decide_eq_true.
    destruct (String.eqb_spec l cur); split; congruence. }
  rewrite find_next_page_url_unfold. fold p.
  split; [|split; [|split; [|split; reflexivity]]].
  - intros l H.
    destruct (List.find (Scraper.page_is (p + 1)) links) as [l'|] eqn:E.
    + injection H as <-. apply List.find_some in E as [Hin Hp].
      split; [exact Hin|].
      apply page_is_true in Hp. intros ->.
      exact (next_index_not_current cur Hp).
    + apply List.find_some in H as [Hin Hne].
      split; [exact Hin|].
      rewrite Hother in Hne. unfold other in Hne.
      apply bool_decide_eq_true in Hne. exact Hne.
  - intros (l & Hin & Hl).
    destruct (List.find (Scraper.page_is (p + 1)) links) as [l'|] eqn:E.
    + exists l'. split; [reflexivity|]. split.
      * apply List.find_some in E as [_ Hp]. apply page_is_true in Hp. exact Hp.
      * rewrite <- E, find_head_filter.
        f_equal. apply List.filter_ext. intros a. symmetry. apply Hexact.
    + exfalso. eapply List.find_none in E; [|exact Hin].
      apply page_is_true in Hl. congruence.
  - intros Hnone.
    destruct (List.find (Scraper.page_is (p + 1)) links) as [l'|] eqn:E.
    + apply List.find_some in E as [Hin Hp]. apply page_is_true in Hp.
      exfalso. exact (Hnone _ Hin Hp).
    + rewrite find_head_filter. f_equal.
      apply List.filter_ext. intros a. apply Hother.
Qed.

(** ** Reconciliation by SKU *)

Lemma missing_items_fold (all_items : list (Z * string * option (list string)))
    (acc : list Z) :
  fold_left
    (fun (items_to_mark_unavailable : list Z)
         (row : Z * string * option (list string)) =>
       let '(item_id, name, sizes_available) := row in
       items_to_mark_unavailable)
    all_items acc = acc.
Proof.
  revert acc. induction all_items as [|[[i n] sz] rows IH]; intros acc.
  - reflexivity.
  - simpl. apply IH.
Qed.

Lemma missing_items_loop_nil (found_skus : gset string)
    (all_items : list (Z * string * option (list string))) :
  SupabaseClient.missing_items_loop found_skus all_items = [].
Proof. apply missing_items_fold. Qed.

(** C10. [mark_missing_items_unavailable] never changes the database:
    the list of items to mark stays empty whatever the rows, the found
    SKUs and the run date are, so the [UPDATE] is never issued. *)
Theorem C10_mark_missing_items_unavailable_noop
    (now : Z) (d : SupabaseClient.db) (brand : Z) (found_skus : gset string)
    (run_date : Z) :
  (forall all_items, SupabaseClient.missing_items_loop found_skus all_items = []) /\
  SupabaseClient.mark_missing_items_unavailable now d brand found_skus run_date = d.
Proof.
  split.
  - intros all_items. apply missing_items_loop_nil.
  - unfold SupabaseClient.mark_missing_items_unavailable.
    rewrite missing_items_loop_nil. reflexivity.
Qed.

(** ** Sizes *)

Section Sizes.
Import Scraper.

Lemma extract_sizes_subset (talles_raw : list size_element) :
  forall talles_todos talles_disponibles,
    (forall x, x ∈ talles_disponibles -> x ∈ talles_todos) ->
    forall x, x ∈ (extract_sizes talles_raw talles_todos talles_disponibles).2 ->
              x ∈ (extract_sizes talles_raw talles_todos talles_disponibles).1.
Proof.
  induction talles_raw as [|e rest IH]; intros todos disp Hsub; simpl.
  - exact Hsub.
  - destruct (Text.truthy (se_label e)); [|apply IH; exact Hsub].
    destruct (Text.truthy (clean_size_text (se_label e))); [|apply IH; exact Hsub].
    apply IH. intros x Hx.
    assert (Hx' : x ∈ disp \/ x = clean_size_text (se_label e)).
    { destruct (negb (se_disabled e)); [|left; exact Hx].
      apply elem_of_app in Hx as [Hx|Hx]; [left; exact Hx|].
      right. apply list_elem_of_singleton in Hx. exact Hx. }
    case_bool_decide as Hin.
    + destruct Hx' as [Hx'| ->]; [apply Hsub; exact Hx' | exact Hin].
    + apply elem_of_app. destruct Hx' as [Hx'| ->].
      * left. apply Hsub. exact Hx'.
      * right. apply list_elem_of_singleton. reflexivity.
Qed.

Lemma build_product_info_sizes (url c sc : string) (page : product_page) :
  forall x, x ∈ pi_talles_disponibles (build_product_info url c sc page) ->
            x ∈ pi_talles_todos (build_product_info url c sc page).
Proof.
  unfold build_product_info.
  pose proof (extract_sizes_subset (pp_sizes page) [] []) as H.
  destruct (extract_sizes (pp_sizes page) [] []) as [todos disp]. simpl in *.
  apply H. intros x Hx. exact Hx.
Qed.

(** Membership in the result of the normalisation loop. *)
Lemma normalize_loop_elem (sizes : list string) :
  forall normalized x,
    x ∈ Mappers.normalize_loop sizes normalized <->
    x ∈ normalized \/
    exists size, size ∈ sizes /\ Text.truthy size = true /\
                 x = Text.upper (Text.strip size) /\ Text.truthy x = true.
Proof.
  induction sizes as [|size rest IH]; intros normalized x; simpl.
  - split; [intros H; left; exact H|].
    intros [H|(size & Hin & _)]; [exact H|]. apply elem_of_nil in Hin. destruct Hin.
  - assert (Hskip :
      Text.truthy size = false \/
      Text.truthy (Text.upper (Text.strip size)) = false \/
      Text.upper (Text.strip size) ∈ normalized ->
      (x ∈ normalized \/
       (exists s, s ∈ rest /\ Text.truthy s = true /\
                  x = Text.upper (Text.strip s) /\ Text.truthy x = true)) <->
      (x ∈ normalized \/
       (exists s, s ∈ size :: rest /\ Text.truthy s = true /\
                  x = Text.upper (Text.strip s) /\ Text.truthy x = true))).
    { intros Hcase. split.
      - intros [H|(s & Hin & Hs)]; [left; exact H|].
        right. exists s. split; [apply elem_of_cons; right; exact Hin | exact Hs].
      - intros [H|(s & Hin & Ht & Hx & Htx)]; [left; exact H|].
        apply elem_of_cons in Hin as [->|Hin].
        + destruct Hcase as [Hc|[Hc|Hc]].
          * congruence.
          * subst x. congruence.
          * left. subst x. exact Hc.
        + right. exists s. tauto. }
    destruct (Text.truthy size) eqn:Et; [|rewrite IH; apply Hskip; left; reflexivity].
    destruct (Text.truthy (Text.upper (Text.strip size))) eqn:Eu; simpl;
      [|rewrite IH; apply Hskip; right; left; reflexivity].
    case_bool_decide as Hin; simpl;
      [rewrite IH; apply Hskip; right; right; exact Hin|].
    rewrite IH, elem_of_app, list_elem_of_singleton. split.
    + intros [[H| ->]|(s & Hs & Hrest)].
      * left. exact H.
      * right. exists size. split; [apply elem_of_cons; left; reflexivity|].
        split; [exact Et|]. split; [reflexivity | exact Eu].
      * right. exists s. split; [apply elem_of_cons; right; exact Hs | exact Hrest].
    + intros [H|(s & Hs & Ht & Hx & Htx)]; [left; left; exact H|].
      apply elem_of_cons in Hs as [->|Hs].
      * left. right. exact Hx.
      * right. exists s. tauto.
Qed.

Lemma normalize_sizes_elem (sizes : list string) (x : string) :
  x ∈ Mappers.normalize_sizes sizes <->
  exists size, size ∈ sizes /\ Text.truthy size = true /\
               x = Text.upper (Text.strip size) /\ Text.truthy x = true.
Proof.
  unfold Mappers.normalize_sizes. destruct sizes as [|s0 rest].
  - split; [intros H; apply elem_of_nil in H; destruct H|].
    intros (s & Hin & _). apply elem_of_nil in Hin. destruct Hin.
  - rewrite normalize_loop_elem. split.
    + intros [H|H]; [apply elem_of_nil in H; destruct H | exact H].
    + intros H. right. exact H.
Qed.

(** Normalisation preserves inclusion. *)
Lemma normalize_sizes_mono (a b : list string) :
  (forall x, x ∈ a -> x ∈ b) ->
  forall x, x ∈ Mappers.normalize_sizes a -> x ∈ Mappers.normalize_sizes b.
Proof.
  intros Hsub x. rewrite !normalize_sizes_elem.
  intros (s & Hin & Hs). exists s. split; [apply Hsub; exact Hin | exact Hs].
Qed.

End Sizes.

(** C9. Every record returned by a successful [extract_product_details]
    has its available sizes among its sizes, and the inclusion still
    holds between the two lists the worker stores after applying
    [normalize_sizes] to each. *)
Theorem C9_sizes_subset
    {World Html : Type}
    (fetch : World -> string -> World * Scraper.crawl_result Html)
    (parse_product : Html -> option Scraper.product_page)
    (normalize_price : string -> Z)
    (get_rapsodia_category_mapping : string -> string -> option (Z * Z))
    (s s' : Scraper.t) (w w' : World) (url category subcategory : string)
    (info : Scraper.product_info) (brand_id : Z) :
  Scraper.extract_product_details fetch parse_product s w url category subcategory
    = (s', w', Scraper.Returned (Some info)) ->
  let item_data :=
    Worker.make_item_data normalize_price get_rapsodia_category_mapping
      brand_id category subcategory (Worker.normalize info) in
  (forall x, x ∈ Scraper.pi_talles_disponibles info ->
             x ∈ Scraper.pi_talles_todos info) /\
  (forall x, x ∈ default [] (SupabaseClient.d_sizes_available item_data) ->
             x ∈ SupabaseClient.d_sizes item_data).
Proof.
  intros Hex item_data.
  assert (Hsub : forall x, x ∈ Scraper.pi_talles_disponibles info ->
                           x ∈ Scraper.pi_talles_todos info).
  { unfold Scraper.extract_product_details in Hex.
    destruct (Scraper.safe_crawl_page fetch s w url "product_page") as [[s1 w1] r].
    destruct r as [|[html|]]; try discriminate.
    destruct (parse_product html) as [page|]; try discriminate.
    destruct (negb _); try discriminate.
    injection Hex as _ _ <-. apply build_product_info_sizes. }
  split; [exact Hsub|].
  unfold item_data, Worker.make_item_data, Worker.normalize. simpl.
  apply normalize_sizes_mono.
  destruct (Scraper.pi_talles_disponibles info) eqn:Ed;
    destruct (Scraper.pi_talles_todos info) eqn:Et; try exact Hsub.
Qed.

(** ** Dependent entities *)

Section Dependents.
Import SupabaseClient.

Lemma filter_negb_filter {A} (f : A -> bool) (l : list A) :
  List.filter f (List.filter (fun r => negb (f r)) l) = [].
Proof.
  induction l as [|a l IH]; simpl; [reflexivity|].
  destruct (f a) eqn:E; simpl; [exact IH|]. rewrite E. exact IH.
Qed.

Lemma filter_idem {A} (f : A -> bool) (l : list A) :
  List.filter f (List.filter f l) = List.filter f l.
Proof.
  induction l as [|a l IH]; simpl; [reflexivity|].
  destruct (f a) eqn:E; simpl; [rewrite E, IH; reflexivity | exact IH].
Qed.

Lemma filter_all {A} (f : A -> bool) (l : list A) :
  (forall a, In a l -> f a = true) -> List.filter f l = l.
Proof.
  induction l as [|a l IH]; intros H; simpl; [reflexivity|].
  rewrite (H a (or_introl eq_refl)). f_equal. apply IH.
  intros b Hb. apply H. right. exact Hb.
Qed.

Lemma filter_none {A} (f : A -> bool) (l : list A) :
  (forall a, In a l -> f a = false) -> List.filter f l = [].
Proof.
  induction l as [|a l IH]; intros H; simpl; [reflexivity|].
  rewrite (H a (or_introl eq_refl)). apply IH.
  intros b Hb. apply H. right. exact Hb.
Qed.

Lemma image_rows_item (now id : Z) (c : option Z) (urls : list string) (idx : nat) :
  forall r, In r (image_rows now id c idx urls) -> image_of id r = true.
Proof.
  revert idx. induction urls as [|u urls IH]; intros idx r; simpl; [tauto|].
  intros [<-|H]; [apply Z.eqb_refl | exact (IH _ _ H)].
Qed.

Lemma image_rows_urls (now id : Z) (c : option Z) (urls : list string) (idx : nat) :
  List.map image_url (image_rows now id c idx urls) = urls.
Proof.
  revert idx. induction urls as [|u urls IH]; intros idx; simpl; [reflexivity|].
  f_equal. apply IH.
Qed.

Lemma upsert_item_images_rows (now : Z) (d : db) (id : Z)
    (urls : list string) (c : option Z) :
  urls <> [] ->
  item_images (upsert_item_images now d id urls c) =
  (List.filter (fun r => negb (image_of id r)) (item_images d)
   ++ image_rows now id c 0 urls)%list.
Proof. destruct urls; [congruence|]. reflexivity. Qed.

Lemma insert_color_links_inv (now id : Z) (others : list item_color)
    (color_ids : list Z) :
  forall seen rows,
    links_inv now id others seen rows ->
    links_inv now id others (seen ++ color_ids)
      (insert_color_links now id color_ids rows).
Proof.
  induction color_ids as [|c ids IH]; intros seen rows Hinv; simpl.
  - rewrite app_nil_r. exact Hinv.
  - replace (seen ++ c :: ids)%list with ((seen ++ [c]) ++ ids)%list
      by (rewrite <- app_assoc; reflexivity).
    destruct Hinv as (Hoth & Hnd & Hrows).
    destruct (existsb _ rows) eqn:Ex.
    + apply IH. split; [exact Hoth|]. split; [exact Hnd|].
      apply existsb_exists in Ex as (r0 & Hr0 & Hc).
      apply andb_true_iff in Hc as [Hi Hc]. apply Z.eqb_eq in Hc.
      assert (Hseen : In c seen).
      { assert (Hf : In r0 (List.filter (link_of id) rows))
          by (apply filter_In; split; [exact Hr0 | exact Hi]).
        apply Hrows in Hf as (c' & Hc' & ->). simpl in Hc. subst c'. exact Hc'. }
      intros r. rewrite Hrows. split.
      * intros (c' & Hc' & ->). exists c'. split; [|reflexivity].
        apply in_or_app. left. exact Hc'.
      * intros (c' & Hc' & ->). exists c'. split; [|reflexivity].
        apply in_app_or in Hc' as [Hc'|[<-|[]]]; [exact Hc' | exact Hseen].
    + apply IH.
      assert (Hnew : ~ In (ItemColor id c now) (List.filter (link_of id) rows)).
      { intros Hin. apply filter_In in Hin as [Hin _].
        assert (Ht : existsb
                  (fun r => (link_item_id r =? id) && (link_color_id r =? c)) rows = true).
        { apply existsb_exists. exists (ItemColor id c now). split; [exact Hin|].
          simpl. rewrite !Z.eqb_refl. reflexivity. }
        congruence. }
      unfold links_inv. rewrite !List.filter_app. simpl.
      unfold link_of at 2 4 6. simpl. rewrite Z.eqb_refl. simpl.
      split; [rewrite app_nil_r; exact Hoth|]. split.
      * apply NoDup_app. split; [exact Hnd|]. split.
        -- intros x Hx Hx'. apply list_elem_of_singleton in Hx'. subst x.
           apply Hnew. apply list_elem_of_In. exact Hx.
        -- apply NoDup_singleton.
      * intros r. rewrite in_app_iff, Hrows. simpl. split.
        -- intros [(c' & Hc' & ->)|[<-|[]]].
           ++ exists c'. split; [apply in_or_app; left; exact Hc' | reflexivity].
           ++ exists c. split; [apply in_or_app; right; left; reflexivity | reflexivity].
        -- intros (c' & Hc' & ->).
           apply in_app_or in Hc' as [Hc'|[<-|[]]].
           ++ left. exists c'. split; [exact Hc' | reflexivity].
           ++ right. left. reflexivity.
Qed.

Lemma link_item_colors_rows (now : Z) (d : db) (id : Z) (color_ids : list Z) :
  color_ids <> [] ->
  links_inv now id
    (List.filter (fun r => negb (link_of id r)) (item_x_item_colors d))
    color_ids
    (item_x_item_colors (link_item_colors now d id color_ids)).
Proof.
  intros Hne.
  assert (E : item_x_item_colors (link_item_colors now d id color_ids) =
              insert_color_links now id color_ids
                (List.filter (fun r => negb (link_of id r)) (item_x_item_colors d)))
    by (destruct color_ids; [congruence | reflexivity]).
  rewrite E. apply (insert_color_links_inv now id _ color_ids []).
  unfold links_inv. rewrite filter_idem, filter_negb_filter.
  split; [reflexivity|]. split; [constructor|].
  intros r. simpl. split; [tauto|]. intros (c & [] & _).
Qed.

End Dependents.

Section DependentsFrame.
Import SupabaseClient.

Lemma upsert_item_frame (now : Z) (d : db) (x : item_data) :
  item_images (upsert_item now d x).1 = item_images d /\
  item_x_item_colors (upsert_item now d x).1 = item_x_item_colors d /\
  item_colors (upsert_item now d x).1 = item_colors d.
Proof.
  unfold upsert_item.
  destruct (List.find _ (items d)) as [r|]; simpl.
  - destruct (available r && _); destruct (negb (bool_decide _)); simpl; auto.
  - auto.
Qed.

Lemma get_color_id_frame (d : db) (color_name : string) :
  item_images (get_color_id d color_name).1 = item_images d /\
  item_x_item_colors (get_color_id d color_name).1 = item_x_item_colors d.
Proof.
  unfold get_color_id. destruct (List.find _ (item_colors d)); simpl; auto.
Qed.

Lemma resolve_colors_frame (colors : list string) :
  forall (d : db) (ids : list Z),
    item_images (Worker.resolve_colors d colors ids).1 = item_images d /\
    item_x_item_colors (Worker.resolve_colors d colors ids).1 = item_x_item_colors d.
Proof.
  induction colors as [|c colors IH]; intros d ids; simpl; [auto|].
  pose proof (get_color_id_frame d c) as [H1 H2].
  destruct (get_color_id d c) as [d' [id|]]; simpl in *.
  - destruct (IH d' (ids ++ [id])%list) as [I1 I2]. split; congruence.
  - destruct (IH d' ids) as [I1 I2]. split; congruence.
Qed.

Lemma upsert_item_images_frame (now : Z) (d : db) (id : Z) (urls : list string)
    (c : option Z) :
  item_x_item_colors (upsert_item_images now d id urls c) = item_x_item_colors d /\
  items (upsert_item_images now d id urls c) = items d.
Proof. destruct urls; simpl; auto. Qed.

Lemma link_item_colors_frame (now : Z) (d : db) (id : Z) (color_ids : list Z) :
  item_images (link_item_colors now d id color_ids) = item_images d /\
  items (link_item_colors now d id color_ids) = items d.
Proof. destruct color_ids; simpl; auto. Qed.

(** A record without image URLs leaves the stored images as they are;
    a record without colors leaves the stored color links as they are. *)
Lemma sync_record_keeps_dependents
    (normalize_price : string -> Z)
    (get_rapsodia_category_mapping : string -> string -> option (Z * Z))
    (now : Z) (d : db) (brand : Z) (c sc : string) (info : Scraper.product_info) :
  let d' := (Worker.sync_record normalize_price get_rapsodia_category_mapping
               now d brand c sc info).1 in
  (Scraper.pi_image_urls info = [] -> item_images d' = item_images d) /\
  (Scraper.pi_colors info = [] -> item_x_item_colors d' = item_x_item_colors d).
Proof.
  unfold Worker.sync_record.
  cbn -[Worker.resolve_colors link_item_colors upsert_item_images upsert_item
        Worker.make_item_data].
  pose proof (upsert_item_frame now d
                (Worker.make_item_data normalize_price get_rapsodia_category_mapping
                   brand c sc (Worker.normalize info))) as (U1 & U2 & _).
  destruct (upsert_item now d _) as [d1 [id|]];
    cbn -[Worker.resolve_colors link_item_colors upsert_item_images] in *;
    [|split; intros _; assumption].
  split.
  - intros ->.
    destruct (Scraper.pi_colors info) as [|col cols] eqn:Ec; [exact U1|].
    pose proof (resolve_colors_frame (col :: cols) d1 []) as [R1 _].
    destruct (Worker.resolve_colors d1 (col :: cols) []) as [d2 ids].
    cbn -[link_item_colors] in *.
    destruct ids as [|i ids].
    + congruence.
    + destruct (link_item_colors_frame now d2 id (i :: ids)) as [L1 _]. congruence.
  - intros ->.
    destruct (Scraper.pi_image_urls info) as [|u urls]; [exact U2|].
    destruct (upsert_item_images_frame now d1 id (u :: urls) None) as [I1 _].
    congruence.
Qed.

End DependentsFrame.

(** ** Item upsert *)

Section Upsert.
Import SupabaseClient.

(** The parts of the upsert contract that the code meets: look-up by
    [(name, brand_id)], update in place returning the existing id with
    the availability event logged on a true-to-false flip, insertion
    with [available] defaulting to true returning the fresh id. *)
Lemma upsert_item_contract (now : Z) (d : db) (x : item_data) :
  match List.find (same_key x) (items d) with
  | Some existing =>
      (upsert_item now d x).2 = Some (item_id existing) /\
      items (upsert_item now d x).1 =
        update_where (fun r => item_id r =? item_id existing) (updated_row now x)
          (items d) /\
      (In (LogNowUnavailable (d_name x)) (logger (upsert_item now d x).1) <->
       In (LogNowUnavailable (d_name x)) (logger d) \/
       (available existing = true /\ d_available x = Some false)) /\
      (In (LogSizesChanged (d_name x) (sizes_available existing)
             (default [] (d_sizes_available x))) (logger (upsert_item now d x).1) <->
       In (LogSizesChanged (d_name x) (sizes_available existing)
             (default [] (d_sizes_available x))) (logger d) \/
       sizes_available existing <> Some (default [] (d_sizes_available x)))
  | None =>
      (upsert_item now d x).2 = Some (next_item_id d) /\
      items (upsert_item now d x).1 =
        (items d ++ [inserted_row now (next_item_id d) x])%list /\
      (d_available x = None ->
       available (inserted_row now (next_item_id d) x) = true)
  end.
Proof.
  unfold upsert_item. fold (same_key x).
  destruct (List.find (same_key x) (items d)) as [r|] eqn:E.
  - assert (Hav : available r && negb (default true (d_available x)) = true <->
                  available r = true /\ d_available x = Some false).
    { destruct (available r), (d_available x) as [[|]|]; simpl;
        split; try tauto; try discriminate; intros [? ?]; discriminate. }
    destruct (available r && negb (default true (d_available x))) eqn:Ea;
      case_bool_decide as Es; simpl;
      (split; [reflexivity|]); (split; [reflexivity|]);
      rewrite ?in_app_iff; simpl;
      intuition (try discriminate; try congruence).
  - simpl. split; [reflexivity|]. split; [reflexivity|].
    intros ->. reflexivity.
Qed.

End Upsert.

(** C3 (where the code departs from it). The available sizes of the
    stored item and of the incoming record are the same set, listed in
    another order; [upsert_item] compares the two lists and logs a size
    change, while [sync_product_availability], which compares them as
    sets, logs none on the same data. *)
Theorem C3_size_change_compared_as_lists :
  let old_sizes := SupabaseClient.sizes_available Samples.jean in
  let new_sizes := default [] (SupabaseClient.d_sizes_available Samples.jean_reordered) in
  let event := SupabaseClient.LogSizesChanged "JEAN OXFORD" old_sizes new_sizes in
  (list_to_set (default [] old_sizes) : gset string) = list_to_set new_sizes /\
  (SupabaseClient.upsert_item 10 Samples.jean_db Samples.jean_reordered).2 = Some 1 /\
  In event
     (SupabaseClient.logger
        (SupabaseClient.upsert_item 10 Samples.jean_db Samples.jean_reordered).1) /\
  ~ In event
      (SupabaseClient.logger
         (SupabaseClient.sync_product_availability 10 Samples.jean_db 7
            [Samples.jean_reordered_observed])).
Proof.
  cbv zeta. split; [|split; [|split]].
  - apply set_eq. intros x. simpl. rewrite !elem_of_union, !elem_of_singleton.
    rewrite elem_of_empty. tauto.
  - reflexivity.
  - vm_compute. right. left. reflexivity.
  - vm_compute. intros [H|[]]. discriminate H.
Qed.

(** ** Availability reconciliation *)

Section Reconcile.
Import SupabaseClient.

Lemma find_app {A} (f : A -> bool) (l1 l2 : list A) :
  List.find f (l1 ++ l2) =
  match List.find f l1 with Some x => Some x | None => List.find f l2 end.
Proof.
  induction l1 as [|a l1 IH]; simpl; [reflexivity|].
  destruct (f a); [reflexivity | exact IH].
Qed.

Lemma NoDup_map_eq {A B} (f : A -> B) (l : list A) (x y : A) :
  NoDup (List.map f l) -> In x l -> In y l -> f x = f y -> x = y.
Proof.
  induction l as [|a l IH]; simpl; [tauto|].
  intros Hnd Hx Hy E. apply NoDup_cons in Hnd as [Hnot Hnd].
  rewrite list_elem_of_In in Hnot.
  destruct Hx as [->|Hx], Hy as [->|Hy].
  - reflexivity.
  - exfalso. apply Hnot. rewrite E. apply in_map. exact Hy.
  - exfalso. apply Hnot. rewrite <- E. apply in_map. exact Hx.
  - exact (IH Hnd Hx Hy E).
Qed.

Lemma existing_items_fold (rows : list item) :
  forall (m : gmap string (Z * bool * option (list string))) (n : string),
    fold_left (fun m r => <[name r := entry_of r]> m) rows m !! n =
    match List.find (fun r => String.eqb (name r) n) (rev rows) with
    | Some r => Some (entry_of r)
    | None => m !! n
    end.
Proof.
  induction rows as [|r rows IH]; intros m n; simpl; [reflexivity|].
  rewrite IH, find_app. simpl.
  destruct (List.find _ (rev rows)); [reflexivity|].
  destruct (String.eqb_spec (name r) n) as [->|Hne].
  - apply lookup_insert_eq.
  - apply lookup_insert_ne. exact Hne.
Qed.

Lemma existing_items_lookup (rows : list item) (n : string) :
  existing_items_of rows !! n =
  entry_of <$> List.find (fun r => String.eqb (name r) n) (rev rows).
Proof.
  unfold existing_items_of.
  change (fun (m : gmap string (Z * bool * option (list string))) (r : item) =>
            <[name r := (item_id r, available r, sizes_available r)]> m)
    with (fun (m : gmap string (Z * bool * option (list string))) (r : item) =>
            <[name r := entry_of r]> m).
  rewrite existing_items_fold.
  destruct (List.find _ (rev rows)); reflexivity.
Qed.

Lemma existing_items_some (rows : list item) (n : string)
    (v : Z * bool * option (list string)) :
  existing_items_of rows !! n = Some v ->
  exists r, In r rows /\ name r = n /\ v = entry_of r.
Proof.
  rewrite existing_items_lookup.
  destruct (List.find _ (rev rows)) as [r|] eqn:E; [|discriminate].
  intros [= <-]. apply List.find_some in E as [Hin Hn].
  exists r. split; [apply in_rev; exact Hin|].
  split; [apply String.eqb_eq; exact Hn | reflexivity].
Qed.

Lemma existing_items_of_row (rows : list item) (r : item) :
  NoDup (List.map name rows) -> In r rows ->
  existing_items_of rows !! name r = Some (entry_of r).
Proof.
  intros Hnd Hin. rewrite existing_items_lookup.
  destruct (List.find _ (rev rows)) as [r'|] eqn:E.
  - apply List.find_some in E as [Hin' Hn]. apply String.eqb_eq in Hn.
    apply in_rev in Hin'.
    rewrite (NoDup_map_eq name rows r' r Hnd Hin' Hin Hn). reflexivity.
  - exfalso. eapply List.find_none in E; [|apply in_rev; rewrite rev_involutive; exact Hin].
    rewrite String.eqb_refl in E. discriminate.
Qed.

(** Within one brand the names are distinct. *)
Lemma keyed_brand_names (rows : list item) (brand : Z) :
  NoDup (List.map (fun r => (name r, brand_id r)) rows) ->
  NoDup (List.map name (List.filter (fun r => brand_id r =? brand) rows)).
Proof.
  induction rows as [|r rows IH]; simpl; intros Hnd; [constructor|].
  apply NoDup_cons in Hnd as [Hnot Hnd]. rewrite list_elem_of_In in Hnot.
  destruct (Z.eqb_spec (brand_id r) brand) as [Hb|Hb]; simpl; [|exact (IH Hnd)].
  apply NoDup_cons. split; [|exact (IH Hnd)].
  rewrite list_elem_of_In.
  intros Hin. apply in_map_iff in Hin as (r' & Hn & Hr').
  apply filter_In in Hr' as [Hr' Hb']. apply Z.eqb_eq in Hb'.
  apply Hnot. apply in_map_iff. exists r'. split; [|exact Hr'].
  congruence.
Qed.

Lemma found_names_elem (ps : list product_data) (n : string) :
  n ∈ found_names_of ps <->
  exists p, In p ps /\ p_name p = Some n /\ Text.truthy n = true.
Proof.
  unfold found_names_of. rewrite elem_of_list_to_set, list_elem_of_omap.
  split.
  - intros (p & Hp & Hn). exists p. apply list_elem_of_In in Hp.
    split; [exact Hp|].
    destruct (Text.truthy_opt (p_name p)) eqn:Et; [|discriminate].
    rewrite Hn in Et. simpl in Et. split; [exact Hn | exact Et].
  - intros (p & Hp & Hn & Ht). exists p. apply list_elem_of_In in Hp.
    split; [exact Hp|]. rewrite Hn. simpl. rewrite Ht. reflexivity.
Qed.

Lemma last_observation_none (ps : list product_data) (n : string) :
  last_observation n ps = None <-> n ∉ found_names_of ps.
Proof.
  unfold last_observation. rewrite found_names_elem. split.
  - intros Hnone (p & Hp & Hn & Ht).
    eapply List.find_none in Hnone; [|apply in_rev; rewrite rev_involutive; exact Hp].
    unfold observes in Hnone. rewrite Ht in Hnone. simpl in Hnone.
    apply bool_decide_eq_false in Hnone. exact (Hnone Hn).
  - intros Hnot. destruct (List.find _ (rev ps)) as [p|] eqn:E; [|reflexivity].
    exfalso. apply List.find_some in E as [Hp Ho]. apply in_rev in Hp.
    unfold observes in Ho. apply andb_true_iff in Ho as [Ht Hn].
    apply bool_decide_eq_true in Hn. apply Hnot. exists p. tauto.
Qed.

End Reconcile.

Section ReconcileRows.
Import SupabaseClient.

Variables (now brand : Z) (rows0 : list item) (observed : list product_data).
Hypothesis Hkey : keyed rows0.

Local Abbreviation brand_rows := (brand_rows brand rows0).
Local Abbreviation existing := (existing brand rows0).
Local Abbreviation to_mark := (to_mark brand rows0 observed).
Local Abbreviation mark_row := (mark_row now brand rows0 observed).
Local Abbreviation one_row := (one_row now brand rows0).
Local Abbreviation reconciled_upto := (reconciled_upto now brand observed).

Lemma existing_of_row (r : item) :
  In r rows0 -> brand_id r = brand -> existing !! name r = Some (entry_of r).
Proof.
  intros Hin Hb. apply existing_items_of_row.
  - apply keyed_brand_names. exact (proj2 Hkey).
  - apply filter_In. split; [exact Hin | apply Z.eqb_eq; exact Hb].
Qed.

Lemma existing_is_row (n : string) (id : Z) (av : bool) (sz : option (list string))
    (r : item) :
  existing !! n = Some (id, av, sz) -> In r rows0 -> item_id r = id ->
  brand_id r = brand /\ name r = n /\ av = available r.
Proof.
  intros Hex Hin Hid.
  apply existing_items_some in Hex as (r' & Hr' & Hn & Hv).
  apply filter_In in Hr' as [Hr' Hb]. apply Z.eqb_eq in Hb.
  injection Hv as -> -> ->.
  assert (r' = r) as ->.
  { apply (NoDup_map_eq item_id rows0); [exact (proj1 Hkey) | exact Hr' | exact Hin|].
    symmetry. exact Hid. }
  tauto.
Qed.

Lemma to_mark_elem (r : item) :
  In r rows0 ->
  item_id r ∈ to_mark <->
  brand_id r = brand /\ (name r ∉ found_names_of observed) /\ available r = true.
Proof.
  intros Hin. unfold to_mark. rewrite list_elem_of_omap. split.
  - intros ([n [[id av] sz]] & Hentry & Hsel).
    apply elem_of_map_to_list in Hentry.
    destruct (negb (bool_decide (n ∈ found_names_of observed)) && av) eqn:E;
      [|discriminate].
    injection Hsel as ->.
    apply andb_true_iff in E as [Hnf ->].
    apply negb_true_iff in Hnf. apply bool_decide_eq_false in Hnf.
    destruct (existing_is_row n (item_id r) true sz r Hentry Hin eq_refl)
      as (Hb & Hn & Hav).
    subst n. split; [exact Hb|]. split; [exact Hnf | symmetry; exact Hav].
  - intros (Hb & Hnf & Hav).
    exists (name r, entry_of r). split.
    + apply elem_of_map_to_list. apply existing_of_row; assumption.
    + unfold entry_of. rewrite Hav, andb_true_r.
      rewrite (bool_decide_eq_false_2 _ Hnf). reflexivity.
Qed.

Lemma reconciled_upto_keys (prefix : list product_data) (r : item) :
  item_id (reconciled_upto prefix r) = item_id r.
Proof.
  unfold reconciled_upto.
  destruct (negb _); [reflexivity|].
  destruct (last_observation _ _); [reflexivity|].
  destruct (_ && _); reflexivity.
Qed.

Lemma set_availability_absorbs (a : bool) (sz : list string)
    (prefix : list product_data) (r : item) :
  set_availability now a sz (reconciled_upto prefix r) = set_availability now a sz r.
Proof.
  unfold reconciled_upto.
  destruct (negb _); [reflexivity|].
  destruct (last_observation _ _); [reflexivity|].
  destruct (_ && _); reflexivity.
Qed.

Lemma last_observation_snoc (n : string) (prefix : list product_data)
    (p : product_data) :
  last_observation n (prefix ++ [p]) =
  if observes n p then Some p else last_observation n prefix.
Proof. unfold last_observation. rewrite rev_app_distr. reflexivity. Qed.

Lemma reconciled_upto_skip (prefix : list product_data) (p : product_data) (r : item) :
  brand_id r <> brand \/ observes (name r) p = false ->
  reconciled_upto (prefix ++ [p]) r = reconciled_upto prefix r.
Proof.
  intros H. unfold reconciled_upto.
  destruct (Z.eqb_spec (brand_id r) brand) as [Hb|Hb]; simpl; [|reflexivity].
  destruct H as [H|H]; [contradiction|].
  rewrite last_observation_snoc, H. reflexivity.
Qed.

Lemma rows_after (prefix : list product_data) (r : item) :
  In r rows0 ->
  fold_left (fun r p => one_row p r) prefix (mark_row r) = reconciled_upto prefix r.
Proof.
  intros Hin. induction prefix as [|p prefix IH] using rev_ind.
  - simpl. unfold mark_row, reconciled_upto.
    pose proof (to_mark_elem r Hin) as Hm.
    destruct (Z.eqb_spec (brand_id r) brand) as [Hb|Hb]; simpl.
    + unfold last_observation. simpl.
      case_bool_decide as H1; case_bool_decide as H2; simpl;
        destruct (available r) eqn:Ea; try reflexivity;
        exfalso; intuition discriminate.
    + case_bool_decide as H1; [|reflexivity]. exfalso. tauto.
  - rewrite fold_left_app. simpl. rewrite IH. clear IH.
    unfold one_row.
    destruct (p_name p) as [n|] eqn:En.
    2:{ symmetry. apply reconciled_upto_skip. right.
        unfold observes. rewrite En.
        rewrite (bool_decide_eq_false_2 _); [apply andb_false_r | discriminate]. }
    destruct (Text.truthy n) eqn:Et; simpl.
    2:{ symmetry. apply reconciled_upto_skip. right.
        unfold observes. rewrite En.
        destruct (String.eqb_spec n (name r)) as [<-|Hne].
        - rewrite Et. reflexivity.
        - rewrite (bool_decide_eq_false_2 _); [apply andb_false_r | congruence]. }
    destruct (existing !! n) as [[[id av] sz]|] eqn:Eex.
    + rewrite reconciled_upto_keys.
      destruct (Z.eqb_spec (item_id r) id) as [Hid|Hid].
      * destruct (existing_is_row n id av sz r Eex Hin Hid) as (Hb & Hn & _).
        rewrite set_availability_absorbs.
        unfold reconciled_upto. rewrite last_observation_snoc.
        apply Z.eqb_eq in Hb. rewrite Hb. simpl.
        unfold observes. rewrite Hn, Et, En.
        rewrite (bool_decide_eq_true_2 _ eq_refl). reflexivity.
      * symmetry. apply reconciled_upto_skip.
        destruct (Z.eq_dec (brand_id r) brand) as [Hb|Hb]; [|left; exact Hb].
        right. unfold observes. rewrite En.
        destruct (String.eqb_spec n (name r)) as [->|Hne].
        -- rewrite (existing_of_row r Hin Hb) in Eex. injection Eex as E1 _ _.
           contradiction.
        -- rewrite (bool_decide_eq_false_2 _); [apply andb_false_r | congruence].
    + symmetry. apply reconciled_upto_skip.
      destruct (Z.eq_dec (brand_id r) brand) as [Hb|Hb]; [|left; exact Hb].
      right. unfold observes. rewrite En.
      destruct (String.eqb_spec n (name r)) as [->|Hne].
      * rewrite (existing_of_row r Hin Hb) in Eex. discriminate.
      * rewrite (bool_decide_eq_false_2 _); [apply andb_false_r | congruence].
Qed.

Lemma reconciled_upto_all (r : item) :
  reconciled_upto observed r = reconciled now brand observed r.
Proof.
  unfold reconciled_upto, reconciled.
  destruct (negb _); [reflexivity|].
  destruct (last_observation (name r) observed) eqn:E; [reflexivity|].
  apply last_observation_none in E.
  rewrite (bool_decide_eq_true_2 _ E). reflexivity.
Qed.

End ReconcileRows.

Section ReconcileDb.
Import SupabaseClient.

Lemma sync_one_items (now brand : Z) (rows0 : list item) (d : db) (p : product_data) :
  items (sync_one now (existing brand rows0) d p) =
  List.map (one_row now brand rows0 p) (items d).
Proof.
  unfold sync_one, one_row.
  destruct (p_name p) as [n|]; [|symmetry; apply List.map_id].
  destruct (negb (Text.truthy n)); [symmetry; apply List.map_id|].
  destruct (existing brand rows0 !! n) as [[[id av] sz]|];
    [|symmetry; apply List.map_id].
  destruct (negb (Bool.eqb _ _)); destruct (negb (bool_decide _)); reflexivity.
Qed.

Lemma sync_one_frame (now : Z) (ex : gmap string (Z * bool * option (list string)))
    (d : db) (p : product_data) :
  item_images (sync_one now ex d p) = item_images d /\
  item_x_item_colors (sync_one now ex d p) = item_x_item_colors d.
Proof.
  unfold sync_one.
  destruct (p_name p) as [n|]; [|auto].
  destruct (negb (Text.truthy n)); [auto|].
  destruct (ex !! n) as [[[id av] sz]|]; [|auto].
  destruct (negb (Bool.eqb _ _)); destruct (negb (bool_decide _)); auto.
Qed.

Lemma sync_loop_items (now brand : Z) (rows0 : list item) (ps : list product_data) :
  forall d,
    items (fold_left (sync_one now (existing brand rows0)) ps d) =
    List.map (fun r => fold_left (fun r p => one_row now brand rows0 p r) ps r)
             (items d).
Proof.
  induction ps as [|p ps IH]; intros d; simpl.
  - symmetry. apply List.map_id.
  - rewrite IH, sync_one_items, List.map_map. reflexivity.
Qed.

Lemma sync_loop_frame (now : Z) (ex : gmap string (Z * bool * option (list string)))
    (ps : list product_data) :
  forall d,
    item_images (fold_left (sync_one now ex) ps d) = item_images d /\
    item_x_item_colors (fold_left (sync_one now ex) ps d) = item_x_item_colors d.
Proof.
  induction ps as [|p ps IH]; intros d; simpl; [auto|].
  destruct (IH (sync_one now ex d p)) as [I1 I2].
  destruct (sync_one_frame now ex d p) as [S1 S2]. split; congruence.
Qed.

Lemma sync_product_availability_items (now : Z) (d : db) (brand : Z)
    (ps : list product_data) :
  keyed (items d) ->
  items (sync_product_availability now d brand ps) =
  List.map (reconciled now brand ps) (items d).
Proof.
  intros Hkey. unfold sync_product_availability.
  fold (brand_rows brand (items d)). fold (existing brand (items d)).
  fold (to_mark brand (items d) ps).
  cbn [items log_info].
  rewrite sync_loop_items.
  assert (Hmark :
    items (match to_mark brand (items d) ps with
           | [] => d
           | _ :: _ =>
               log_info (LogMarkedUnavailable (length (to_mark brand (items d) ps)))
                 (with_items
                    (update_where
                       (fun r => bool_decide (item_id r ∈ to_mark brand (items d) ps))
                       (set_unavailable now)) d)
           end) = List.map (mark_row now brand (items d) ps) (items d)).
  { unfold mark_row. destruct (to_mark brand (items d) ps) as [|i ids] eqn:E.
    - rewrite <- (List.map_id (items d)) at 1. apply List.map_ext.
      intros r. rewrite bool_decide_eq_false_2; [reflexivity|].
      intros H. apply elem_of_nil in H. exact H.
    - reflexivity. }
  rewrite Hmark, List.map_map. apply List.map_ext_in. intros r Hr.
  rewrite (rows_after now brand (items d) ps Hkey ps r Hr).
  apply reconciled_upto_all.
Qed.

End ReconcileDb.

(** *** The natural key is an invariant of the sync layer *)

Section KeyInvariant.
Import SupabaseClient.

Lemma keyed_map (f : item -> item) (rows : list item) :
  (forall r, key_of (f r) = key_of r) -> keyed rows -> keyed (List.map f rows).
Proof.
  intros Hf [K1 K2]. unfold keyed. rewrite !List.map_map.
  assert (E1 : List.map (fun r => item_id (f r)) rows = List.map item_id rows).
  { apply List.map_ext. intros r. specialize (Hf r). unfold key_of in Hf. congruence. }
  assert (E2 : List.map (fun r => (name (f r), brand_id (f r))) rows
               = List.map (fun r => (name r, brand_id r)) rows).
  { apply List.map_ext. intros r. specialize (Hf r). unfold key_of in Hf. congruence. }
  rewrite E1, E2. split; assumption.
Qed.

Lemma update_where_keyed (cond : item -> bool) (set : item -> item) (rows : list item) :
  (forall r, key_of (set r) = key_of r) -> keyed rows ->
  keyed (update_where cond set rows).
Proof.
  intros Hset. apply keyed_map. intros r. destruct (cond r); [apply Hset | reflexivity].
Qed.

Lemma update_where_ids (cond : item -> bool) (set : item -> item) (rows : list item) :
  (forall r, key_of (set r) = key_of r) ->
  forall r, In r (update_where cond set rows) ->
            exists r0, In r0 rows /\ item_id r = item_id r0.
Proof.
  intros Hset r Hr. apply in_map_iff in Hr as (r0 & Hr0 & Hin).
  exists r0. split; [exact Hin|]. subst r.
  destruct (cond r0); [|reflexivity].
  specialize (Hset r0). unfold key_of in Hset. congruence.
Qed.

(** [upsert_item] keeps the store keyed: an update leaves every key in
    place, an insertion adds a fresh identifier under a key that the
    look-up has just found absent. *)
Lemma upsert_item_store_ok (now : Z) (d : db) (x : item_data) :
  store_ok d -> store_ok (upsert_item now d x).1.
Proof.
  intros [[K1 K2] Hids].
  pose proof (upsert_item_contract now d x) as Hc.
  assert (Hnext : next_item_id (upsert_item now d x).1 =
                  match List.find (same_key x) (items d) with
                  | Some _ => next_item_id d
                  | None => next_item_id d + 1
                  end).
  { unfold upsert_item. fold (same_key x).
    destruct (List.find (same_key x) (items d)) as [r|]; simpl; [|reflexivity].
    destruct (available r && _); destruct (negb (bool_decide _)); reflexivity. }
  destruct (List.find (same_key x) (items d)) as [r|] eqn:E.
  - destruct Hc as (_ & Hitems & _). unfold store_ok. rewrite Hitems, Hnext.
    split.
    + apply update_where_keyed; [reflexivity | split; assumption].
    + intros r' Hr'.
      apply update_where_ids in Hr' as (r0 & Hr0 & ->); [|reflexivity].
      apply Hids, Hr0.
  - destruct Hc as (_ & Hitems & _). unfold store_ok. rewrite Hitems, Hnext.
    split.
    + unfold keyed. rewrite !List.map_app. simpl. split.
      * apply NoDup_app. split; [exact K1|]. split; [|apply NoDup_singleton].
        intros i Hi Hi'. apply list_elem_of_singleton in Hi'. subst i.
        apply list_elem_of_In, in_map_iff in Hi as (r0 & Hid & Hr0).
        specialize (Hids r0 Hr0). lia.
      * apply NoDup_app. split; [exact K2|]. split; [|apply NoDup_singleton].
        intros k Hk Hk'. apply list_elem_of_singleton in Hk'. subst k.
        apply list_elem_of_In, in_map_iff in Hk as (r0 & Hkey & Hr0).
        eapply List.find_none in E; [|exact Hr0].
        unfold same_key in E. injection Hkey as Hn Hb.
        rewrite Hn, Hb, String.eqb_refl, Z.eqb_refl in E. discriminate.
    + intros r' Hr'. apply in_app_or in Hr' as [Hr'|[<-|[]]].
      * specialize (Hids r' Hr'). lia.
      * simpl. lia.
Qed.

(** Reconciliation keeps the store keyed as well. *)
Lemma reconciled_key (now brand : Z) (ps : list product_data) (r : item) :
  key_of (reconciled now brand ps r) = key_of r.
Proof.
  unfold reconciled. destruct (negb _); [reflexivity|].
  destruct (last_observation _ _); [reflexivity|].
  destruct (available r); reflexivity.
Qed.

Lemma sync_product_availability_keyed (now : Z) (d : db) (brand : Z)
    (ps : list product_data) :
  keyed (items d) -> keyed (items (sync_product_availability now d brand ps)).
Proof.
  intros K. rewrite (sync_product_availability_items now d brand ps K).
  apply keyed_map; [apply reconciled_key | exact K].
Qed.

End KeyInvariant.

(** C8 (as the code has it). In a store whose rows are identified by
    [item_id] and by the natural key [(name, brand_id)],
    [sync_product_availability] leaves, in place of every row, the row
    given by [reconciled]: an item of the brand whose non-empty name is
    carried by an observed record takes the availability and available
    sizes of the last such record; any other item of the brand that is
    available is set unavailable; an item of the brand that is already
    unavailable and not observed, and every item of another brand, is
    left as it is.  A record with an empty name observes nothing.
    Images and color links are untouched. *)
Theorem C8_sync_product_availability
    (now : Z) (d : SupabaseClient.db) (brand : Z)
    (ps : list SupabaseClient.product_data) :
  keyed (SupabaseClient.items d) ->
  let d' := SupabaseClient.sync_product_availability now d brand ps in
  let observed_name n :=
    exists p, In p ps /\ SupabaseClient.p_name p = Some n /\ n <> "" in
  SupabaseClient.items d' = List.map (reconciled now brand ps) (SupabaseClient.items d) /\
  (forall r, SupabaseClient.brand_id r = brand ->
             SupabaseClient.available r = true ->
             ~ observed_name (SupabaseClient.name r) ->
             reconciled now brand ps r = SupabaseClient.set_unavailable now r) /\
  (forall r, SupabaseClient.brand_id r = brand ->
             observed_name (SupabaseClient.name r) ->
             exists p, last_observation (SupabaseClient.name r) ps = Some p /\
                       In p ps /\
                       SupabaseClient.p_name p = Some (SupabaseClient.name r) /\
                       reconciled now brand ps r =
                       SupabaseClient.set_availability now
                         (default true (SupabaseClient.p_available p))
                         (default [] (SupabaseClient.p_sizes_available p)) r) /\
  (forall r, SupabaseClient.brand_id r = brand ->
             SupabaseClient.available r = false ->
             ~ observed_name (SupabaseClient.name r) ->
             reconciled now brand ps r = r) /\
  (forall r, SupabaseClient.brand_id r <> brand -> reconciled now brand ps r = r) /\
  SupabaseClient.item_images d' = SupabaseClient.item_images d /\
  SupabaseClient.item_x_item_colors d' = SupabaseClient.item_x_item_colors d.
Proof.
  intros Hkey d' observed_name.
  assert (Htruthy : forall n, Text.truthy n = true <-> n <> "").
  { intros [|c n]; simpl; split; congruence. }
  assert (Hobs : forall n, observed_name n <-> n ∈ SupabaseClient.found_names_of ps).
  { intros n. rewrite found_names_elem. unfold observed_name.
    split; intros (p & Hp & Hn & Ht); exists p; rewrite Htruthy in *; tauto. }
  split; [apply sync_product_availability_items; exact Hkey|].
  split; [|split; [|split; [|split; [|split]]]].
  - intros r Hb Hav Hno. unfold reconciled.
    apply Z.eqb_eq in Hb. rewrite Hb. simpl.
    rewrite Hobs, <- last_observation_none in Hno. rewrite Hno, Hav. reflexivity.
  - intros r Hb Hyes. unfold reconciled.
    apply Z.eqb_eq in Hb. rewrite Hb. simpl.
    destruct (last_observation (SupabaseClient.name r) ps) as [p|] eqn:E.
    + exists p. split; [reflexivity|].
      apply List.find_some in E as [Hin Ho]. apply in_rev in Hin.
      unfold observes in Ho. apply andb_true_iff in Ho as [_ Ho].
      apply bool_decide_eq_true in Ho. tauto.
    + exfalso. apply last_observation_none in E. apply E, Hobs, Hyes.
  - intros r Hb Hav Hno. unfold reconciled.
    apply Z.eqb_eq in Hb. rewrite Hb. simpl.
    rewrite Hobs, <- last_observation_none in Hno. rewrite Hno, Hav. reflexivity.
  - intros r Hb. unfold reconciled.
    apply Z.eqb_neq in Hb. rewrite Hb. reflexivity.
  - unfold d', SupabaseClient.sync_product_availability.
    cbn [SupabaseClient.item_images SupabaseClient.log_info].
    rewrite (proj1 (sync_loop_frame _ _ _ _)).
    destruct (omap _ _); reflexivity.
  - unfold d', SupabaseClient.sync_product_availability.
    cbn [SupabaseClient.item_x_item_colors SupabaseClient.log_info].
    rewrite (proj2 (sync_loop_frame _ _ _ _)).
    destruct (omap _ _); reflexivity.
Qed.

(** C8 as stated fails: an available item stored under the empty name
    is observed by a record carrying that same name as available, and
    the reconciliation sets it unavailable instead of updating it to the
    observed availability. *)
Lemma C8_observed_item_marked_unavailable :
  SupabaseClient.available Samples.nameless = true /\
  SupabaseClient.brand_id Samples.nameless = 7 /\
  In Samples.nameless_observed [Samples.nameless_observed] /\
  SupabaseClient.p_name Samples.nameless_observed
    = Some (SupabaseClient.name Samples.nameless) /\
  SupabaseClient.p_available Samples.nameless_observed = Some true /\
  List.map SupabaseClient.available
    (SupabaseClient.items
       (SupabaseClient.sync_product_availability 10 Samples.nameless_db 7
          [Samples.nameless_observed])) = [false].
Proof. vm_compute. repeat split. left. reflexivity. Qed.

(** ** Extraction pipeline *)

Ltac set_tauto :=
  apply set_eq; intros ?;
  rewrite ?elem_of_union, ?elem_of_singleton, ?elem_of_empty; tauto.

Section Pipeline.
Import Scraper.
Context {World Html : Type}.
Variable fetch : World -> string -> World * crawl_result Html.
Variable parse_product : Html -> option product_page.

Lemma validate_formatted (info : product_info) :
  validate_product_info info = true ->
  validate_formatted_info (format_info info) = true.
Proof.
  unfold validate_product_info, validate_formatted_info, validate_product_data.
  simpl. destruct (negb (Text.truthy (pi_url info))); [discriminate|].
  destruct (negb (Text.startswith "http" (pi_url info))); [discriminate|].
  simpl. destruct (negb (Text.truthy (pi_description info))); [discriminate|].
  rewrite andb_false_r. reflexivity.
Qed.

Lemma extract_product_details_effect (s : t) (w : World) (u c sc : string) :
  let '(s', w', r) := extract_product_details fetch parse_product s w u c sc in
  log s' = (log s ++ [product_crawl u])%list /\
  product_urls_extracted s' = product_urls_extracted s /\
  forall info, r = Returned (Some info) ->
               pi_url info = u /\ validate_product_info info = true.
Proof.
  unfold extract_product_details, safe_crawl_page.
  destruct (negb (validate_url u)); simpl.
  - split; [reflexivity|]. split; [reflexivity|]. intros info [=].
  - destruct (fetch w u) as [w1 [|[html|]]]; simpl;
      try (split; [reflexivity|]; split; [reflexivity|]; intros info [=]).
    destruct (parse_product html) as [page|]; simpl;
      try (split; [reflexivity|]; split; [reflexivity|]; intros info [=]).
    destruct (negb (validate_product_info _)) eqn:Ev; simpl;
      (split; [reflexivity|]; split; [reflexivity|]); intros info [=].
    subst info. split.
    + unfold build_product_info.
      destruct (extract_sizes (pp_sizes page) [] []). reflexivity.
    + apply negb_false_iff in Ev. exact Ev.
Qed.

Lemma process_single_product_skip (c sc : string) (s : t) (w : World) (u : string) :
  u ∈ product_urls_extracted s ->
  process_single_product fetch parse_product c sc s w u = (s, w, None).
Proof.
  intros H. unfold process_single_product.
  rewrite (bool_decide_eq_true_2 _ H). reflexivity.
Qed.

Lemma process_single_product_fresh (c sc : string) (s : t) (w : World) (u : string) :
  u ∉ product_urls_extracted s ->
  let '(s', w', r) := process_single_product fetch parse_product c sc s w u in
  log s' = (log s ++ [product_crawl u])%list /\
  result_for u r /\
  product_urls_extracted s' =
    list_to_set (successes [r]) ∪ product_urls_extracted s.
Proof.
  intros H. unfold process_single_product.
  rewrite (bool_decide_eq_false_2 _ H).
  pose proof (extract_product_details_effect s w u c sc) as He.
  destruct (extract_product_details fetch parse_product s w u c sc) as [[s1 w1] r].
  destruct He as (Hlog & Hext & Hinfo).
  destruct r as [|[info|]]; simpl.
  - split; [exact Hlog|]. split.
    + exists None. split; [reflexivity|]. intros info [=].
    + simpl. rewrite Hext. set_tauto.
  - split; [exact Hlog|]. split.
    + exists (Some info). split; [reflexivity|]. intros info' [= <-].
      apply Hinfo. reflexivity.
    + simpl. rewrite Hext. set_tauto.
  - split; [exact Hlog|]. split.
    + exists None. split; [reflexivity|]. intros info [=].
    + simpl. rewrite Hext. set_tauto.
Qed.

End Pipeline.

Section PipelineBatches.
Import Scraper.
Context {World Html : Type}.
Variable fetch : World -> string -> World * crawl_result Html.
Variable parse_product : Html -> option product_page.

Lemma successes_cons (r : option (string * option product_info))
    (rs : list (option (string * option product_info))) :
  successes (r :: rs) = (successes [r] ++ successes rs)%list.
Proof. unfold successes. simpl. destruct r as [[u [info|]]|]; reflexivity. Qed.

Lemma successes_app (rs1 rs2 : list (option (string * option product_info))) :
  successes (rs1 ++ rs2) = (successes rs1 ++ successes rs2)%list.
Proof.
  unfold successes. apply omap_app.
Qed.

Lemma successes_single (u : string) (r : option (string * option product_info)) :
  result_for u r -> successes [r] = [] \/ successes [r] = [u].
Proof. intros ([info|] & -> & _); [right | left]; reflexivity. Qed.

Lemma successes_of_results (urls : list string)
    (rs : list (option (string * option product_info))) :
  Forall2 result_for urls rs ->
  NoDup urls ->
  NoDup (successes rs) /\ forall u, u ∈ successes rs -> u ∈ urls.
Proof.
  induction 1 as [|u r urls rs Hr Hrest IH]; intros Hnd.
  - split; [constructor|]. intros u Hu. exact Hu.
  - apply NoDup_cons in Hnd as [Hnot Hnd]. destruct (IH Hnd) as [IH1 IH2].
    rewrite (successes_cons r rs).
    destruct (successes_single u r Hr) as [-> | ->]; simpl.
    + split; [exact IH1|]. intros v Hv. apply elem_of_cons. right. apply IH2, Hv.
    + split.
      * apply NoDup_cons. split; [|exact IH1]. intros Hin. apply Hnot, IH2, Hin.
      * intros v Hv. apply elem_of_cons in Hv as [->|Hv]; apply elem_of_cons;
          [left; reflexivity | right; apply IH2, Hv].
Qed.

Lemma gather_fresh (c sc : string) (urls : list string) :
  forall (s : t) (w : World),
    NoDup urls ->
    (forall u, u ∈ urls -> u ∉ product_urls_extracted s) ->
    let '(s', w', rs) := gather fetch parse_product c sc s w urls in
    log s' = (log s ++ List.map product_crawl urls)%list /\
    Forall2 result_for urls rs /\
    product_urls_extracted s' = list_to_set (successes rs) ∪ product_urls_extracted s.
Proof.
  induction urls as [|u urls IH]; intros s w Hnd Hfresh; simpl.
  - rewrite app_nil_r. split; [reflexivity|]. split; [constructor|].
    unfold successes. simpl. set_tauto.
  - apply NoDup_cons in Hnd as [Hnot Hnd].
    pose proof (process_single_product_fresh fetch parse_product c sc s w u) as H1.
    destruct (process_single_product fetch parse_product c sc s w u) as [[s1 w1] r].
    destruct H1 as (Hlog1 & Hr & Hext1).
    { apply Hfresh. apply elem_of_cons. left. reflexivity. }
    specialize (IH s1 w1 Hnd).
    destruct (gather fetch parse_product c sc s1 w1 urls) as [[s2 w2] rs].
    destruct IH as (Hlog2 & Hrs & Hext2).
    { intros v Hv. rewrite Hext1. intros Hin.
      apply elem_of_union in Hin as [Hin|Hin].
      - apply elem_of_list_to_set in Hin.
        destruct (successes_single u r Hr) as [E|E]; rewrite E in Hin.
        + apply elem_of_nil in Hin. exact Hin.
        + apply list_elem_of_singleton in Hin. subst v. exact (Hnot Hv).
      - revert Hin. apply Hfresh. apply elem_of_cons. right. exact Hv. }
    split; [rewrite Hlog2, Hlog1, <- app_assoc; reflexivity|].
    split; [constructor; assumption|].
    rewrite Hext2, Hext1, (successes_cons r rs), list_to_set_app_L. set_tauto.
Qed.

Lemma gather_app (c sc : string) (l1 l2 : list string) :
  forall (s : t) (w : World),
    gather fetch parse_product c sc s w (l1 ++ l2) =
    let '(s1, w1, r1) := gather fetch parse_product c sc s w l1 in
    let '(s2, w2, r2) := gather fetch parse_product c sc s1 w1 l2 in
    (s2, w2, (r1 ++ r2)%list).
Proof.
  induction l1 as [|u l1 IH]; intros s w; simpl.
  - destruct (gather fetch parse_product c sc s w l2) as [[s2 w2] r2]. reflexivity.
  - destruct (process_single_product fetch parse_product c sc s w u) as [[s1 w1] r].
    rewrite IH.
    destruct (gather fetch parse_product c sc s1 w1 l1) as [[s2 w2] r1].
    destruct (gather fetch parse_product c sc s2 w2 l2) as [[s3 w3] r2].
    reflexivity.
Qed.

(** Slicing into batches does not change the pass over the URLs. *)
Lemma run_batches_gather (c sc : string) (batch_size : nat) :
  (0 < batch_size)%nat ->
  forall (fuel : nat) (urls : list string) (s : t) (w : World)
         (results : list (option (string * option product_info))),
    (length urls <= fuel)%nat ->
    run_batches fetch parse_product fuel batch_size c sc s w urls results =
    let '(s', w', rs) := gather fetch parse_product c sc s w urls in
    (s', w', (results ++ rs)%list).
Proof.
  intros Hpos. induction fuel as [|fuel IH]; intros urls s w results Hlen.
  - destruct urls; [|simpl in Hlen; lia]. simpl. rewrite app_nil_r. reflexivity.
  - destruct urls as [|u urls]; [simpl; rewrite app_nil_r; reflexivity|].
    remember (u :: urls) as l eqn:El.
    assert (Hl : l <> []) by (subst l; discriminate).
    assert (Hrun :
      run_batches fetch parse_product (S fuel) batch_size c sc s w l results =
      let '(s1, w1, r1) := gather fetch parse_product c sc s w (take batch_size l) in
      run_batches fetch parse_product fuel batch_size c sc s1 w1
        (drop batch_size l) (results ++ r1)%list).
    { subst l. reflexivity. }
    rewrite Hrun. clear Hrun.
    rewrite <- (take_drop batch_size l) at 2. rewrite gather_app.
    destruct (gather fetch parse_product c sc s w (take batch_size l)) as [[s1 w1] r1].
    rewrite IH.
    + destruct (gather fetch parse_product c sc s1 w1 (drop batch_size l))
        as [[s2 w2] r2].
      rewrite app_assoc. reflexivity.
    + rewrite length_drop. subst l. simpl in *. lia.
Qed.

Lemma store_results_effect (key : string) (urls : list string)
    (rs : list (option (string * option product_info))) :
  Forall2 result_for urls rs ->
  forall s : t,
    log (store_results key rs s) = (log s ++ List.map EvStored (successes rs))%list /\
    product_urls_extracted (store_results key rs s) = product_urls_extracted s.
Proof.
  induction 1 as [|u r urls rs Hr Hrest IH]; intros s; simpl.
  - rewrite app_nil_r. split; reflexivity.
  - destruct Hr as ([info|] & -> & Hinfo).
    + destruct (Hinfo info eq_refl) as [Hu Hv].
      rewrite (validate_formatted info Hv). simpl.
      destruct (IH (store_product key (format_info info) s)) as [I1 I2].
      rewrite I1, I2. simpl. rewrite Hu, <- app_assoc. split; reflexivity.
    + apply IH.
Qed.

End PipelineBatches.

Section PipelineEffects.
Import Scraper.
Context {World Html : Type}.
Variable fetch : World -> string -> World * crawl_result Html.
Variable parse_product : Html -> option product_page.

Lemma NoDup_list_filter {A} (f : A -> bool) (l : list A) :
  NoDup l -> NoDup (List.filter f l).
Proof.
  intros H. apply NoDup_ListNoDup. apply List.NoDup_filter.
  apply NoDup_ListNoDup. exact H.
Qed.

(** The effect of one call of [process_products] on the log and on the
    extracted set: the fresh URLs are fetched once each, in order; the
    URLs [done] whose extraction succeeded, and only those, are stored
    and marked. *)
Lemma process_products_effect (s : t) (w : World) (c sc : string)
    (urls : list string) (mc : positive) :
  NoDup urls ->
  exists done : list string,
    NoDup done /\
    (forall u, u ∈ done -> u ∈ List.filter (fresh s) urls) /\
    log (process_products fetch parse_product s w c sc urls mc).1 =
      (log s ++ List.map product_crawl (List.filter (fresh s) urls)
             ++ List.map EvStored done)%list /\
    product_urls_extracted (process_products fetch parse_product s w c sc urls mc).1 =
      list_to_set done ∪ product_urls_extracted s.
Proof.
  intros Hnd. unfold process_products. fold (fresh s).
  assert (HndU : NoDup (List.filter (fresh s) urls)) by (apply NoDup_list_filter, Hnd).
  assert (HfreshU : forall u, u ∈ List.filter (fresh s) urls ->
                              u ∉ product_urls_extracted s).
  { intros u Hu. apply list_elem_of_In, filter_In in Hu as [_ Hu].
    unfold fresh in Hu. apply negb_true_iff, bool_decide_eq_false in Hu. exact Hu. }
  remember (List.filter (fresh s) urls) as U eqn:EU. clear EU.
  destruct U as [|u0 U].
  - exists []. simpl. split; [constructor|]. split; [tauto|].
    split; [rewrite app_nil_r; reflexivity | set_tauto].
  - rewrite (run_batches_gather fetch parse_product c sc (Pos.to_nat mc)
               (Pos2Nat.is_pos mc) _ _ s w [] (le_n _)).
    pose proof (gather_fresh fetch parse_product c sc (u0 :: U) s w HndU HfreshU) as Hg.
    destruct (gather fetch parse_product c sc s w (u0 :: U)) as [[s1 w1] rs].
    destruct Hg as (Hlog & Hrs & Hext).
    destruct (successes_of_results _ _ Hrs HndU) as [Hnd' Hsub].
    destruct (store_results_effect (category_key c sc) _ _ Hrs s1) as [Hlog' Hext'].
    exists (successes rs). simpl.
    split; [exact Hnd'|]. split; [exact Hsub|].
    split; [rewrite Hlog', Hlog, <- app_assoc; reflexivity|].
    rewrite Hext', Hext. reflexivity.
Qed.

(** The effect of [parse_product_page] on a URL not yet extracted. *)
Lemma parse_product_page_effect (s : t) (w : World) (u c sc : string) :
  u ∉ product_urls_extracted s ->
  exists done : list string,
    (done = [] \/ done = [u]) /\
    log (parse_product_page fetch parse_product s w u c sc).1.1 =
      (log s ++ [product_crawl u] ++ List.map EvStored done)%list /\
    product_urls_extracted (parse_product_page fetch parse_product s w u c sc).1.1 =
      list_to_set done ∪ product_urls_extracted s /\
    (is_Some (parse_product_page fetch parse_product s w u c sc).2 <-> done = [u]).
Proof.
  intros H. unfold parse_product_page.
  rewrite (bool_decide_eq_false_2 _ H).
  pose proof (extract_product_details_effect fetch parse_product s w u c sc) as He.
  destruct (extract_product_details fetch parse_product s w u c sc) as [[s1 w1] r].
  destruct He as (Hlog & Hext & Hinfo).
  assert (Hfail : exists done : list string,
             (done = [] \/ done = [u]) /\
             log s1 = (log s ++ [product_crawl u] ++ List.map EvStored done)%list /\
             product_urls_extracted s1 = list_to_set done ∪ product_urls_extracted s /\
             (is_Some (@None formatted_info) <-> done = [u])).
  { exists []. split; [left; reflexivity|]. split; [exact Hlog|].
    split; [rewrite Hext; simpl; set_tauto|].
    split; [intros [x Hx]; discriminate | discriminate]. }
  destruct r as [|[info|]]; simpl; try exact Hfail.
  destruct (Hinfo info eq_refl) as [Hu Hv].
  rewrite (validate_formatted info Hv). simpl.
  exists [u]. split; [right; reflexivity|].
  split; [rewrite Hlog, Hu, <- app_assoc; reflexivity|].
  split; [rewrite Hext; simpl; set_tauto|].
  split; [reflexivity | intros _; eexists; reflexivity].
Qed.

Lemma parse_product_page_skip (s : t) (w : World) (u c sc : string) :
  u ∈ product_urls_extracted s ->
  parse_product_page fetch parse_product s w u c sc = (s, w, None).
Proof.
  intros H. unfold parse_product_page.
  rewrite (bool_decide_eq_true_2 _ H). reflexivity.
Qed.

End PipelineEffects.

Section Counting.
Import Scraper.

Lemma count_crawls (u : string) (l : list string) :
  NoDup l ->
  length (List.filter (is_product_fetch u) (List.map product_crawl l))
  = one_if (bool_decide (u ∈ l)).
Proof.
  induction l as [|v l IH]; intros Hnd; simpl.
  - reflexivity.
  - apply NoDup_cons in Hnd as [Hnot Hnd]. rewrite andb_true_r.
    destruct (String.eqb_spec v u) as [->|Hne]; simpl.
    + rewrite (IH Hnd), (bool_decide_eq_false_2 _ Hnot).
      rewrite bool_decide_eq_true_2; [reflexivity | apply elem_of_cons; left; reflexivity].
    + rewrite (IH Hnd). f_equal. apply bool_decide_ext.
      rewrite elem_of_cons. split; [tauto|]. intros [->|H]; [contradiction | exact H].
Qed.

Lemma count_stored (u : string) (l : list string) :
  NoDup l ->
  length (List.filter (is_stored u) (List.map EvStored l))
  = one_if (bool_decide (u ∈ l)).
Proof.
  induction l as [|v l IH]; intros Hnd; simpl.
  - reflexivity.
  - apply NoDup_cons in Hnd as [Hnot Hnd].
    destruct (String.eqb_spec v u) as [->|Hne]; simpl.
    + rewrite (IH Hnd), (bool_decide_eq_false_2 _ Hnot).
      rewrite bool_decide_eq_true_2; [reflexivity | apply elem_of_cons; left; reflexivity].
    + rewrite (IH Hnd). f_equal. apply bool_decide_ext.
      rewrite elem_of_cons. split; [tauto|]. intros [->|H]; [contradiction | exact H].
Qed.

Lemma no_crawl_in_stored (u : string) (l : list string) :
  List.filter (is_product_fetch u) (List.map EvStored l) = [].
Proof. induction l; simpl; [reflexivity | assumption]. Qed.

Lemma no_stored_in_crawls (u : string) (l : list string) :
  List.filter (is_stored u) (List.map product_crawl l) = [].
Proof. induction l; simpl; [reflexivity | assumption]. Qed.

Lemma fetches_after (u : string) (l : list event) (crawled done : list string) :
  NoDup crawled ->
  fetches u (l ++ List.map product_crawl crawled ++ List.map EvStored done)
  = (fetches u l + one_if (bool_decide (u ∈ crawled)))%nat.
Proof.
  intros Hnd. unfold fetches.
  rewrite !List.filter_app, !length_app, no_crawl_in_stored, (count_crawls u _ Hnd).
  simpl. lia.
Qed.

Lemma records_after (u : string) (l : list event) (crawled done : list string) :
  NoDup done ->
  records u (l ++ List.map product_crawl crawled ++ List.map EvStored done)
  = (records u l + one_if (bool_decide (u ∈ done)))%nat.
Proof.
  intros Hnd. unfold records.
  rewrite !List.filter_app, !length_app, no_stored_in_crawls, (count_stored u _ Hnd).
  simpl. lia.
Qed.

End Counting.

Section Lifetime.
Import Scraper.
Context {World Html : Type}.
Variable fetch : World -> string -> World * crawl_result Html.
Variable parse_product : Html -> option product_page.

Local Abbreviation run_feed := (run_feed fetch parse_product).
Local Abbreviation run_feeds := (run_feeds fetch parse_product).

Lemma one_record_each_init : one_record_each init.
Proof. intros u. reflexivity. Qed.

Lemma one_record_each_step (s : t) (crawled done : list string) :
  one_record_each s ->
  NoDup done ->
  (forall u, u ∈ done -> u ∉ product_urls_extracted s) ->
  forall u,
    records u (log s ++ List.map product_crawl crawled ++ List.map EvStored done)
    = one_if (bool_decide (u ∈ list_to_set done ∪ product_urls_extracted s)).
Proof.
  intros Hinv Hnd Hfresh u. rewrite (records_after u _ _ _ Hnd), (Hinv u).
  destruct (decide (u ∈ done)) as [Hd|Hd].
  - rewrite (bool_decide_eq_true_2 _ Hd).
    rewrite (bool_decide_eq_false_2 _ (Hfresh u Hd)).
    rewrite bool_decide_eq_true_2; [reflexivity|].
    apply elem_of_union. left. apply elem_of_list_to_set. exact Hd.
  - rewrite (bool_decide_eq_false_2 _ Hd), Nat.add_0_r. f_equal.
    apply bool_decide_ext. rewrite elem_of_union, elem_of_list_to_set. tauto.
Qed.

Lemma run_feed_invariant (f : feed) (sw : t * World) :
  feed_ok f -> one_record_each sw.1 -> one_record_each (run_feed f sw).1.
Proof.
  destruct sw as [s w]. destruct f as [urls c sc mc|u c sc]; simpl; intros Hok Hinv.
  - destruct (process_products_effect fetch parse_product s w c sc urls mc Hok)
      as (done & Hnd & Hsub & Hlog & Hext).
    intros u. rewrite Hlog, Hext.
    apply one_record_each_step; [exact Hinv | exact Hnd|].
    intros v Hv. apply Hsub in Hv. apply list_elem_of_In, filter_In in Hv as [_ Hv].
    unfold fresh in Hv. apply negb_true_iff, bool_decide_eq_false in Hv. exact Hv.
  - destruct (decide (u ∈ product_urls_extracted s)) as [Hin|Hnot].
    + rewrite (parse_product_page_skip fetch parse_product s w u c sc Hin). exact Hinv.
    + destruct (parse_product_page_effect fetch parse_product s w u c sc Hnot)
        as (done & Hdone & Hlog & Hext & _).
      intros v. rewrite Hlog, Hext.
      change (log s ++ [product_crawl u] ++ List.map EvStored done)%list
        with (log s ++ List.map product_crawl [u] ++ List.map EvStored done)%list.
      apply one_record_each_step; [exact Hinv| |].
      * destruct Hdone as [-> | ->]; [constructor | apply NoDup_singleton].
      * intros x Hx. destruct Hdone as [-> | ->].
        -- apply elem_of_nil in Hx. destruct Hx.
        -- apply list_elem_of_singleton in Hx. subst x. exact Hnot.
Qed.

Lemma run_feeds_invariant (fs : list feed) :
  forall sw, Forall feed_ok fs -> one_record_each sw.1 ->
             one_record_each (run_feeds fs sw).1.
Proof.
  induction fs as [|f fs IH]; intros sw Hok Hinv; simpl; [exact Hinv|].
  apply Forall_cons in Hok as [Hf Hfs].
  apply IH; [exact Hfs|]. apply run_feed_invariant; assumption.
Qed.

End Lifetime.

Section Dedup.
Import Scraper.
Context {World Html : Type}.
Variable fetch : World -> string -> World * crawl_result Html.
Variable parse_product : Html -> option product_page.

Lemma fresh_elem (s : t) (urls : list string) (u : string) :
  u ∈ List.filter (fresh s) urls <-> u ∈ urls /\ u ∉ product_urls_extracted s.
Proof.
  rewrite list_elem_of_In, filter_In, <- list_elem_of_In. unfold fresh.
  rewrite negb_true_iff, bool_decide_eq_false. reflexivity.
Qed.

(** One call of [process_products], seen from one URL. *)
Lemma process_products_url (s : t) (w : World) (c sc : string)
    (urls : list string) (mc : positive) (u : string) :
  NoDup urls ->
  let s' := (process_products fetch parse_product s w c sc urls mc).1 in
  exists stored : bool,
    fetches u (log s') =
      (fetches u (log s)
       + one_if (bool_decide (u ∈ urls /\ u ∉ product_urls_extracted s)))%nat /\
    records u (log s') = (records u (log s) + one_if stored)%nat /\
    (stored = true -> u ∈ urls /\ u ∉ product_urls_extracted s) /\
    (u ∈ product_urls_extracted s' <->
     stored = true \/ u ∈ product_urls_extracted s).
Proof.
  intros Hnd s'.
  destruct (process_products_effect fetch parse_product s w c sc urls mc Hnd)
    as (done & Hnd' & Hsub & Hlog & Hext).
  exists (bool_decide (u ∈ done)). unfold s'. rewrite Hlog, Hext.
  split; [|split; [|split]].
  - rewrite fetches_after by (apply NoDup_list_filter, Hnd).
    f_equal. f_equal. apply bool_decide_ext. apply fresh_elem.
  - apply records_after. exact Hnd'.
  - intros Hd. apply bool_decide_eq_true in Hd. apply fresh_elem, Hsub, Hd.
  - rewrite elem_of_union, elem_of_list_to_set, bool_decide_eq_true. reflexivity.
Qed.

End Dedup.

(** C4 (as the code has it). A URL already in [product_urls_extracted]
    is skipped before any fetch, by [process_products] and by
    [parse_product_page].  A URL joins the set exactly when its
    extraction succeeds and its record is stored; after a failure it is
    left out and is fetched again when fed again.  Hence a URL fed
    twice is fetched once if the first extraction succeeded and twice
    if it failed, and in either case at most one record is stored for
    it; over any sequence of uses of the pipeline from a fresh scraper,
    every URL has at most one stored record, namely when it is in the
    extracted set. *)
Theorem C4_extraction_dedup
    {World Html : Type}
    (fetch : World -> string -> World * Scraper.crawl_result Html)
    (parse_product : Html -> option Scraper.product_page)
    (s : Scraper.t) (w w0 : World) (c sc c' sc' : string)
    (urls urls' : list string) (mc mc' : positive) (u : string)
    (fs : list feed) :
  NoDup urls -> NoDup urls' -> Forall feed_ok fs ->
  let ext := Scraper.product_urls_extracted in
  let sw1 := Scraper.process_products fetch parse_product s w c sc urls mc in
  let sw2 := Scraper.process_products fetch parse_product sw1.1 sw1.2 c' sc' urls' mc' in
  let page := Scraper.parse_product_page fetch parse_product s w u c sc in
  let life := run_feeds fetch parse_product fs (Scraper.init, w0) in
  (* skipped before any fetch *)
  (u ∈ ext s ->
     fetches u (Scraper.log sw1.1) = fetches u (Scraper.log s) /\
     page = (s, w, None)) /\
  (* marked exactly on success *)
  (u ∉ ext s ->
     (u ∈ ext sw1.1 <->
      records u (Scraper.log sw1.1) = S (records u (Scraper.log s))) /\
     (u ∉ ext sw1.1 ->
      records u (Scraper.log sw1.1) = records u (Scraper.log s)) /\
     (u ∈ ext page.1.1 <-> is_Some page.2) /\
     fetches u (Scraper.log page.1.1) = S (fetches u (Scraper.log s))) /\
  (* the same URL fed twice *)
  (u ∉ ext s -> u ∈ urls -> u ∈ urls' ->
     fetches u (Scraper.log sw2.1) =
       (fetches u (Scraper.log s) + if bool_decide (u ∈ ext sw1.1) then 1 else 2)%nat /\
     (records u (Scraper.log sw2.1) <= S (records u (Scraper.log s)))%nat) /\
  (* over a process lifetime *)
  (forall v, records v (Scraper.log life.1) = one_if (bool_decide (v ∈ ext life.1)) /\
             (records v (Scraper.log life.1) <= 1)%nat).
Proof.
  intros Hnd Hnd' Hfs ext sw1 sw2 page life. subst ext.
  destruct (process_products_url fetch parse_product s w c sc urls mc u Hnd)
    as (st1 & Hf1 & Hr1 & Hs1 & He1).
  destruct (process_products_url fetch parse_product sw1.1 sw1.2 c' sc' urls' mc' u Hnd')
    as (st2 & Hf2 & Hr2 & Hs2 & He2).
  fold sw1 in Hf1, Hr1, He1. fold sw2 in Hf2, Hr2, He2.
  split; [|split; [|split]].
  - intros Hin. split.
    + rewrite Hf1. rewrite bool_decide_eq_false_2 by tauto. simpl. lia.
    + apply parse_product_page_skip. exact Hin.
  - intros Hnot.
    assert (Hst : u ∈ Scraper.product_urls_extracted sw1.1 <-> st1 = true) by (rewrite He1; tauto).
    split; [|split; [|split]].
    + rewrite Hst, Hr1. destruct st1; simpl; split; intros; try lia; congruence.
    + rewrite Hst, Hr1. destruct st1; simpl; intros; [congruence | lia].
    + destruct (parse_product_page_effect fetch parse_product s w u c sc Hnot)
        as (done & Hdone & Hlog & Hext & Hres).
      fold page in Hlog, Hext, Hres.
      rewrite Hres, Hext, elem_of_union, elem_of_list_to_set.
      destruct Hdone as [-> | ->].
      * split; [intros [H|H]; [apply elem_of_nil in H; destruct H | contradiction]
               | discriminate].
      * split; [reflexivity | intros _; left; apply list_elem_of_singleton; reflexivity].
    + destruct (parse_product_page_effect fetch parse_product s w u c sc Hnot)
        as (done & Hdone & Hlog & _).
      fold page in Hlog. rewrite Hlog.
      change (Scraper.log s ++ [product_crawl u] ++ List.map Scraper.EvStored done)%list
        with (Scraper.log s ++ List.map product_crawl [u]
                ++ List.map Scraper.EvStored done)%list.
      rewrite fetches_after by apply NoDup_singleton.
      rewrite bool_decide_eq_true_2 by (apply list_elem_of_singleton; reflexivity).
      simpl. lia.
  - intros Hnot Hin Hin'.
    assert (Hst : u ∈ Scraper.product_urls_extracted sw1.1 <-> st1 = true) by (rewrite He1; tauto).
    split.
    + rewrite Hf2, Hf1. rewrite (bool_decide_eq_true_2 (u ∈ urls /\ u ∉ Scraper.product_urls_extracted s)) by tauto.
      destruct (decide (u ∈ Scraper.product_urls_extracted sw1.1)) as [Hx|Hx].
      * rewrite (bool_decide_eq_true_2 _ Hx).
        rewrite bool_decide_eq_false_2 by tauto. simpl. lia.
      * rewrite (bool_decide_eq_false_2 _ Hx).
        rewrite bool_decide_eq_true_2 by tauto. simpl. lia.
    + rewrite Hr2, Hr1. destruct st1, st2; simpl; try lia.
      exfalso. destruct (Hs2 eq_refl) as [_ Hn]. apply Hn, Hst. reflexivity.
  - intros v.
    pose proof (run_feeds_invariant fetch parse_product fs (Scraper.init, w0) Hfs
                  one_record_each_init v) as Hv.
    fold life in Hv. split; [exact Hv|].
    rewrite Hv. unfold one_if. case_bool_decide; lia.
Qed.

(** C4 as stated fails: on a site that answers no request, a product URL
    fed twice to [process_products] is fetched twice, and it is still
    unmarked after the first pass. *)
Lemma C4_failed_url_is_fetched_twice :
  let feed1 :=
    Scraper.process_products Samples.dead_fetch Samples.no_product_page
      Scraper.init tt "WOMAN" "VESTIDOS" [Samples.product_url] 5 in
  let feed2 :=
    Scraper.process_products Samples.dead_fetch Samples.no_product_page
      feed1.1 feed1.2 "WOMAN" "VESTIDOS" [Samples.product_url] 5 in
  bool_decide (Samples.product_url ∈ Scraper.product_urls_extracted feed1.1) = false /\
  fetches Samples.product_url (Scraper.log feed1.1) = 1%nat /\
  fetches Samples.product_url (Scraper.log feed2.1) = 2%nat /\
  fetches Samples.product_url (Scraper.log feed2.1) <> 1%nat.
Proof. vm_compute. repeat split. discriminate. Qed.

(** ** Pagination loop *)

Section Pagination.
Import Scraper.
Context {World Html : Type}.
Variable fetch : World -> string -> World * crawl_result Html.
Variable parse_product : Html -> option product_page.
Variable parse_listing : Html -> string -> listing_page.
Variable is_product_url : string -> bool.
Variable get_category_name_from_url : string -> string.
Variable get_subcategory_name_from_url : string -> string.

Local Abbreviation body := (loop_body fetch parse_product parse_listing is_product_url).
Local Abbreviation loop := (pagination_loop fetch parse_product parse_listing is_product_url).

(** Every execution of the body counts one page. *)
Lemma loop_body_counts (s : t) (w : World) (url : string) (max_pages : Z)
    (parent sub : string) (st : loop_state) :
  let st' := control_state (body s w url max_pages parent sub st).2 in
  page_count st' = page_count st + 1 /\ iterations st' = S (iterations st).
Proof.
  unfold loop_body.
  repeat (match goal with
          | |- context [match ?x with _ => _ end] => destruct x
          | |- context [if ?x then _ else _] => destruct x
          end; cbn [control_state snd fst page_count iterations]);
    split; reflexivity.
Qed.

(** The loop leaves within [max_pages - page_count] executions of its
    body; the page count never passes the ceiling. *)
Lemma pagination_loop_terminates (url : string) (max_pages : Z) (parent sub : string) :
  forall (fuel : nat) (s : t) (w : World) (st : loop_state),
    (Z.to_nat (max_pages - page_count st) <= fuel)%nat ->
    exists s' w' st' e,
      loop fuel s w url max_pages parent sub st = Some (s', w', st', e) /\
      page_count st' <= Z.max (page_count st) max_pages /\
      Z.of_nat (iterations st') - Z.of_nat (iterations st)
        = page_count st' - page_count st.
Proof.
  induction fuel as [|fuel IH]; intros s w st Hfuel.
  - simpl. destruct (Text.truthy (current_url st) && (page_count st <? max_pages)) eqn:G.
    + apply andb_true_iff in G as [_ G]. apply Z.ltb_lt in G. lia.
    + exists s, w, st, Completed. split; [reflexivity|]. lia.
  - simpl. destruct (Text.truthy (current_url st) && (page_count st <? max_pages)) eqn:G.
    + apply andb_true_iff in G as [_ G]. apply Z.ltb_lt in G.
      pose proof (loop_body_counts s w url max_pages parent sub st) as Hc.
      destruct (body s w url max_pages parent sub st) as [[s1 w1] [st1|st1|st1]];
        simpl in Hc; destruct Hc as [Hp Hi].
      * destruct (IH s1 w1 st1) as (s' & w' & st' & e & Hrun & Hle & Hit); [lia|].
        exists s', w', st', e. split; [exact Hrun|]. lia.
      * exists s1, w1, st1, Completed. split; [reflexivity|]. lia.
      * exists s1, w1, st1, KeyError. split; [reflexivity|]. lia.
    + exists s, w, st, Completed. split; [reflexivity|]. lia.
Qed.

(** More fuel does not change the outcome. *)
Lemma pagination_loop_fuel (url : string) (max_pages : Z) (parent sub : string) :
  forall (fuel fuel' : nat) (s : t) (w : World) (st : loop_state) r,
    loop fuel s w url max_pages parent sub st = Some r ->
    (fuel <= fuel')%nat ->
    loop fuel' s w url max_pages parent sub st = Some r.
Proof.
  induction fuel as [|fuel IH]; intros fuel' s w st r Hrun Hle.
  - simpl in Hrun.
    destruct (Text.truthy (current_url st) && (page_count st <? max_pages)) eqn:G;
      [discriminate|].
    destruct fuel'; simpl; rewrite G; exact Hrun.
  - destruct fuel' as [|fuel']; [lia|]. simpl in *.
    destruct (Text.truthy (current_url st) && (page_count st <? max_pages));
      [|exact Hrun].
    destruct (body s w url max_pages parent sub st) as [[s1 w1] [st1|st1|st1]];
      try exact Hrun.
    apply (IH fuel'); [exact Hrun | lia].
Qed.

Lemma process_subcategory_terminates (s : t) (w : World) (url : string)
    (max_pages : Z) (parent sub : string) :
  exists s' w' st' e,
    (forall fuel, (Z.to_nat max_pages <= fuel)%nat ->
       process_subcategory_with_pagination fetch parse_product parse_listing
         is_product_url fuel s w url max_pages parent sub = Some (s', w', st', e)) /\
    Z.of_nat (iterations st') = page_count st' /\
    0 <= page_count st' <= Z.max 0 max_pages.
Proof.
  destruct (pagination_loop_terminates url max_pages parent sub
              (Z.to_nat max_pages) s w (LoopState url 0 0 0 false 0))
    as (s' & w' & st' & e & Hrun & Hle & Hit).
  { simpl. rewrite Z.sub_0_r. lia. }
  simpl in Hle, Hit.
  exists s', w', st', e. split.
  - intros fuel Hfuel. unfold process_subcategory_with_pagination.
    apply (pagination_loop_fuel url max_pages parent sub (Z.to_nat max_pages));
      assumption.
  - lia.
Qed.

Local Abbreviation walk :=
  (walk_subcategories fetch parse_product parse_listing is_product_url
     get_subcategory_name_from_url).

Lemma walk_subcategories_terminates (max_pages : Z) (category : string)
    (subcategories : list string) :
  forall (s : t) (w : World) (pages : list nat),
    Forall (within max_pages) pages ->
    exists s' w' pages' e,
      (forall fuel, (Z.to_nat max_pages <= fuel)%nat ->
         walk fuel s w max_pages category subcategories pages
         = Some (s', w', pages', e)) /\
      Forall (within max_pages) pages'.
Proof.
  induction subcategories as [|sub_url rest IH]; intros s w pages Hpages.
  - exists s, w, pages, Completed. split; [reflexivity | exact Hpages].
  - simpl. destruct (is_category_complete s category).
    + exists s, w, pages, Completed. split; [reflexivity | exact Hpages].
    + destruct (process_subcategory_terminates s w sub_url max_pages category
                  (get_subcategory_name_from_url sub_url))
        as (s1 & w1 & st1 & e1 & Hrun & Hit & Hle).
      assert (Hpages' : Forall (within max_pages) (pages ++ [iterations st1])).
      { apply Forall_app. split; [exact Hpages|].
        apply Forall_singleton. unfold within. lia. }
      destruct e1.
      * destruct (IH s1 w1 _ Hpages') as (s' & w' & pages' & e & Hwalk & Hall).
        exists s', w', pages', e. split; [|exact Hall].
        intros fuel Hfuel. rewrite (Hrun fuel Hfuel). apply Hwalk, Hfuel.
      * exists s1, w1, (pages ++ [iterations st1])%list, KeyError.
        split; [|exact Hpages'].
        intros fuel Hfuel. rewrite (Hrun fuel Hfuel). reflexivity.
Qed.

Lemma crawl_with_pagination_terminates (s : t) (w : World) (start_url : string)
    (max_pages : option Z) :
  exists s' w' pages e,
    (forall fuel, (Z.to_nat (default 5%Z max_pages) <= fuel)%nat ->
       crawl_with_pagination fetch parse_product parse_listing is_product_url
         get_category_name_from_url get_subcategory_name_from_url
         fuel s w start_url max_pages = Some (s', w', pages, e)) /\
    Forall (within (default 5 max_pages)) pages.
Proof.
  unfold crawl_with_pagination.
  destruct (parse_category_page fetch parse_listing is_product_url
              (with_pages_processed
                 <[get_category_name_from_url start_url := 0]> s) w start_url)
    as [[s1 w1] data].
  destruct (walk_subcategories_terminates (default 5 max_pages)
              (get_category_name_from_url start_url) (pd_subcategories data)
              s1 w1 [] (Forall_nil_2 _))
    as (s2 & w2 & pages & e & Hwalk & Hall).
  destruct e.
  - destruct (parse_direct_products fetch parse_product is_product_url
                get_subcategory_name_from_url s2 w2
                (get_category_name_from_url start_url) (pd_products data))
      as [s3 w3] eqn:E.
    exists s3, w3, pages, Completed. split; [|exact Hall].
    intros fuel Hfuel. rewrite (Hwalk fuel Hfuel), E. reflexivity.
  - exists s2, w2, pages, KeyError. split; [|exact Hall].
    intros fuel Hfuel. rewrite (Hwalk fuel Hfuel). reflexivity.
Qed.

End Pagination.

(** C7. For every starting URL and every [max_pages],
    [process_subcategory_with_pagination] leaves its loop: with any
    fuel from [max_pages] on it returns one and the same result, after
    at most [max_pages] executions of the loop body, whatever pages and
    next-page links the site serves (the fetcher and the page parser
    are arbitrary, so the links may form a cycle).
    [crawl_with_pagination] uses the ceiling 5 when the caller gives
    none, and with its ceiling every subcategory it walks stays within
    it. *)
Theorem C7_pagination_terminates
    {World Html : Type}
    (fetch : World -> string -> World * Scraper.crawl_result Html)
    (parse_product : Html -> option Scraper.product_page)
    (parse_listing : Html -> string -> Scraper.listing_page)
    (is_product_url : string -> bool)
    (get_category_name_from_url get_subcategory_name_from_url : string -> string)
    (s : Scraper.t) (w : World) (url : string) (max_pages : Z)
    (parent_category subcategory_name : string) (ceiling : option Z) :
  (exists s' w' st' e,
     (forall fuel, (Z.to_nat max_pages <= fuel)%nat ->
        Scraper.process_subcategory_with_pagination fetch parse_product parse_listing
          is_product_url fuel s w url max_pages parent_category subcategory_name
        = Some (s', w', st', e)) /\
     Z.of_nat (Scraper.iterations st') = Scraper.page_count st' /\
     0 <= Scraper.page_count st' <= Z.max 0 max_pages) /\
  (forall fuel,
     Scraper.crawl_with_pagination fetch parse_product parse_listing is_product_url
       get_category_name_from_url get_subcategory_name_from_url fuel s w url None
     = Scraper.crawl_with_pagination fetch parse_product parse_listing is_product_url
         get_category_name_from_url get_subcategory_name_from_url fuel s w url (Some 5)) /\
  (exists s' w' pages e,
     (forall fuel, (Z.to_nat (default 5%Z ceiling) <= fuel)%nat ->
        Scraper.crawl_with_pagination fetch parse_product parse_listing is_product_url
          get_category_name_from_url get_subcategory_name_from_url fuel s w url ceiling
        = Some (s', w', pages, e)) /\
     Forall (fun n => Z.of_nat n <= Z.max 0 (default 5 ceiling)) pages).
Proof.
  split; [apply process_subcategory_terminates|].
  split; [reflexivity|].
  apply crawl_with_pagination_terminates.
Qed.

(** On two pages that link to each other the walk alternates between
    them and is stopped by the ceiling: four iterations for a ceiling of
    four, back on the first page. *)
Example pagination_on_a_cycle :
  let run fuel :=
    Scraper.process_subcategory_with_pagination Samples.cycle_fetch
      Samples.cycle_product Samples.cycle_listing (Text.contains "/producto/")
      fuel Samples.cycle_start tt Samples.page_a 4 "WOMAN" "JEANS" in
  Scraper.find_next_page_url [Samples.page_b] Samples.page_a = Some Samples.page_b /\
  Scraper.find_next_page_url [Samples.page_a] Samples.page_b = Some Samples.page_a /\
  (fun r => (Scraper.current_url r.1.2, Scraper.page_count r.1.2,
             Scraper.iterations r.1.2, r.2)) <$> run 4%nat
    = Some (Samples.page_a, 4, 4%nat, Scraper.Completed) /\
  run 50%nat = run 4%nat /\
  run 3%nat = None.
Proof. vm_compute. repeat split. Qed.

(** ** The theorems at sample inputs *)

Lemma C9_sizes_subset_witness :
  let info :=
    Scraper.build_product_info Samples.product_url "WOMAN" "VESTIDOS"
      Samples.dress_page in
  let item_data :=
    Worker.make_item_data (fun _ => 180000) (fun _ _ => None) 7 "WOMAN" "VESTIDOS"
      (Worker.normalize info) in
  Scraper.pi_talles_todos info = ["38/XS"; "M"; "L"] /\
  Scraper.pi_talles_disponibles info = ["38/XS"; "L"; "L"] /\
  SupabaseClient.d_sizes item_data = ["38/XS"; "M"; "L"] /\
  SupabaseClient.d_sizes_available item_data = Some ["38/XS"; "L"] /\
  (forall x, x ∈ Scraper.pi_talles_disponibles info ->
             x ∈ Scraper.pi_talles_todos info) /\
  (forall x, x ∈ default [] (SupabaseClient.d_sizes_available item_data) ->
             x ∈ SupabaseClient.d_sizes item_data).
Proof.
  intros info item_data.
  split; [vm_compute; reflexivity|]. split; [vm_compute; reflexivity|].
  split; [vm_compute; reflexivity|]. split; [vm_compute; reflexivity|].
  apply (C9_sizes_subset Samples.live_fetch Samples.dress_parse
           (fun _ => 180000) (fun _ _ => None)
           Scraper.init
           (Scraper.extract_product_details Samples.live_fetch Samples.dress_parse
              Scraper.init tt Samples.product_url "WOMAN" "VESTIDOS").1.1
           tt tt Samples.product_url "WOMAN" "VESTIDOS" info 7).
  vm_compute. reflexivity.
Defined.

Lemma C8_sync_product_availability_witness :
  keyed (SupabaseClient.items Samples.jean_db) /\
  SupabaseClient.items
    (SupabaseClient.sync_product_availability 10 Samples.jean_db 7
       [Samples.jean_reordered_observed])
  = List.map (reconciled 10 7 [Samples.jean_reordered_observed])
      (SupabaseClient.items Samples.jean_db) /\
  SupabaseClient.items
    (SupabaseClient.sync_product_availability 10 Samples.jean_db 7 [])
  = [SupabaseClient.set_unavailable 10 Samples.jean].
Proof.
  assert (K : keyed (SupabaseClient.items Samples.jean_db)).
  { split; apply NoDup_singleton. }
  split; [exact K|]. split.
  - exact (proj1 (C8_sync_product_availability 10 Samples.jean_db 7
                    [Samples.jean_reordered_observed] K)).
  - rewrite (proj1 (C8_sync_product_availability 10 Samples.jean_db 7 [] K)).
    vm_compute. reflexivity.
Defined.

Lemma C4_extraction_dedup_witness :
  let u := Samples.product_url in
  let sw1 :=
    Scraper.process_products Samples.live_fetch Samples.dress_parse
      Scraper.init tt "WOMAN" "VESTIDOS" [u] 5 in
  let sw2 :=
    Scraper.process_products Samples.live_fetch Samples.dress_parse
      sw1.1 sw1.2 "WOMAN" "VESTIDOS" [u] 5 in
  NoDup [u] /\
  Forall feed_ok [FeedSet [u] "WOMAN" "VESTIDOS" 5; FeedPage u "WOMAN" "VESTIDOS"] /\
  bool_decide (u ∈ Scraper.product_urls_extracted sw1.1) = true /\
  fetches u (Scraper.log sw2.1) = 1%nat /\
  (records u (Scraper.log sw2.1) <= 1)%nat.
Proof.
  intros u sw1 sw2.
  assert (N : NoDup [u]) by apply NoDup_singleton.
  assert (F : Forall feed_ok
                [FeedSet [u] "WOMAN" "VESTIDOS" 5; FeedPage u "WOMAN" "VESTIDOS"]).
  { constructor; [exact N|]. constructor; [exact I | constructor]. }
  assert (E : bool_decide (u ∈ Scraper.product_urls_extracted sw1.1) = true)
    by (vm_compute; reflexivity).
  split; [exact N|]. split; [exact F|]. split; [exact E|].
  destruct (C4_extraction_dedup Samples.live_fetch Samples.dress_parse
              Scraper.init tt tt "WOMAN" "VESTIDOS" "WOMAN" "VESTIDOS"
              [u] [u] 5 5 u _ N N F) as (_ & _ & Htwice & _).
  assert (Hnot : u ∉ Scraper.product_urls_extracted Scraper.init).
  { apply not_elem_of_empty. }
  assert (Hin : u ∈ [u]) by (apply list_elem_of_singleton; reflexivity).
  destruct (Htwice Hnot Hin Hin) as [Hf Hr].
  fold sw1 sw2 in Hf, Hr. rewrite E in Hf. split; [exact Hf | exact Hr].
Defined.

(** * Further properties of the sync layer *)

Section UpsertMore.
Import SupabaseClient.

Lemma find_map_preserving {A} (f : A -> bool) (g : A -> A) (l : list A) :
  (forall a, f (g a) = f a) ->
  List.find f (List.map g l) = g <$> List.find f l.
Proof.
  intros Hg. induction l as [|a l IH]; simpl; [reflexivity|].
  rewrite Hg. destruct (f a); [reflexivity | exact IH].
Qed.

Lemma updated_row_idem (now : Z) (x : item_data) (r : item) :
  updated_row now x (updated_row now x r) = updated_row now x r.
Proof. reflexivity. Qed.

Lemma same_key_inserted (now id : Z) (x : item_data) :
  same_key x (inserted_row now id x) = true.
Proof. unfold same_key. simpl. rewrite String.eqb_refl, Z.eqb_refl. reflexivity. Qed.

(** The row found under the record's key after the upsert. *)
Lemma upsert_item_then_find (now : Z) (d : db) (x : item_data) :
  exists row,
    List.find (same_key x) (items (upsert_item now d x).1) = Some row /\
    (upsert_item now d x).2 = Some (item_id row) /\
    row = match List.find (same_key x) (items d) with
          | Some existing => updated_row now x existing
          | None => inserted_row now (next_item_id d) x
          end.
Proof.
  pose proof (upsert_item_contract now d x) as Hc.
  destruct (List.find (same_key x) (items d)) as [r|] eqn:E.
  - destruct Hc as (Hid & Hitems & _).
    exists (updated_row now x r). rewrite Hitems, Hid. unfold update_where.
    rewrite find_map_preserving.
    + rewrite E. simpl. rewrite Z.eqb_refl. auto.
    + intros a. destruct (item_id a =? item_id r); reflexivity.
  - destruct Hc as (Hid & Hitems & _).
    exists (inserted_row now (next_item_id d) x). rewrite Hitems, Hid, find_app, E.
    simpl. rewrite same_key_inserted. auto.
Qed.

End UpsertMore.

(** After [upsert_item], looking the record's natural key up again finds
    a row that carries the returned id, the record's name and brand, and
    the record's description, price, sizes, available sizes and
    availability (with the defaults of [.get]), stamped with the time of
    the call. *)
Theorem X_upsert_item_round_trip
    (now : Z) (d : SupabaseClient.db) (x : SupabaseClient.item_data) :
  exists row,
    List.find (same_key x) (SupabaseClient.items (SupabaseClient.upsert_item now d x).1)
      = Some row /\
    (SupabaseClient.upsert_item now d x).2 = Some (SupabaseClient.item_id row) /\
    SupabaseClient.name row = SupabaseClient.d_name x /\
    SupabaseClient.brand_id row = SupabaseClient.d_brand_id x /\
    SupabaseClient.description row = SupabaseClient.d_description x /\
    SupabaseClient.price row = SupabaseClient.d_price x /\
    SupabaseClient.sizes row = SupabaseClient.d_sizes x /\
    SupabaseClient.sizes_available row
      = Some (default [] (SupabaseClient.d_sizes_available x)) /\
    SupabaseClient.available row = default true (SupabaseClient.d_available x) /\
    SupabaseClient.updated_at row = now.
Proof.
  destruct (upsert_item_then_find now d x) as (row & Hfind & Hid & Hrow).
  exists row. split; [exact Hfind|]. split; [exact Hid|].
  destruct (List.find (same_key x) (SupabaseClient.items d)) as [r|] eqn:E; subst row.
  - apply List.find_some in E as [_ Hk]. unfold same_key in Hk.
    apply andb_true_iff in Hk as [Hn Hb].
    apply String.eqb_eq in Hn. apply Z.eqb_eq in Hb. simpl. tauto.
  - simpl. tauto.
Qed.

Section UpsertTwice.
Import SupabaseClient.

Lemma upsert_item_second (now now' : Z) (d : db) (x : item_data) :
  (forall r, In r (items d) -> item_id r < next_item_id d) ->
  let first := upsert_item now d x in
  let second := upsert_item now' first.1 x in
  second.2 = first.2 /\
  length (items second.1) = length (items first.1) /\
  next_item_id second.1 = next_item_id first.1 /\
  (now' = now -> items second.1 = items first.1).
Proof.
  intros Hids first second.
  destruct (upsert_item_then_find now d x) as (row & Hfind & Hid & Hrow).
  fold first in Hfind, Hid.
  pose proof (upsert_item_contract now' first.1 x) as Hc. fold second in Hc.
  rewrite Hfind in Hc. destruct Hc as (Hid2 & Hitems2 & _).
  assert (Hnext : next_item_id second.1 = next_item_id first.1).
  { unfold second, upsert_item. fold (same_key x). rewrite Hfind. simpl.
    destruct (available row && _); destruct (negb (bool_decide _)); reflexivity. }
  split; [congruence|]. split; [rewrite Hitems2; apply length_map|].
  split; [exact Hnext|].
  intros ->. rewrite Hitems2. unfold update_where.
  rewrite <- (List.map_id (items first.1)) at 2. apply List.map_ext_in.
  intros r Hr. destruct (Z.eqb_spec (item_id r) (item_id row)) as [Heq|]; [|reflexivity].
  pose proof (upsert_item_contract now d x) as Hc1. fold first in Hc1.
  destruct (List.find (same_key x) (items d)) as [r0|] eqn:E.
  - destruct Hc1 as (_ & Hitems1 & _). rewrite Hitems1 in Hr.
    apply in_map_iff in Hr as (r1 & Hr1 & Hin1). subst row r.
    simpl in Heq. destruct (Z.eqb_spec (item_id r1) (item_id r0)) as [H1|H1].
    + reflexivity.
    + simpl in Heq. rewrite <- Heq in H1.
      destruct (item_id r1 =? item_id r0) eqn:E1 in Heq; simpl in Heq; congruence.
  - destruct Hc1 as (_ & Hitems1 & _). rewrite Hitems1 in Hr. subst row. simpl in Heq.
    apply in_app_or in Hr as [Hr|[<-|[]]].
    + specialize (Hids r Hr). lia.
    + reflexivity.
Qed.

End UpsertTwice.

(** [upsert_item] is idempotent: in a store whose identifiers were all
    issued by the sequence, applying the same record a second time
    returns the same id and adds no row, whatever the time of the second
    call; at the same time stamp it leaves the rows exactly as the first
    call left them. *)
Theorem X_upsert_item_idempotent
    (now now' : Z) (d : SupabaseClient.db) (x : SupabaseClient.item_data) :
  store_ok d ->
  let first := SupabaseClient.upsert_item now d x in
  let second := SupabaseClient.upsert_item now' first.1 x in
  second.2 = first.2 /\
  length (SupabaseClient.items second.1) = length (SupabaseClient.items first.1) /\
  (length (SupabaseClient.items first.1) <= S (length (SupabaseClient.items d)))%nat /\
  (now' = now -> SupabaseClient.items second.1 = SupabaseClient.items first.1).
Proof.
  intros [_ Hids] first second.
  destruct (upsert_item_second now now' d x Hids) as (H1 & H2 & _ & H4).
  fold first second in H1, H2, H4.
  split; [exact H1|]. split; [exact H2|]. split; [|exact H4].
  pose proof (upsert_item_contract now d x) as Hc. fold first in Hc.
  destruct (List.find (same_key x) (SupabaseClient.items d)).
  - destruct Hc as (_ & -> & _). unfold SupabaseClient.update_where.
    rewrite length_map. lia.
  - destruct Hc as (_ & -> & _). rewrite length_app. simpl. lia.
Qed.

(** The natural key is an invariant of [upsert_item]: from a store in
    which [item_id] and [(name, brand_id)] each identify a row and every
    identifier was issued by the sequence, the upsert leads to such a
    store again, so no second row is ever created under a key. *)
Theorem X_upsert_item_keeps_natural_key
    (now : Z) (d : SupabaseClient.db) (x : SupabaseClient.item_data) :
  store_ok d -> store_ok (SupabaseClient.upsert_item now d x).1.
Proof. apply upsert_item_store_ok. Qed.

(** An update is confined to the row of the key, and in that row to the
    columns the [UPDATE] names: the category, the subcategory and the
    creation time of a stored item are never rewritten, whatever the
    record carries, and every other row is left as it was. *)
Theorem X_upsert_item_update_scope
    (now : Z) (d : SupabaseClient.db) (x : SupabaseClient.item_data)
    (existing : SupabaseClient.item) :
  store_ok d ->
  List.find (same_key x) (SupabaseClient.items d) = Some existing ->
  let d' := (SupabaseClient.upsert_item now d x).1 in
  length (SupabaseClient.items d') = length (SupabaseClient.items d) /\
  (forall r, In r (SupabaseClient.items d) -> r <> existing ->
             In r (SupabaseClient.items d')) /\
  exists row,
    List.find (same_key x) (SupabaseClient.items d') = Some row /\
    key_of row = key_of existing /\
    SupabaseClient.main_category_id row = SupabaseClient.main_category_id existing /\
    SupabaseClient.subcategory_id row = SupabaseClient.subcategory_id existing /\
    SupabaseClient.created_at row = SupabaseClient.created_at existing.
Proof.
  intros [[Kid _] _] Hfind d'.
  pose proof (upsert_item_contract now d x) as Hc. rewrite Hfind in Hc.
  destruct Hc as (_ & Hitems & _). fold d' in Hitems.
  destruct (upsert_item_then_find now d x) as (row & Hrow & _ & Hdef).
  fold d' in Hrow. rewrite Hfind in Hdef.
  split; [rewrite Hitems; apply length_map|]. split.
  - intros r Hr Hne. rewrite Hitems. unfold SupabaseClient.update_where.
    apply in_map_iff. exists r. split; [|exact Hr].
    destruct (Z.eqb_spec (SupabaseClient.item_id r) (SupabaseClient.item_id existing))
      as [E|E]; [|reflexivity].
    apply List.find_some in Hfind as [Hin _].
    exfalso. apply Hne.
    exact (NoDup_map_eq SupabaseClient.item_id _ r existing Kid Hr Hin E).
  - exists row. split; [exact Hrow|]. subst row. repeat split.
Qed.

Section DependentsMore.
Import SupabaseClient.

Lemma image_rows_primary (now id : Z) (c : option Z) (urls : list string) (idx : nat) :
  List.map image_url (List.filter is_primary (image_rows now id c idx urls)) =
  match idx with O => take 1 urls | S _ => [] end.
Proof.
  revert idx. induction urls as [|u urls IH]; intros idx.
  - destruct idx; reflexivity.
  - specialize (IH (S idx)). destruct idx; simpl in *; rewrite IH; reflexivity.
Qed.

Lemma filter_filter_comm {A} (f g : A -> bool) (l : list A) :
  List.filter f (List.filter g l) = List.filter g (List.filter f l).
Proof.
  induction l as [|a l IH]; simpl; [reflexivity|].
  destruct (f a) eqn:Ef, (g a) eqn:Eg; simpl; rewrite ?Ef, ?Eg, IH; reflexivity.
Qed.

Lemma image_rows_columns (now now' id : Z) (c : option Z) (urls : list string)
    (idx : nat) :
  List.map image_columns (image_rows now' id c idx urls)
  = List.map image_columns (image_rows now id c idx urls).
Proof.
  revert idx. induction urls as [|u urls IH]; intros idx; simpl; [reflexivity|].
  rewrite IH. reflexivity.
Qed.

Lemma insert_color_links_columns (now now' id : Z) (ids : list Z) :
  forall rows rows',
    List.map link_columns rows' = List.map link_columns rows ->
    List.map link_columns (insert_color_links now' id ids rows')
    = List.map link_columns (insert_color_links now id ids rows).
Proof.
  induction ids as [|c ids IH]; intros rows rows' H; simpl; [exact H|].
  assert (E : forall l,
    existsb (fun r => (link_item_id r =? id) && (link_color_id r =? c)) l
    = existsb (fun p : Z * Z => (p.1 =? id) && (p.2 =? c)) (List.map link_columns l)).
  { induction l as [|r l IHl]; simpl; [reflexivity|]. rewrite IHl. reflexivity. }
  rewrite (E rows'), (E rows), H.
  destruct (existsb _ _); apply IH; [exact H|].
  rewrite !List.map_app, H. reflexivity.
Qed.

End DependentsMore.

(** After [upsert_item_images] with a non-empty list the item has exactly
    one primary image, and it is the first URL of the list. *)
Theorem X_upsert_item_images_one_primary
    (now : Z) (d : SupabaseClient.db) (id : Z) (image_urls : list string)
    (color_id : option Z) :
  image_urls <> [] ->
  List.map SupabaseClient.image_url
    (List.filter SupabaseClient.is_primary
       (List.filter (image_of id)
          (SupabaseClient.item_images
             (SupabaseClient.upsert_item_images now d id image_urls color_id))))
  = take 1 image_urls.
Proof.
  intros Hne.
  rewrite (upsert_item_images_rows now d id image_urls color_id Hne).
  rewrite List.filter_app, (filter_negb_filter (image_of id)). simpl.
  rewrite (filter_all (image_of id)) by apply image_rows_item.
  apply image_rows_primary.
Qed.

(** Replacing the dependent entities twice.  A second
    [upsert_item_images] (or [link_item_colors]) with the same arguments
    deletes the first call's rows and inserts them again, stamped
    [created_at = NOW()] of the second call: the table is what a single
    call at that time leaves, so every column other than [created_at] is
    as the first call left it, and at the same time stamp the table is
    exactly as the first call left it. *)
Theorem X_dependents_replacement_idempotent
    (now now' : Z) (d : SupabaseClient.db) (id : Z) (image_urls : list string)
    (color_id : option Z) (color_ids : list Z) :
  let d1 := SupabaseClient.upsert_item_images now d id image_urls color_id in
  let d1' := SupabaseClient.upsert_item_images now' d1 id image_urls color_id in
  let d2 := SupabaseClient.link_item_colors now d id color_ids in
  let d2' := SupabaseClient.link_item_colors now' d2 id color_ids in
  SupabaseClient.item_images d1'
    = SupabaseClient.item_images
        (SupabaseClient.upsert_item_images now' d id image_urls color_id) /\
  List.map image_columns (SupabaseClient.item_images d1')
    = List.map image_columns (SupabaseClient.item_images d1) /\
  (now' = now -> SupabaseClient.item_images d1' = SupabaseClient.item_images d1) /\
  SupabaseClient.item_x_item_colors d2'
    = SupabaseClient.item_x_item_colors
        (SupabaseClient.link_item_colors now' d id color_ids) /\
  List.map link_columns (SupabaseClient.item_x_item_colors d2')
    = List.map link_columns (SupabaseClient.item_x_item_colors d2) /\
  (now' = now ->
   SupabaseClient.item_x_item_colors d2' = SupabaseClient.item_x_item_colors d2).
Proof.
  intros d1 d1' d2 d2'.
  assert (Himg : SupabaseClient.item_images d1'
                 = SupabaseClient.item_images
                     (SupabaseClient.upsert_item_images now' d id image_urls color_id)).
  { destruct image_urls as [|u urls]; [reflexivity|].
    unfold d1', d1.
    rewrite (upsert_item_images_rows now' _ id (u :: urls) color_id) by discriminate.
    rewrite (upsert_item_images_rows now d id (u :: urls) color_id) by discriminate.
    rewrite (upsert_item_images_rows now' d id (u :: urls) color_id) by discriminate.
    rewrite List.filter_app.
    rewrite (filter_none (fun r => negb (image_of id r))
               (SupabaseClient.image_rows now id color_id 0 (u :: urls))).
    - rewrite filter_idem, app_nil_r. reflexivity.
    - intros r Hr. rewrite (image_rows_item _ _ _ _ _ _ Hr). reflexivity. }
  assert (E : forall t d0 c ids,
    SupabaseClient.item_x_item_colors
      (SupabaseClient.link_item_colors t d0 id (c :: ids)) =
    SupabaseClient.insert_color_links t id (c :: ids)
      (List.filter (fun r => negb (link_of id r))
         (SupabaseClient.item_x_item_colors d0))) by reflexivity.
  assert (Hoth : forall c ids,
    List.filter (fun r => negb (link_of id r))
      (SupabaseClient.item_x_item_colors
         (SupabaseClient.link_item_colors now d id (c :: ids)))
    = List.filter (fun r => negb (link_of id r)) (SupabaseClient.item_x_item_colors d)).
  { intros c ids.
    destruct (link_item_colors_rows now d id (c :: ids)) as (H & _); [discriminate|].
    exact H. }
  assert (Hlink : SupabaseClient.item_x_item_colors d2'
                  = SupabaseClient.item_x_item_colors
                      (SupabaseClient.link_item_colors now' d id color_ids)).
  { destruct color_ids as [|c ids]; [reflexivity|].
    unfold d2', d2. rewrite (E now' _ c ids), (E now' d c ids), Hoth. reflexivity. }
  split; [exact Himg|]. split; [|split; [|split; [exact Hlink|split]]].
  - rewrite Himg. unfold d1.
    destruct image_urls as [|u urls]; [reflexivity|].
    rewrite (upsert_item_images_rows now' d id (u :: urls) color_id) by discriminate.
    rewrite (upsert_item_images_rows now d id (u :: urls) color_id) by discriminate.
    rewrite !List.map_app. f_equal. apply image_rows_columns.
  - intros ->. exact Himg.
  - rewrite Hlink. unfold d2.
    destruct color_ids as [|c ids]; [reflexivity|].
    rewrite (E now' d c ids), (E now d c ids).
    apply insert_color_links_columns. reflexivity.
  - intros ->. exact Hlink.
Qed.

Section Colors.
Import SupabaseClient.

Lemma get_color_id_cases (d : db) (n : string) :
  match List.find (named n) (item_colors d) with
  | Some c => get_color_id d n = (d, Some (color_id c))
  | None =>
      (get_color_id d n).2 = Some (next_color_id d) /\
      item_colors (get_color_id d n).1 =
        (item_colors d ++ [Color (next_color_id d) (Text.upper n) (_color_name_to_hex n)])%list /\
      next_color_id (get_color_id d n).1 = next_color_id d + 1 /\
      items (get_color_id d n).1 = items d
  end.
Proof.
  unfold get_color_id. fold (named n).
  destruct (List.find (named n) (item_colors d)); simpl; auto.
Qed.

Lemma get_color_id_found (d : db) (n : string) :
  exists c,
    List.find (named n) (item_colors (get_color_id d n).1) = Some c /\
    (get_color_id d n).2 = Some (color_id c) /\
    color_name c = Text.upper n.
Proof.
  pose proof (get_color_id_cases d n) as H.
  destruct (List.find (named n) (item_colors d)) as [c|] eqn:E.
  - rewrite H. simpl. exists c. split; [exact E|]. split; [reflexivity|].
    apply List.find_some in E as [_ E]. apply String.eqb_eq in E. exact E.
  - destruct H as (Hid & Hrows & _). rewrite Hrows, Hid, find_app, E. simpl.
    unfold named at 1. simpl. rewrite String.eqb_refl.
    eexists. split; [reflexivity|]. split; reflexivity.
Qed.

Lemma get_color_id_colors_ok (d : db) (n : string) :
  colors_ok d -> colors_ok (get_color_id d n).1.
Proof.
  intros (Hnd & Hndi & Hids). pose proof (get_color_id_cases d n) as H.
  destruct (List.find (named n) (item_colors d)) as [c|] eqn:E.
  - rewrite H. repeat split; assumption.
  - destruct H as (_ & Hrows & Hnext & _). unfold colors_ok. rewrite Hrows, Hnext.
    split; [|split].
    + rewrite List.map_app. simpl. apply NoDup_app. split; [exact Hnd|].
      split; [|apply NoDup_singleton].
      intros x Hx Hx'. apply list_elem_of_singleton in Hx'. subst x.
      apply list_elem_of_In, in_map_iff in Hx as (c0 & Hn & Hc0).
      eapply List.find_none in E; [|exact Hc0].
      unfold named in E. rewrite Hn, String.eqb_refl in E. discriminate.
    + rewrite List.map_app. simpl. apply NoDup_app. split; [exact Hndi|].
      split; [|apply NoDup_singleton].
      intros x Hx Hx'. apply list_elem_of_singleton in Hx'. subst x.
      apply list_elem_of_In, in_map_iff in Hx as (c0 & Hn & Hc0).
      specialize (Hids c0 Hc0). lia.
    + intros c Hc. apply in_app_or in Hc as [Hc|[<-|[]]].
      * specialize (Hids c Hc). lia.
      * simpl. lia.
Qed.

Lemma find_named_ext (n n' : string) (l : list color) :
  Text.upper n' = Text.upper n -> List.find (named n') l = List.find (named n) l.
Proof.
  intros Hup. induction l as [|a l IH]; simpl; [reflexivity|].
  unfold named at 1 3. rewrite Hup, IH. reflexivity.
Qed.

End Colors.

(** [get_color_id] always resolves a name, and it identifies names up
    to case: asking again for any name with the same upper-case form
    returns the same id and changes nothing.  In a color table with one
    row per name and per id, two names resolve to the same id exactly
    when their upper-case forms are equal, and the table stays of that
    kind. *)
Theorem X_get_color_id_up_to_case
    (d : SupabaseClient.db) (n n' : string) :
  colors_ok d ->
  let first := SupabaseClient.get_color_id d n in
  let second := SupabaseClient.get_color_id first.1 n' in
  colors_ok first.1 /\
  (exists id, first.2 = Some id) /\
  (Text.upper n' = Text.upper n -> second = first) /\
  (second.2 = first.2 <-> Text.upper n' = Text.upper n).
Proof.
  intros Hok first second.
  pose proof (get_color_id_colors_ok d n Hok) as Hok1. fold first in Hok1.
  destruct (get_color_id_found d n) as (c & Hfind & Hid & Hname). fold first in Hfind, Hid.
  assert (Hsame : Text.upper n' = Text.upper n -> second = first).
  { intros Hup. pose proof (get_color_id_cases first.1 n') as H. fold second in H.
    rewrite (find_named_ext n n' _ Hup), Hfind in H.
    rewrite H. destruct first as [d1 r1]. simpl in *. congruence. }
  split; [exact Hok1|]. split; [eauto|]. split; [exact Hsame|].
  split; [|intros Hup; rewrite (Hsame Hup); reflexivity].
  intros Heq. rewrite Hid in Heq.
  pose proof (get_color_id_cases first.1 n') as H. fold second in H.
  apply List.find_some in Hfind as [Hin1 _].
  destruct Hok1 as (_ & Hndi & Hids1).
  destruct (List.find (named n') (SupabaseClient.item_colors first.1)) as [c2|] eqn:E.
  - rewrite H in Heq. simpl in Heq. injection Heq as Heq.
    apply List.find_some in E as [Hin2 Hn2]. apply String.eqb_eq in Hn2.
    rewrite <- Hn2, <- Hname. f_equal.
    exact (NoDup_map_eq SupabaseClient.color_id _ _ _ Hndi Hin2 Hin1 Heq).
  - destruct H as (Hid2 & _). rewrite Hid2 in Heq. injection Heq as Heq.
    specialize (Hids1 c Hin1). lia.
Qed.

Section SyncMore.
Import SupabaseClient.

Lemma reconciled_idem (now brand : Z) (ps : list product_data) (r : item) :
  reconciled now brand ps (reconciled now brand ps r) = reconciled now brand ps r.
Proof.
  unfold reconciled.
  destruct (negb (brand_id r =? brand)) eqn:Eb; [rewrite Eb; reflexivity|].
  destruct (last_observation (name r) ps) as [p|] eqn:Eo.
  - cbn [brand_id name set_availability]. rewrite Eb, Eo. reflexivity.
  - destruct (available r) eqn:Ea.
    + cbn [brand_id name available set_unavailable]. rewrite Eb, Eo. reflexivity.
    + rewrite Eb, Eo, Ea. reflexivity.
Qed.

Lemma reconciled_nil (now brand : Z) (r : item) :
  reconciled now brand [] r = delisted now brand r.
Proof.
  unfold reconciled, delisted, last_observation. simpl.
  destruct (brand_id r =? brand); reflexivity.
Qed.

Lemma reconciled_again (now now' brand : Z) (ps : list product_data) (r : item) :
  reconciled now' brand ps (reconciled now brand ps r)
  = restamped now' brand ps (reconciled now brand ps r).
Proof.
  unfold reconciled, restamped, observed_row.
  destruct (brand_id r =? brand) eqn:Eb; cbn [negb].
  2:{ rewrite Eb. reflexivity. }
  destruct (last_observation (name r) ps) as [p|] eqn:Eo.
  - cbn [brand_id name set_availability]. rewrite Eb, Eo. cbn [negb andb].
    rewrite bool_decide_eq_true_2 by (eexists; reflexivity). reflexivity.
  - assert (Hn : bool_decide (is_Some (@None product_data)) = false)
      by (apply bool_decide_eq_false_2; intros [x Hx]; discriminate Hx).
    destruct (available r) eqn:Ea.
    + cbn [brand_id name available set_unavailable]. rewrite Eb, Eo, Hn. reflexivity.
    + rewrite Eb, Eo, Ea, Hn. reflexivity.
Qed.

End SyncMore.

(** Running [sync_product_availability] a second time with the same
    scraped list.  The update loop writes every observed row again with
    [updated_at = NOW()], so the second run changes exactly the
    [updated_at] stamp of the rows of the brand that the list observes
    and no other column and no other row; at the same time stamp the
    table is as the first run left it.  A run never creates or deletes a
    row: the identifiers and natural keys of the table are the same, in
    the same order, before and after. *)
Theorem X_sync_product_availability_idempotent
    (now now' : Z) (d : SupabaseClient.db) (brand : Z)
    (ps : list SupabaseClient.product_data) :
  keyed (SupabaseClient.items d) ->
  let once := SupabaseClient.sync_product_availability now d brand ps in
  let twice := SupabaseClient.sync_product_availability now' once brand ps in
  SupabaseClient.items twice
    = List.map (restamped now' brand ps) (SupabaseClient.items once) /\
  (now' = now -> SupabaseClient.items twice = SupabaseClient.items once) /\
  List.map key_of (SupabaseClient.items once) = List.map key_of (SupabaseClient.items d) /\
  keyed (SupabaseClient.items once).
Proof.
  intros K once twice.
  pose proof (sync_product_availability_keyed now d brand ps K) as K1. fold once in K1.
  unfold twice. rewrite (sync_product_availability_items now' once brand ps K1).
  unfold once. rewrite (sync_product_availability_items now d brand ps K).
  split; [|split; [|split]].
  - rewrite !List.map_map. apply List.map_ext. intros r. apply reconciled_again.
  - intros ->. rewrite List.map_map. apply List.map_ext. intros r.
    apply reconciled_idem.
  - rewrite List.map_map. apply List.map_ext. intros r. apply reconciled_key.
  - apply keyed_map; [apply reconciled_key | exact K].
Qed.

(** A run of [sync_product_availability] with an empty scraped list
    delists the brand: every row of the brand that was available is set
    unavailable (and stamped), every other row is left as it was. *)
Theorem X_sync_product_availability_empty
    (now : Z) (d : SupabaseClient.db) (brand : Z) :
  keyed (SupabaseClient.items d) ->
  SupabaseClient.items (SupabaseClient.sync_product_availability now d brand []) =
  List.map (delisted now brand) (SupabaseClient.items d).
Proof.
  intros K. rewrite (sync_product_availability_items now d brand [] K).
  apply List.map_ext. intros r. apply reconciled_nil.
Qed.

Section Replay.
Import SupabaseClient.
Variable normalize_price : string -> Z.
Variable get_rapsodia_category_mapping : string -> string -> option (Z * Z).

Local Abbreviation make_item_data :=
  (Worker.make_item_data normalize_price get_rapsodia_category_mapping).
Local Abbreviation sync_record :=
  (Worker.sync_record normalize_price get_rapsodia_category_mapping).

(** Each operation reads and writes its own tables. *)
Lemma upsert_item_local (now : Z) (d d0 : db) (x : item_data) :
  items d0 = items d -> next_item_id d0 = next_item_id d ->
  (upsert_item now d0 x).2 = (upsert_item now d x).2 /\
  items (upsert_item now d0 x).1 = items (upsert_item now d x).1 /\
  next_item_id (upsert_item now d0 x).1 = next_item_id (upsert_item now d x).1.
Proof.
  destruct d, d0. simpl. intros -> ->. unfold upsert_item. simpl.
  destruct (List.find _ _); simpl.
  - repeat match goal with |- context [if ?c then _ else _] => destruct c end;
      simpl; auto.
  - auto.
Qed.

Lemma upsert_item_sequences (now : Z) (d : db) (x : item_data) :
  next_color_id (upsert_item now d x).1 = next_color_id d.
Proof.
  unfold upsert_item. destruct (List.find _ _); simpl; [|reflexivity].
  repeat match goal with |- context [if ?c then _ else _] => destruct c end;
    reflexivity.
Qed.

Lemma get_color_id_local (d d0 : db) (n : string) :
  item_colors d0 = item_colors d -> next_color_id d0 = next_color_id d ->
  (get_color_id d0 n).2 = (get_color_id d n).2 /\
  item_colors (get_color_id d0 n).1 = item_colors (get_color_id d n).1 /\
  next_color_id (get_color_id d0 n).1 = next_color_id (get_color_id d n).1.
Proof.
  destruct d, d0. simpl. intros -> ->. unfold get_color_id. simpl.
  destruct (List.find _ _); simpl; auto.
Qed.

Lemma get_color_id_items (d : db) (n : string) :
  items (get_color_id d n).1 = items d /\
  next_item_id (get_color_id d n).1 = next_item_id d.
Proof. unfold get_color_id. destruct (List.find _ _); simpl; auto. Qed.

Lemma get_color_id_some (d : db) (n : string) :
  exists id, (get_color_id d n).2 = Some id.
Proof. unfold get_color_id. destruct (List.find _ _); simpl; eauto. Qed.

Lemma resolve_colors_local (colors : list string) :
  forall (d d0 : db) (acc : list Z),
    item_colors d0 = item_colors d -> next_color_id d0 = next_color_id d ->
    (Worker.resolve_colors d0 colors acc).2 = (Worker.resolve_colors d colors acc).2 /\
    item_colors (Worker.resolve_colors d0 colors acc).1
      = item_colors (Worker.resolve_colors d colors acc).1 /\
    next_color_id (Worker.resolve_colors d0 colors acc).1
      = next_color_id (Worker.resolve_colors d colors acc).1.
Proof.
  induction colors as [|c colors IH]; intros d d0 acc Hc Hn; simpl; [auto|].
  destruct (get_color_id_local d d0 c Hc Hn) as (H2 & Hc' & Hn').
  destruct (get_color_id d0 c) as [e0 r0], (get_color_id d c) as [e r].
  simpl in *. subst r0. destruct r; apply IH; assumption.
Qed.

Lemma resolve_colors_items (colors : list string) :
  forall (d : db) (acc : list Z),
    items (Worker.resolve_colors d colors acc).1 = items d /\
    next_item_id (Worker.resolve_colors d colors acc).1 = next_item_id d.
Proof.
  induction colors as [|c colors IH]; intros d acc; simpl; [auto|].
  pose proof (get_color_id_items d c) as [H1 H2].
  destruct (get_color_id d c) as [e r]. simpl in *.
  destruct r as [z|]; [destruct (IH e (acc ++ [z])%list) | destruct (IH e acc)];
    split; congruence.
Qed.

Lemma get_color_id_stable (d d' dx : db) (n : string) (id : Z) (more : list color) :
  get_color_id d n = (d', Some id) ->
  item_colors dx = (item_colors d' ++ more)%list ->
  get_color_id dx n = (dx, Some id).
Proof.
  intros H Hx. destruct (get_color_id_found d n) as (c & Hfind & Hid & _).
  rewrite H in Hfind, Hid. simpl in Hfind, Hid. injection Hid as ->.
  pose proof (get_color_id_cases dx n) as Hc.
  rewrite Hx, find_app, Hfind in Hc. exact Hc.
Qed.

Lemma get_color_id_grows (d : db) (n : string) :
  exists more, item_colors (get_color_id d n).1 = (item_colors d ++ more)%list.
Proof.
  pose proof (get_color_id_cases d n) as H.
  destruct (List.find (named n) (item_colors d)).
  - rewrite H. exists []. simpl. rewrite app_nil_r. reflexivity.
  - destruct H as (_ & -> & _). eauto.
Qed.

Lemma resolve_colors_grows (colors : list string) :
  forall (d : db) (acc : list Z),
    exists more,
      item_colors (Worker.resolve_colors d colors acc).1 = (item_colors d ++ more)%list.
Proof.
  induction colors as [|c colors IH]; intros d acc; simpl.
  - exists []. rewrite app_nil_r. reflexivity.
  - destruct (get_color_id_grows d c) as [m1 H1].
    destruct (get_color_id d c) as [e r]. simpl in H1.
    destruct r as [z|];
      [destruct (IH e (acc ++ [z])%list) as [m2 H2] | destruct (IH e acc) as [m2 H2]];
      exists (m1 ++ m2)%list; rewrite H2, H1, <- app_assoc; reflexivity.
Qed.

(** Resolving the same names again, in the table the first pass left
    (or any extension of it), creates nothing and returns the same
    ids. *)
Lemma resolve_colors_replay (colors : list string) :
  forall (d dx : db) (acc : list Z) (more : list color),
    item_colors dx
      = (item_colors (Worker.resolve_colors d colors acc).1 ++ more)%list ->
    Worker.resolve_colors dx colors acc
      = (dx, (Worker.resolve_colors d colors acc).2).
Proof.
  induction colors as [|c colors IH]; intros d dx acc more Hx; simpl in *; [reflexivity|].
  destruct (get_color_id_some d c) as [id Hid].
  destruct (get_color_id d c) as [e r] eqn:E. simpl in Hid. subst r.
  destruct (resolve_colors_grows colors e (acc ++ [id])%list) as [m Hm].
  rewrite (get_color_id_stable d e dx c id (m ++ more)%list E).
  - apply (IH e dx _ more). exact Hx.
  - rewrite Hx, Hm, <- app_assoc. reflexivity.
Qed.

Lemma upsert_item_images_sequences (now : Z) (d : db) (id : Z) (urls : list string)
    (c : option Z) :
  item_colors (upsert_item_images now d id urls c) = item_colors d /\
  next_item_id (upsert_item_images now d id urls c) = next_item_id d /\
  next_color_id (upsert_item_images now d id urls c) = next_color_id d.
Proof. destruct urls; simpl; auto. Qed.

Lemma link_item_colors_sequences (now : Z) (d : db) (id : Z) (ids : list Z) :
  item_colors (link_item_colors now d id ids) = item_colors d /\
  next_item_id (link_item_colors now d id ids) = next_item_id d /\
  next_color_id (link_item_colors now d id ids) = next_color_id d.
Proof. destruct ids; simpl; auto. Qed.

Lemma upsert_item_some (now : Z) (d : db) (x : item_data) :
  exists id, (upsert_item now d x).2 = Some id.
Proof.
  pose proof (upsert_item_contract now d x) as H.
  destruct (List.find (same_key x) (items d)); destruct H as (-> & _); eauto.
Qed.

(** What [process_product_url] leaves in each table after a successful
    extraction. *)
Lemma sync_record_effect (now : Z) (d : db) (brand : Z) (c sc : string)
    (info : Scraper.product_info) :
  let x := make_item_data brand c sc (Worker.normalize info) in
  let u := upsert_item now d x in
  let rc := Worker.resolve_colors d (Scraper.pi_colors info) [] in
  let r := sync_record now d brand c sc info in
  exists id,
    u.2 = Some id /\ r.2 = Some id /\
    items r.1 = items u.1 /\ next_item_id r.1 = next_item_id u.1 /\
    item_images r.1 = replace_images now id (Scraper.pi_image_urls info) (item_images d) /\
    item_x_item_colors r.1 = replace_links now id rc.2 (item_x_item_colors d) /\
    item_colors r.1 = item_colors rc.1 /\ next_color_id r.1 = next_color_id rc.1.
Proof.
  intros x u rc r.
  destruct (upsert_item_some now d x) as [id Hid]. fold u in Hid.
  exists id. split; [exact Hid|].
  destruct (upsert_item_frame now d x) as (Fi & Fl & Fc). fold u in Fi, Fl, Fc.
  pose proof (upsert_item_sequences now d x) as Fn. fold u in Fn.
  unfold r, Worker.sync_record. fold x u.
  cbn [Worker.n_image_urls Worker.n_colors Worker.normalize].
  unfold rc. clear r rc.
  generalize (Scraper.pi_image_urls info) as urls.
  generalize (Scraper.pi_colors info) as colors.
  clearbody x u. intros colors urls.
  destruct u as [da o]. cbn [fst snd] in *. subst o.
  assert (Hmain : forall d1 : db,
    items d1 = items da -> next_item_id d1 = next_item_id da ->
    item_images d1 = replace_images now id urls (item_images d) ->
    item_x_item_colors d1 = item_x_item_colors d ->
    item_colors d1 = item_colors d -> next_color_id d1 = next_color_id d ->
    let d3 := (let '(d2, color_ids) := Worker.resolve_colors d1 colors [] in
               match color_ids with
               | [] => d2
               | _ => link_item_colors now d2 id color_ids
               end) in
    items d3 = items da /\ next_item_id d3 = next_item_id da /\
    item_images d3 = replace_images now id urls (item_images d) /\
    item_x_item_colors d3 =
      replace_links now id (Worker.resolve_colors d colors []).2 (item_x_item_colors d) /\
    item_colors d3 = item_colors (Worker.resolve_colors d colors []).1 /\
    next_color_id d3 = next_color_id (Worker.resolve_colors d colors []).1).
  { intros d1 I1 I2 I3 I4 I5 I6.
    destruct (resolve_colors_local colors d d1 [] I5 I6) as (R1 & R2 & R3).
    destruct (resolve_colors_items colors d1 []) as [R4 R5].
    destruct (resolve_colors_frame colors d1 []) as [R6 R7].
    rewrite <- R1, <- R2, <- R3.
    destruct (Worker.resolve_colors d1 colors []) as [dr ids]. cbn [fst snd] in *.
    destruct ids as [|i ids]; cbn [replace_links].
    - repeat split; congruence.
    - destruct (link_item_colors_sequences now dr id (i :: ids)) as (L1 & L2 & L3).
      destruct (link_item_colors_frame now dr id (i :: ids)) as (L4 & L5).
      rewrite L1, L2, L3, L4, L5.
      assert (Hl : item_x_item_colors (link_item_colors now dr id (i :: ids)) =
                   insert_color_links now id (i :: ids)
                     (List.filter (fun r => negb (link_of id r)) (item_x_item_colors dr)))
        by reflexivity.
      rewrite Hl, R7, I4.
      repeat split; congruence. }
  split; [destruct colors; reflexivity|].
  destruct urls as [|u0 urls].
  - specialize (Hmain da eq_refl eq_refl Fi Fl Fc Fn).
    destruct colors; exact Hmain.
  - destruct (upsert_item_images_sequences now da id (u0 :: urls) None) as (S1 & S2 & S3).
    destruct (upsert_item_images_frame now da id (u0 :: urls) None) as (S4 & S5).
    assert (S6 : item_images (upsert_item_images now da id (u0 :: urls) None) =
                 replace_images now id (u0 :: urls) (item_images d)).
    { rewrite upsert_item_images_rows by discriminate. rewrite Fi. reflexivity. }
    specialize (Hmain (upsert_item_images now da id (u0 :: urls) None)
                  S5 S2 S6 (eq_trans S4 Fl) (eq_trans S1 Fc) (eq_trans S3 Fn)).
    destruct colors; exact Hmain.
Qed.

(** The images and color links of the item after a sync: replaced
    wholesale when the record carries an image, or a color that
    resolves, and left alone otherwise. *)
Lemma sync_record_dependents (now : Z) (d : db) (brand : Z) (c sc : string)
    (info : Scraper.product_info) :
  let urls := Scraper.pi_image_urls info in
  let resolved := (Worker.resolve_colors d (Scraper.pi_colors info) []).2 in
  let r := sync_record now d brand c sc info in
  exists id,
    r.2 = Some id /\
    (urls <> [] ->
       List.filter (image_of id) (item_images r.1) = image_rows now id None 0 urls /\
       List.filter (fun x => negb (image_of id x)) (item_images r.1)
         = List.filter (fun x => negb (image_of id x)) (item_images d)) /\
    (resolved <> [] ->
       (forall l, In l (List.filter (link_of id) (item_x_item_colors r.1)) <->
                  exists col, In col resolved /\ l = ItemColor id col now) /\
       NoDup (List.filter (link_of id) (item_x_item_colors r.1)) /\
       List.filter (fun x => negb (link_of id x)) (item_x_item_colors r.1)
         = List.filter (fun x => negb (link_of id x)) (item_x_item_colors d)) /\
    (resolved = [] -> item_x_item_colors r.1 = item_x_item_colors d).
Proof.
  intros urls resolved r.
  destruct (sync_record_effect now d brand c sc info)
    as (id & _ & U2 & _ & _ & U5 & U6 & _).
  fold r in U2, U5, U6. fold urls in U5. fold resolved in U6.
  exists id. split; [exact U2|]. split; [|split].
  - intros Hne. rewrite U5.
    replace (replace_images now id urls (item_images d))
      with (List.filter (fun x => negb (image_of id x)) (item_images d)
            ++ image_rows now id None 0 urls)%list
      by (destruct urls; [congruence | reflexivity]).
    rewrite !List.filter_app.
    rewrite (filter_negb_filter (image_of id)).
    rewrite (filter_all (image_of id) (image_rows now id None 0 urls))
      by apply image_rows_item.
    rewrite (filter_none (fun x => negb (image_of id x)) (image_rows now id None 0 urls)).
    + rewrite filter_idem, app_nil_r. split; reflexivity.
    + intros x Hx. rewrite (image_rows_item _ _ _ _ _ _ Hx). reflexivity.
  - intros Hne. rewrite U6.
    replace (replace_links now id resolved (item_x_item_colors d))
      with (item_x_item_colors (link_item_colors now d id resolved))
      by (destruct resolved; [congruence | reflexivity]).
    destruct (link_item_colors_rows now d id resolved Hne) as (Hoth & Hnd & Hrows).
    split; [exact Hrows|]. split; [exact Hnd | exact Hoth].
  - intros E. rewrite U6, E. reflexivity.
Qed.

Lemma replace_images_idem (now id : Z) (urls : list string) (rows : list item_image) :
  replace_images now id urls (replace_images now id urls rows)
  = replace_images now id urls rows.
Proof.
  destruct urls as [|u urls]; [reflexivity|]. unfold replace_images.
  rewrite List.filter_app.
  rewrite (filter_none (fun r => negb (image_of id r))
             (image_rows now id None 0 (u :: urls))).
  - rewrite filter_idem, app_nil_r. reflexivity.
  - intros r Hr. rewrite (image_rows_item _ _ _ _ _ _ Hr). reflexivity.
Qed.

Lemma replace_links_idem (now id : Z) (ids : list Z) (rows : list item_color) :
  replace_links now id ids (replace_links now id ids rows)
  = replace_links now id ids rows.
Proof.
  destruct ids as [|i ids]; [reflexivity|]. unfold replace_links.
  set (others := List.filter (fun r => negb (link_of id r)) rows).
  assert (Hinv : links_inv now id others [] others).
  { unfold links_inv, others. rewrite filter_idem, filter_negb_filter.
    split; [reflexivity|]. split; [constructor|].
    intros r. simpl. split; [tauto|]. intros (c & [] & _). }
  apply (insert_color_links_inv now id others (i :: ids)) in Hinv.
  destruct Hinv as (Hoth & _). rewrite Hoth. reflexivity.
Qed.

Lemma sync_record_replay (now now' : Z) (d : db) (brand : Z) (c sc : string)
    (info : Scraper.product_info) :
  (forall r, In r (items d) -> item_id r < next_item_id d) ->
  let first := sync_record now d brand c sc info in
  let second := sync_record now' first.1 brand c sc info in
  second.2 = first.2 /\
  length (items second.1) = length (items first.1) /\
  item_colors second.1 = item_colors first.1 /\
  (now' = now -> tables second.1 = tables first.1).
Proof.
  intros Hids first second.
  destruct (sync_record_effect now d brand c sc info)
    as (id & U1 & U2 & U3 & U4 & U5 & U6 & U7 & U8).
  fold first in U2, U3, U4, U5, U6, U7, U8.
  destruct (sync_record_effect now' first.1 brand c sc info)
    as (id' & V1 & V2 & V3 & V4 & V5 & V6 & V7 & V8).
  fold second in V2, V3, V4, V5, V6, V7, V8.
  set (x := make_item_data brand c sc (Worker.normalize info)) in *.
  destruct (upsert_item_local now' (upsert_item now d x).1 first.1 x U3 U4)
    as (W1 & W2 & W3).
  destruct (upsert_item_second now now' d x Hids) as (T1 & T2 & T3 & T4).
  cbv zeta in T1, T2, T3, T4.
  assert (Hid : id' = id) by congruence. subst id'.
  assert (Hrc : Worker.resolve_colors first.1 (Scraper.pi_colors info) []
                = (first.1, (Worker.resolve_colors d (Scraper.pi_colors info) []).2)).
  { apply (resolve_colors_replay _ d first.1 [] []). rewrite app_nil_r. exact U7. }
  rewrite Hrc in V6, V7, V8. cbn [fst snd] in V6, V7, V8.
  split; [congruence|]. split; [congruence|]. split; [exact V7|].
  intros ->. unfold tables.
  rewrite V3, V4, V5, V6, V7, V8, W2, W3, T3, (T4 eq_refl), U5, U6.
  rewrite replace_images_idem, replace_links_idem, U3, U4. reflexivity.
Qed.

End Replay.

(** ** Dependent entities of a synced record *)

(** C2 (as the code has it). When the list of image URLs is not empty,
    [upsert_item_images] replaces the images of the item wholesale: the
    item's rows are exactly the rows of the current list, in order, the
    first one primary, and the rows of other items are untouched.  When
    the list of color ids is not empty, [link_item_colors] replaces the
    links of the item wholesale: one link per distinct color of the
    list, the links of other items untouched.  With an empty list
    either function returns at once and the database is unchanged.

    So it is for the worker's sync of an extracted record, which always
    yields an item id.  If the record carries an image URL, the images
    stored for that item afterwards are exactly the rows of the record's
    URLs, in order, the first one and no other primary.  If a color of
    the record resolves, the item's links afterwards are, without
    repetition, one per resolved color.  The rows of other items are
    untouched in both cases.  A record without images leaves the image
    table as it was, and a record without colors, or none of whose
    colors resolves, leaves the link table as it was. *)
Theorem C2_dependents_replaced_when_present
    (normalize_price : string -> Z)
    (get_rapsodia_category_mapping : string -> string -> option (Z * Z))
    (now : Z) (d : SupabaseClient.db) (id : Z) (image_urls : list string)
    (color_id : option Z) (color_ids : list Z)
    (brand : Z) (c sc : string) (info : Scraper.product_info) :
  let d1 := SupabaseClient.upsert_item_images now d id image_urls color_id in
  let d2 := SupabaseClient.link_item_colors now d id color_ids in
  let synced := Worker.sync_record normalize_price get_rapsodia_category_mapping
                  now d brand c sc info in
  let d3 := synced.1 in
  let urls := Scraper.pi_image_urls info in
  let resolved := (Worker.resolve_colors d (Scraper.pi_colors info) []).2 in
  (image_urls <> [] ->
     List.filter (image_of id) (SupabaseClient.item_images d1)
       = SupabaseClient.image_rows now id color_id 0 image_urls /\
     List.map SupabaseClient.image_url
       (List.filter (image_of id) (SupabaseClient.item_images d1)) = image_urls /\
     List.filter (fun r => negb (image_of id r)) (SupabaseClient.item_images d1)
       = List.filter (fun r => negb (image_of id r)) (SupabaseClient.item_images d)) /\
  (image_urls = [] -> d1 = d) /\
  (color_ids <> [] ->
     (forall r, In r (List.filter (link_of id) (SupabaseClient.item_x_item_colors d2)) <->
                exists col, In col color_ids /\ r = SupabaseClient.ItemColor id col now) /\
     NoDup (List.filter (link_of id) (SupabaseClient.item_x_item_colors d2)) /\
     List.filter (fun r => negb (link_of id r)) (SupabaseClient.item_x_item_colors d2)
       = List.filter (fun r => negb (link_of id r)) (SupabaseClient.item_x_item_colors d)) /\
  (color_ids = [] -> d2 = d) /\
  (exists item_id,
     synced.2 = Some item_id /\
     (urls <> [] ->
        List.filter (image_of item_id) (SupabaseClient.item_images d3)
          = SupabaseClient.image_rows now item_id None 0 urls /\
        List.map SupabaseClient.image_url
          (List.filter (image_of item_id) (SupabaseClient.item_images d3)) = urls /\
        List.map SupabaseClient.image_url
          (List.filter SupabaseClient.is_primary
             (List.filter (image_of item_id) (SupabaseClient.item_images d3)))
          = take 1 urls /\
        List.filter (fun r => negb (image_of item_id r)) (SupabaseClient.item_images d3)
          = List.filter (fun r => negb (image_of item_id r))
              (SupabaseClient.item_images d)) /\
     (resolved <> [] ->
        (forall r,
           In r (List.filter (link_of item_id) (SupabaseClient.item_x_item_colors d3)) <->
           exists col, In col resolved /\
                       r = SupabaseClient.ItemColor item_id col now) /\
        NoDup (List.filter (link_of item_id) (SupabaseClient.item_x_item_colors d3)) /\
        List.filter (fun r => negb (link_of item_id r))
          (SupabaseClient.item_x_item_colors d3)
          = List.filter (fun r => negb (link_of item_id r))
              (SupabaseClient.item_x_item_colors d)) /\
     (resolved = [] ->
        SupabaseClient.item_x_item_colors d3 = SupabaseClient.item_x_item_colors d)) /\
  (urls = [] -> SupabaseClient.item_images d3 = SupabaseClient.item_images d) /\
  (Scraper.pi_colors info = [] ->
     SupabaseClient.item_x_item_colors d3 = SupabaseClient.item_x_item_colors d).
Proof.
  intros d1 d2 synced d3 urls resolved.
  split; [|split; [|split; [|split; [|split]]]].
  - intros Hne. unfold d1.
    rewrite (upsert_item_images_rows now d id image_urls color_id Hne).
    rewrite !List.filter_app.
    rewrite (filter_negb_filter (image_of id)).
    rewrite (filter_all (image_of id) (SupabaseClient.image_rows now id color_id 0 image_urls))
      by apply image_rows_item.
    rewrite (filter_none (fun r => negb (image_of id r))
               (SupabaseClient.image_rows now id color_id 0 image_urls)).
    + rewrite filter_idem, app_nil_r. simpl.
      split; [reflexivity|]. split; [apply image_rows_urls | reflexivity].
    + intros r Hr. rewrite (image_rows_item _ _ _ _ _ _ Hr). reflexivity.
  - intros ->. reflexivity.
  - intros Hne.
    destruct (link_item_colors_rows now d id color_ids Hne) as (Hoth & Hnd & Hrows).
    split; [exact Hrows|]. split; [exact Hnd | exact Hoth].
  - intros ->. reflexivity.
  - destruct (sync_record_dependents normalize_price get_rapsodia_category_mapping
                now d brand c sc info) as (item_id & Hid & Himg & Hlink & Hnone).
    exists item_id. split; [exact Hid|]. split; [|split; [exact Hlink | exact Hnone]].
    intros Hne. destruct (Himg Hne) as [Hrows Hoth].
    fold synced d3 urls in Hrows, Hoth.
    split; [exact Hrows|]. rewrite Hrows.
    split; [apply image_rows_urls|]. split; [apply image_rows_primary | exact Hoth].
  - apply (sync_record_keeps_dependents normalize_price get_rapsodia_category_mapping
             now d brand c sc info).
Qed.

(** C2 as stated fails: syncing a record without image URLs and without
    colors onto an item that has a stored image and a stored color link
    erases neither. *)
Lemma C2_empty_record_erases_nothing :
  let d' := (Worker.sync_record (fun _ => 240000) (fun _ _ => None)
               10 Samples.jean_db 7 "WOMAN" "JEANS" Samples.jean_without_media).1 in
  Scraper.pi_image_urls Samples.jean_without_media = [] /\
  Scraper.pi_colors Samples.jean_without_media = [] /\
  List.filter (image_of 1) (SupabaseClient.item_images Samples.jean_db) <> [] /\
  List.filter (link_of 1) (SupabaseClient.item_x_item_colors Samples.jean_db) <> [] /\
  List.filter (image_of 1) (SupabaseClient.item_images d')
    = List.filter (image_of 1) (SupabaseClient.item_images Samples.jean_db) /\
  List.filter (link_of 1) (SupabaseClient.item_x_item_colors d')
    = List.filter (link_of 1) (SupabaseClient.item_x_item_colors Samples.jean_db) /\
  SupabaseClient.upsert_item_images 10 Samples.jean_db 1 [] None = Samples.jean_db /\
  SupabaseClient.link_item_colors 10 Samples.jean_db 1 [] = Samples.jean_db.
Proof. vm_compute. repeat split; discriminate. Qed.

(** Processing the same product a second time (a message delivered
    twice) is harmless: in a store whose identifiers were all issued by
    the sequence, the second run of the storing part of
    [process_product_url] returns the same item id, adds no item row and
    no color, and at the same time stamp leaves every table exactly as
    the first run left it. *)
Theorem X_process_product_url_replay
    (normalize_price : string -> Z)
    (get_rapsodia_category_mapping : string -> string -> option (Z * Z))
    (now now' : Z) (d : SupabaseClient.db) (brand : Z) (c sc : string)
    (info : Scraper.product_info) :
  store_ok d ->
  let sync_record :=
    Worker.sync_record normalize_price get_rapsodia_category_mapping in
  let first := sync_record now d brand c sc info in
  let second := sync_record now' first.1 brand c sc info in
  second.2 = first.2 /\
  length (SupabaseClient.items second.1) = length (SupabaseClient.items first.1) /\
  SupabaseClient.item_colors second.1 = SupabaseClient.item_colors first.1 /\
  (now' = now -> tables second.1 = tables first.1).
Proof.
  intros [_ Hids]. apply sync_record_replay. exact Hids.
Qed.

(** * Further properties of the scraper *)

Section TextFacts.
Import Text.

Lemma truthy_nonempty (s : string) : truthy s = true <-> s <> "".
Proof. destruct s; simpl; split; congruence. Qed.

Lemma upper_char_idem (c : ascii) : upper_char (upper_char c) = upper_char c.
Proof. destruct c as [[] [] [] [] [] [] [] []]; reflexivity. Qed.

Lemma is_space_upper_char (c : ascii) : is_space (upper_char c) = is_space c.
Proof. destruct c as [[] [] [] [] [] [] [] []]; reflexivity. Qed.

Lemma upper_idem (s : string) : upper (upper s) = upper s.
Proof. induction s as [|c s IH]; simpl; [reflexivity|]. rewrite upper_char_idem, IH. reflexivity. Qed.

Lemma upper_empty (s : string) : upper s = "" <-> s = "".
Proof. destruct s; simpl; split; congruence. Qed.

Lemma lstrip_upper (s : string) : lstrip (upper s) = upper (lstrip s).
Proof.
  induction s as [|c s IH]; simpl; [reflexivity|].
  rewrite is_space_upper_char. destruct (is_space c); [exact IH | reflexivity].
Qed.

Lemma rstrip_upper (s : string) : rstrip (upper s) = upper (rstrip s).
Proof.
  induction s as [|c s IH]; simpl; [reflexivity|].
  rewrite IH, is_space_upper_char.
  destruct (rstrip s); simpl; [destruct (is_space c)|]; reflexivity.
Qed.

Lemma strip_upper (s : string) : strip (upper s) = upper (strip s).
Proof. unfold strip. rewrite lstrip_upper, rstrip_upper. reflexivity. Qed.

Lemma rstrip_idem (s : string) : rstrip (rstrip s) = rstrip s.
Proof.
  induction s as [|c s IH]; simpl; [reflexivity|].
  destruct (rstrip s) as [|a r] eqn:E.
  - destruct (is_space c) eqn:Ec; simpl; [reflexivity|]. rewrite Ec. reflexivity.
  - change (rstrip (String c (String a r))) with
      (match rstrip (String a r) with
       | EmptyString => if is_space c then EmptyString else String c EmptyString
       | r0 => String c r0
       end).
    rewrite IH. reflexivity.
Qed.

Lemma lstrip_tight (s : string) : tight (lstrip s) = true.
Proof.
  induction s as [|c s IH]; simpl; [reflexivity|].
  destruct (is_space c) eqn:E; [exact IH|]. simpl. rewrite E. reflexivity.
Qed.

Lemma lstrip_of_tight (s : string) : tight s = true -> lstrip s = s.
Proof. destruct s as [|c s]; simpl; [reflexivity|]. destruct (is_space c); [discriminate | reflexivity]. Qed.

Lemma rstrip_tight (s : string) : tight s = true -> tight (rstrip s) = true.
Proof.
  destruct s as [|c s]; simpl; [reflexivity|]. intros H.
  destruct (rstrip s); simpl; [|exact H].
  destruct (is_space c) eqn:E; simpl; rewrite ?E; reflexivity.
Qed.

Lemma strip_idem (s : string) : strip (strip s) = strip s.
Proof.
  unfold strip.
  rewrite (lstrip_of_tight (rstrip (lstrip s))) by (apply rstrip_tight, lstrip_tight).
  apply rstrip_idem.
Qed.

Lemma upper_strip_fixed (s : string) :
  upper (strip (upper (strip s))) = upper (strip s).
Proof. rewrite strip_upper, strip_idem, upper_idem. reflexivity. Qed.

End TextFacts.

Section SizesMore.
Import Scraper.

Lemma normalize_loop_nodup (sizes : list string) :
  forall normalized,
    NoDup normalized -> NoDup (Mappers.normalize_loop sizes normalized).
Proof.
  induction sizes as [|size rest IH]; intros normalized Hnd; simpl; [exact Hnd|].
  destruct (Text.truthy size); [|apply IH; exact Hnd].
  destruct (Text.truthy _); simpl; [|apply IH; exact Hnd].
  case_bool_decide as Hin; simpl; [apply IH; exact Hnd|].
  apply IH. apply NoDup_app. split; [exact Hnd|]. split; [|apply NoDup_singleton].
  intros x Hx Hx'. apply list_elem_of_singleton in Hx'. subst x. exact (Hin Hx).
Qed.

(** A list of distinct labels that are already in normal form passes
    through the loop unchanged. *)
Lemma normalize_loop_fixed (sizes : list string) :
  forall normalized,
    NoDup (normalized ++ sizes) ->
    (forall x, x ∈ sizes -> Text.truthy x = true /\ Text.upper (Text.strip x) = x) ->
    Mappers.normalize_loop sizes normalized = (normalized ++ sizes)%list.
Proof.
  induction sizes as [|size rest IH]; intros normalized Hnd Hfix; simpl.
  - rewrite app_nil_r. reflexivity.
  - destruct (Hfix size) as [Ht Hu]; [apply elem_of_cons; left; reflexivity|].
    rewrite Ht, Hu, Ht. simpl.
    assert (Hnot : size ∉ normalized).
    { apply NoDup_app in Hnd as (_ & Hd & _). intros Hin.
      apply (Hd size Hin). apply elem_of_cons. left. reflexivity. }
    rewrite (bool_decide_eq_false_2 _ Hnot). simpl.
    rewrite IH.
    + rewrite <- app_assoc. reflexivity.
    + rewrite <- app_assoc. exact Hnd.
    + intros x Hx. apply Hfix. apply elem_of_cons. right. exact Hx.
Qed.

Lemma normalize_sizes_nodup (sizes : list string) :
  NoDup (Mappers.normalize_sizes sizes).
Proof.
  destruct sizes as [|s rest]; [constructor|].
  apply normalize_loop_nodup. constructor.
Qed.

Lemma normalize_sizes_normal (sizes : list string) (x : string) :
  x ∈ Mappers.normalize_sizes sizes ->
  Text.truthy x = true /\ Text.upper (Text.strip x) = x.
Proof.
  rewrite normalize_sizes_elem. intros (s & _ & _ & -> & Ht).
  split; [exact Ht | apply upper_strip_fixed].
Qed.

End SizesMore.

(** [normalize_sizes] returns a normal form: the labels of the result
    are pairwise distinct, none is empty, each one is already stripped
    and in upper case, and normalising the result again changes
    nothing. *)
Theorem X_normalize_sizes_normal_form (sizes : list string) :
  let normalized := Mappers.normalize_sizes sizes in
  NoDup normalized /\
  (forall x, x ∈ normalized -> x <> "" /\ Text.upper (Text.strip x) = x) /\
  Mappers.normalize_sizes normalized = normalized.
Proof.
  intros normalized. split; [apply normalize_sizes_nodup|]. split.
  - intros x Hx. apply normalize_sizes_normal in Hx as [Ht Hu].
    split; [apply truthy_nonempty; exact Ht | exact Hu].
  - unfold Mappers.normalize_sizes at 1.
    destruct normalized as [|a l] eqn:E; [reflexivity|]. rewrite <- E.
    apply (normalize_loop_fixed normalized []).
    + apply normalize_sizes_nodup.
    + intros x Hx. exact (normalize_sizes_normal sizes x Hx).
Qed.

Section ExtractedLists.
Import Scraper.

Lemma clean_size_text_empty : clean_size_text "" = "".
Proof. reflexivity. Qed.

(** The sizes collected by the loop over the swatches. *)
Lemma extract_sizes_all (talles_raw : list size_element) :
  forall todos disp x,
    x ∈ (extract_sizes talles_raw todos disp).1 <->
    x ∈ todos \/
    (x <> "" /\ exists e, e ∈ talles_raw /\ clean_size_text (se_label e) = x).
Proof.
  induction talles_raw as [|e rest IH]; intros todos disp x; simpl.
  - split; [auto|]. intros [H|(_ & e & He & _)]; [exact H|].
    apply elem_of_nil in He. destruct He.
  - assert (Hskip : clean_size_text (se_label e) = "" \/
                    clean_size_text (se_label e) ∈ todos ->
      (x ∈ todos \/ (x <> "" /\ exists e0, e0 ∈ rest /\ clean_size_text (se_label e0) = x))
      <->
      (x ∈ todos \/
       (x <> "" /\ exists e0, e0 ∈ e :: rest /\ clean_size_text (se_label e0) = x))).
    { intros Hc. split.
      - intros [H|(Hx & e0 & He0 & Hc0)]; [left; exact H|].
        right. split; [exact Hx|]. exists e0. split; [|exact Hc0].
        apply elem_of_cons. right. exact He0.
      - intros [H|(Hx & e0 & He0 & Hc0)]; [left; exact H|].
        apply elem_of_cons in He0 as [->|He0].
        + destruct Hc as [Hc|Hc]; [congruence|]. left. rewrite <- Hc0. exact Hc.
        + right. split; [exact Hx|]. exists e0. split; assumption. }
    destruct (Text.truthy (se_label e)) eqn:Et.
    2:{ rewrite IH. apply Hskip. left.
        destruct (se_label e); [reflexivity | discriminate]. }
    destruct (Text.truthy (clean_size_text (se_label e))) eqn:Ec.
    2:{ rewrite IH. apply Hskip. left.
        destruct (clean_size_text (se_label e)); [reflexivity | discriminate]. }
    rewrite IH. case_bool_decide as Hin.
    + apply Hskip. right. exact Hin.
    + rewrite elem_of_app, list_elem_of_singleton. split.
      * intros [[H| ->]|(Hx & e0 & He0 & Hc0)].
        -- left. exact H.
        -- right. split; [apply truthy_nonempty; exact Ec|].
           exists e. split; [apply elem_of_cons; left; reflexivity | reflexivity].
        -- right. split; [exact Hx|]. exists e0. split; [|exact Hc0].
           apply elem_of_cons. right. exact He0.
      * intros [H|(Hx & e0 & He0 & Hc0)]; [left; left; exact H|].
        apply elem_of_cons in He0 as [->|He0].
        -- left. right. symmetry. exact Hc0.
        -- right. split; [exact Hx|]. exists e0. split; assumption.
Qed.

Lemma extract_sizes_available (talles_raw : list size_element) :
  forall todos disp x,
    x ∈ (extract_sizes talles_raw todos disp).2 <->
    x ∈ disp \/
    (x <> "" /\ exists e, e ∈ talles_raw /\ se_disabled e = false /\
                          clean_size_text (se_label e) = x).
Proof.
  induction talles_raw as [|e rest IH]; intros todos disp x; simpl.
  - split; [auto|]. intros [H|(_ & e & He & _)]; [exact H|].
    apply elem_of_nil in He. destruct He.
  - assert (Hskip : clean_size_text (se_label e) = "" \/ se_disabled e = true ->
      (x ∈ disp \/ (x <> "" /\ exists e0, e0 ∈ rest /\ se_disabled e0 = false /\
                                        clean_size_text (se_label e0) = x))
      <->
      (x ∈ disp \/ (x <> "" /\ exists e0, e0 ∈ e :: rest /\ se_disabled e0 = false /\
                                        clean_size_text (se_label e0) = x))).
    { intros Hc. split.
      - intros [H|(Hx & e0 & He0 & Hc0)]; [left; exact H|].
        right. split; [exact Hx|]. exists e0. split; [|exact Hc0].
        apply elem_of_cons. right. exact He0.
      - intros [H|(Hx & e0 & He0 & Hd0 & Hc0)]; [left; exact H|].
        apply elem_of_cons in He0 as [->|He0].
        + destruct Hc as [Hc|Hc]; congruence.
        + right. split; [exact Hx|]. exists e0. tauto. }
    destruct (Text.truthy (se_label e)) eqn:Et.
    2:{ rewrite IH. apply Hskip. left.
        destruct (se_label e); [reflexivity | discriminate]. }
    destruct (Text.truthy (clean_size_text (se_label e))) eqn:Ec.
    2:{ rewrite IH. apply Hskip. left.
        destruct (clean_size_text (se_label e)); [reflexivity | discriminate]. }
    rewrite IH. destruct (se_disabled e) eqn:Ed; simpl.
    + apply Hskip. right. reflexivity.
    + rewrite elem_of_app, list_elem_of_singleton. split.
      * intros [[H| ->]|(Hx & e0 & He0 & Hc0)].
        -- left. exact H.
        -- right. split; [apply truthy_nonempty; exact Ec|].
           exists e. split; [apply elem_of_cons; left; reflexivity|]. tauto.
        -- right. split; [exact Hx|]. exists e0. split; [|exact Hc0].
           apply elem_of_cons. right. exact He0.
      * intros [H|(Hx & e0 & He0 & Hd0 & Hc0)]; [left; left; exact H|].
        apply elem_of_cons in He0 as [->|He0].
        -- left. right. symmetry. exact Hc0.
        -- right. split; [exact Hx|]. exists e0. tauto.
Qed.

Lemma extract_sizes_nodup (talles_raw : list size_element) :
  forall todos disp, NoDup todos -> NoDup (extract_sizes talles_raw todos disp).1.
Proof.
  induction talles_raw as [|e rest IH]; intros todos disp Hnd; simpl; [exact Hnd|].
  destruct (Text.truthy (se_label e)); [|apply IH; exact Hnd].
  destruct (Text.truthy (clean_size_text (se_label e))); [|apply IH; exact Hnd].
  apply IH. case_bool_decide as Hin; [exact Hnd|].
  apply NoDup_app. split; [exact Hnd|]. split; [|apply NoDup_singleton].
  intros x Hx Hx'. apply list_elem_of_singleton in Hx'. subst x. exact (Hin Hx).
Qed.

Lemma extract_colors_all (elements : list string) :
  forall colors x,
    x ∈ extract_colors elements colors <-> x ∈ colors \/ (x <> "" /\ x ∈ elements).
Proof.
  induction elements as [|c rest IH]; intros colors x; simpl.
  - split; [auto|]. intros [H|[_ H]]; [exact H|]. apply elem_of_nil in H. destruct H.
  - destruct (Text.truthy c) eqn:Et; simpl.
    + case_bool_decide as Hin; simpl; rewrite IH.
      * split.
        -- intros [H|[Hx H]]; [left; exact H|]. right. split; [exact Hx|].
           apply elem_of_cons. right. exact H.
        -- intros [H|[Hx H]]; [left; exact H|].
           apply elem_of_cons in H as [->|H]; [left; exact Hin | right; tauto].
      * rewrite elem_of_app, list_elem_of_singleton, elem_of_cons.
        apply truthy_nonempty in Et. split.
        -- intros [[H| ->]|[Hx H]]; tauto.
        -- intros [H|[Hx [->|H]]]; tauto.
    + rewrite IH. destruct c; [|discriminate]. rewrite elem_of_cons. split.
      * intros [H|[Hx H]]; tauto.
      * intros [H|[Hx [->|H]]]; [tauto | congruence | tauto].
Qed.

Lemma extract_colors_nodup (elements : list string) :
  forall colors, NoDup colors -> NoDup (extract_colors elements colors).
Proof.
  induction elements as [|c rest IH]; intros colors Hnd; simpl; [exact Hnd|].
  destruct (Text.truthy c); simpl; [|apply IH; exact Hnd].
  case_bool_decide as Hin; simpl; [apply IH; exact Hnd|].
  apply IH. apply NoDup_app. split; [exact Hnd|]. split; [|apply NoDup_singleton].
  intros x Hx Hx'. apply list_elem_of_singleton in Hx'. subst x. exact (Hin Hx).
Qed.

End ExtractedLists.

(** The size and color lists of an extracted product.  A label is among
    [talles_todos] exactly when it is the non-empty cleaned label of some
    swatch of the page, and among [talles_disponibles] exactly when some
    such swatch is not disabled; the colors are the non-empty swatch
    texts.  [talles_todos] and [colors] hold no label twice. *)
Theorem X_extracted_sizes_and_colors
    (url category_name subcategory_name : string) (page : Scraper.product_page) :
  let info := Scraper.build_product_info url category_name subcategory_name page in
  (forall x, x ∈ Scraper.pi_talles_todos info <->
             x <> "" /\
             exists e, e ∈ Scraper.pp_sizes page /\
                       Scraper.clean_size_text (Scraper.se_label e) = x) /\
  (forall x, x ∈ Scraper.pi_talles_disponibles info <->
             x <> "" /\
             exists e, e ∈ Scraper.pp_sizes page /\ Scraper.se_disabled e = false /\
                       Scraper.clean_size_text (Scraper.se_label e) = x) /\
  (forall x, x ∈ Scraper.pi_colors info <-> x <> "" /\ x ∈ Scraper.pp_colors page) /\
  NoDup (Scraper.pi_talles_todos info) /\
  NoDup (Scraper.pi_colors info).
Proof.
  intros info.
  assert (Ht : Scraper.pi_talles_todos info
               = (Scraper.extract_sizes (Scraper.pp_sizes page) [] []).1).
  { unfold info, Scraper.build_product_info.
    destruct (Scraper.extract_sizes (Scraper.pp_sizes page) [] []). reflexivity. }
  assert (Hd : Scraper.pi_talles_disponibles info
               = (Scraper.extract_sizes (Scraper.pp_sizes page) [] []).2).
  { unfold info, Scraper.build_product_info.
    destruct (Scraper.extract_sizes (Scraper.pp_sizes page) [] []). reflexivity. }
  assert (Hc : Scraper.pi_colors info
               = Scraper.extract_colors (Scraper.pp_colors page) []).
  { unfold info, Scraper.build_product_info.
    destruct (Scraper.extract_sizes (Scraper.pp_sizes page) [] []). reflexivity. }
  rewrite Ht, Hd, Hc.
  split; [|split; [|split; [|split]]].
  - intros x. rewrite extract_sizes_all. split; [|tauto].
    intros [H|H]; [apply elem_of_nil in H; destruct H | exact H].
  - intros x. rewrite extract_sizes_available. split; [|tauto].
    intros [H|H]; [apply elem_of_nil in H; destruct H | exact H].
  - intros x. rewrite extract_colors_all. split; [|tauto].
    intros [H|H]; [apply elem_of_nil in H; destruct H | exact H].
  - apply extract_sizes_nodup. constructor.
  - apply extract_colors_nodup. constructor.
Qed.

Section Accepts.
Import Scraper.

Lemma prefix_head (a b : ascii) (p s : string) :
  String.prefix (String a p) (String b s) = true -> a = b.
Proof. simpl. destruct (ascii_dec a b); [auto | discriminate]. Qed.

(** Of the four schemes [validate_url] accepts, the product validator
    keeps the two that start with [http]. *)
Lemma web_scheme (url : string) :
  validate_url url = true -> Text.startswith "http" url = true ->
  Text.startswith "http://" url || Text.startswith "https://" url = true.
Proof.
  unfold validate_url.
  destruct (negb (Text.truthy url)); [discriminate|].
  destruct (Text.startswith "http://" url); [reflexivity|].
  destruct (Text.startswith "https://" url); [reflexivity|].
  destruct (Text.startswith "file://" url) eqn:Ef.
  - intros _ Hh. destruct url as [|c u]; [discriminate|].
    apply prefix_head in Ef. apply prefix_head in Hh. congruence.
  - destruct (Text.startswith "raw:" url) eqn:Er; [|discriminate].
    intros _ Hh. destruct url as [|c u]; [discriminate|].
    apply prefix_head in Er. apply prefix_head in Hh. congruence.
Qed.

Lemma validate_url_domain (url : string) :
  validate_url url = true -> Text.contains "rapsodia.com.ar" url = true.
Proof.
  unfold validate_url.
  destruct (negb (Text.truthy url)); [discriminate|].
  destruct (negb (_ || _ || _ || _)); [discriminate|].
  destruct (Text.contains "rapsodia.com.ar" url); [reflexivity | discriminate].
Qed.

Lemma validate_product_info_true (info : product_info) :
  validate_product_info info = true <->
  Text.startswith "http" (pi_url info) = true /\ pi_description info <> "".
Proof.
  unfold validate_product_info, validate_product_data, Text.startswith, Text.truthy_opt.
  rewrite <- truthy_nonempty.
  assert (Hu : Text.truthy (pi_url info) = false ->
               String.prefix "http" (pi_url info) = false).
  { destruct (pi_url info); [reflexivity | discriminate]. }
  destruct (Text.truthy (pi_url info)) eqn:Et;
    [clear Hu | rewrite (Hu eq_refl)];
    destruct (String.prefix "http" (pi_url info)) eqn:Ep;
    destruct (Text.truthy (pi_description info)) eqn:Ed;
    cbn [negb andb]; intuition (try discriminate; try reflexivity).
Qed.

End Accepts.

(** What a successful [extract_product_details] guarantees.  The URL is
    an [http://] or [https://] URL of the shop (a [file://] or [raw:]
    URL is fetched but its product is never returned), the page was
    fetched and parsed, the record is the one built from that page, and
    its description is not empty: the validation reads a ['title'] entry
    that the record does not carry, so the product name cannot stand in
    for a missing description. *)
Theorem X_extract_product_details_accepts
    {World Html : Type}
    (fetch : World -> string -> World * Scraper.crawl_result Html)
    (parse_product : Html -> option Scraper.product_page)
    (s s' : Scraper.t) (w w' : World) (url category subcategory : string)
    (info : Scraper.product_info) :
  Scraper.extract_product_details fetch parse_product s w url category subcategory
    = (s', w', Scraper.Returned (Some info)) ->
  Text.startswith "http://" url || Text.startswith "https://" url = true /\
  Text.contains "rapsodia.com.ar" url = true /\
  Scraper.pi_description info <> "" /\
  exists html page,
    fetch w url = (w', Scraper.CrawlOk (Some html)) /\
    parse_product html = Some page /\
    Scraper.pp_description page = Some (Scraper.pi_description info) /\
    info = Scraper.build_product_info url category subcategory page.
Proof.
  unfold Scraper.extract_product_details, Scraper.safe_crawl_page.
  destruct (negb (Scraper.validate_url url)) eqn:Ev; [intros [=]|].
  apply negb_false_iff in Ev.
  destruct (fetch w url) as [w1 [|[html|]]] eqn:Ef;
    [intros H; discriminate H | | intros H; discriminate H].
  destruct (parse_product html) as [page|] eqn:Ep; [|intros H; discriminate H].
  destruct (negb (Scraper.validate_product_info _)) eqn:Ei; intros [= <- <- <-].
  apply negb_false_iff, validate_product_info_true in Ei as [Hh Hd].
  assert (Hu : Scraper.pi_url (Scraper.build_product_info url category subcategory page)
               = url).
  { unfold Scraper.build_product_info.
    destruct (Scraper.extract_sizes (Scraper.pp_sizes page) [] []). reflexivity. }
  assert (Hdesc : Scraper.pi_description
                    (Scraper.build_product_info url category subcategory page)
                  = default "" (Scraper.pp_description page)).
  { unfold Scraper.build_product_info.
    destruct (Scraper.extract_sizes (Scraper.pp_sizes page) [] []). reflexivity. }
  rewrite Hu in Hh.
  split; [apply web_scheme; assumption|].
  split; [apply validate_url_domain; exact Ev|].
  split; [exact Hd|].
  exists html, page. split; [reflexivity|]. split; [exact Ep|]. split; [|reflexivity].
  rewrite Hdesc in *. destruct (Scraper.pp_description page); [reflexivity|].
  simpl in Hd. congruence.
Qed.

Section Frontier.
Import Scraper.
Context {World Html : Type}.
Variable fetch : World -> string -> World * crawl_result Html.
Variable parse_listing : Html -> string -> listing_page.
Variable is_product_url : string -> bool.

Local Abbreviation frontier := (frontier is_product_url).

Lemma with_product_urls_id (s : t) (X : gset string) :
  X = product_urls s -> with_product_urls (fun _ => X) s = s.
Proof. intros ->. destruct s. reflexivity. Qed.

Lemma frontier_nil (s : t) : frontier s s [].
Proof.
  split; [constructor|]. split.
  - intros u Hu. apply elem_of_nil in Hu. destruct Hu.
  - destruct s. unfold with_product_urls. simpl. f_equal. set_tauto.
Qed.

Lemma frontier_app (s s1 s2 : t) (new1 new2 : list string) :
  frontier s s1 new1 -> frontier s1 s2 new2 -> frontier s s2 (new1 ++ new2).
Proof.
  intros (N1 & F1 & E1) (N2 & F2 & E2). subst s1 s2. simpl in F2.
  split; [|split].
  - apply NoDup_app. split; [exact N1|]. split; [|exact N2].
    intros u H1 H2. destruct (F2 u H2) as (_ & Hn & _). apply Hn.
    apply elem_of_union. left. apply elem_of_list_to_set. exact H1.
  - intros u Hu. apply elem_of_app in Hu as [Hu|Hu]; [exact (F1 u Hu)|].
    destruct (F2 u Hu) as (Hne & Hn & Hp). split; [exact Hne|]. split; [|exact Hp].
    intros Hin. apply Hn. apply elem_of_union. right. exact Hin.
  - destruct s. unfold with_product_urls. simpl. f_equal.
    apply set_eq. intros u.
    rewrite !elem_of_union, !elem_of_list_to_set, elem_of_app. tauto.
Qed.

Lemma collect_products_frontier (links : list string) :
  forall (s : t) (products : list string) (n : Z),
    let r := collect_products is_product_url links s products n in
    exists new,
      r.1.2 = (products ++ new)%list /\
      r.2 = n + Z.of_nat (length new) /\
      frontier s r.1.1 new /\
      (forall u, u ∈ new -> u ∈ links).
Proof.
  induction links as [|u links IH]; intros s products n; simpl.
  - exists []. rewrite app_nil_r. split; [reflexivity|]. split; [simpl; lia|].
    split; [apply frontier_nil|]. intros u Hu. exact Hu.
  - destruct (Text.truthy u && negb (bool_decide (u ∈ product_urls s))
              && is_product_url u) eqn:E.
    + apply andb_true_iff in E as [E Hp]. apply andb_true_iff in E as [Ht Hn].
      apply negb_true_iff, bool_decide_eq_false in Hn.
      destruct (IH (with_product_urls (fun x => {[u]} ∪ x) s)
                  (products ++ [u])%list (n + 1)) as (new & H1 & H2 & H3 & H4).
      exists (u :: new). rewrite H1, H2, <- app_assoc.
      split; [reflexivity|]. split; [simpl length; lia|]. split.
      * apply (frontier_app s (with_product_urls (fun x => {[u]} ∪ x) s) _ [u] new);
          [|exact H3].
        split; [apply NoDup_singleton|]. split.
        -- intros v Hv. apply list_elem_of_singleton in Hv. subst v.
           split; [apply truthy_nonempty; exact Ht|]. split; [exact Hn | exact Hp].
        -- destruct s. unfold with_product_urls. simpl. f_equal. set_tauto.
      * intros v Hv. apply elem_of_cons in Hv as [->|Hv];
          [apply elem_of_cons; left; reflexivity|].
        apply elem_of_cons. right. exact (H4 v Hv).
    + destruct (IH s products n) as (new & H1 & H2 & H3 & H4).
      exists new. split; [exact H1|]. split; [exact H2|]. split; [exact H3|].
      intros v Hv. apply elem_of_cons. right. exact (H4 v Hv).
Qed.

Lemma read_listing_frontier (page : listing_page) (url : string) (s : t) :
  let r := read_listing is_product_url page url s in
  frontier s r.1.1.1 r.1.1.2 /\
  r.1.2 = Z.of_nat (length r.1.1.2) /\
  (forall u, u ∈ r.1.1.2 -> u ∈ lp_grid_links page \/ u ∈ lp_generic_links page).
Proof.
  unfold read_listing.
  destruct (collect_products_frontier (lp_grid_links page) s [] 0)
    as (new & H1 & H2 & H3 & H4).
  destruct (collect_products is_product_url (lp_grid_links page) s [] 0)
    as [[s1 products] n]. simpl in H1, H2, H3. subst products.
  destruct new as [|p new]; simpl in *.
  - assert (Hn : n = 0) by (rewrite H2; reflexivity). clear H2. subst n.
    destruct (collect_products_frontier (lp_generic_links page) s1 [] 0)
      as (new2 & G1 & G2 & G3 & G4).
    destruct (collect_products is_product_url (lp_generic_links page) s1 [] 0)
      as [[s2 products2] n2]. simpl in G1, G2, G3. subst products2 n2. simpl.
    split; [exact (frontier_app s s1 s2 [] new2 H3 G3)|]. split; [lia|].
    intros u Hu. right. exact (G4 u Hu).
  - split; [exact H3|]. split; [lia|].
    intros u Hu. left. exact (H4 u Hu).
Qed.

End Frontier.

Lemma parse_subcategory_page_effect
    {World Html : Type}
    (fetch : World -> string -> World * Scraper.crawl_result Html)
    (parse_listing : Html -> string -> Scraper.listing_page)
    (is_product_url : string -> bool)
    (s : Scraper.t) (w : World) (url category : string) :
  let r := Scraper.parse_subcategory_page fetch parse_listing is_product_url
             s w url category in
  let s' := r.1.1 in
  let products := Scraper.pd_products r.2 in
  NoDup products /\
  (forall u, u ∈ products ->
             u <> "" /\ (u ∉ Scraper.product_urls s) /\ is_product_url u = true) /\
  Scraper.product_urls s' = list_to_set products ∪ Scraper.product_urls s /\
  Scraper.new_products s' category
    = Scraper.new_products s category + Z.of_nat (length products) /\
  Scraper.empty_streak s' category
    = (if fetched fetch w url
       then match products with
            | [] => Scraper.empty_streak s category + 1
            | _ => 0
            end
       else Scraper.empty_streak s category) /\
  (forall c, c <> category ->
             Scraper.new_products s' c = Scraper.new_products s c /\
             Scraper.empty_streak s' c = Scraper.empty_streak s c) /\
  url ∈ Scraper.dd_get ∅ (Scraper.visited_urls_per_category s') category.
Proof.
  cbv zeta. unfold Scraper.parse_subcategory_page, Scraper.safe_crawl_page, fetched.
  set (s0 := Scraper.with_log _ (Scraper.with_visited _ s)).
  assert (Hvis : url ∈ Scraper.dd_get ∅ (Scraper.visited_urls_per_category s0) category).
  { unfold s0, Scraper.dd_get, Scraper.dd_update. simpl.
    rewrite lookup_insert_eq. simpl. apply elem_of_union. left.
    apply elem_of_singleton. reflexivity. }
  assert (Hs0 : Scraper.product_urls s0 = Scraper.product_urls s /\
                Scraper.new_products_found s0 = Scraper.new_products_found s /\
                Scraper.consecutive_empty_pages s0 = Scraper.consecutive_empty_pages s)
    by (repeat split; reflexivity).
  clearbody s0. destruct Hs0 as (Hp0 & Hf0 & He0).
  assert (Hfail :
    NoDup (@nil string) /\
    (forall u, u ∈ @nil string ->
               u <> "" /\ (u ∉ Scraper.product_urls s) /\ is_product_url u = true) /\
    Scraper.product_urls s0 = list_to_set (@nil string) ∪ Scraper.product_urls s /\
    Scraper.new_products s0 category
      = Scraper.new_products s category + Z.of_nat (length (@nil string)) /\
    Scraper.empty_streak s0 category = Scraper.empty_streak s category /\
    (forall c, c <> category ->
               Scraper.new_products s0 c = Scraper.new_products s c /\
               Scraper.empty_streak s0 c = Scraper.empty_streak s c) /\
    url ∈ Scraper.dd_get ∅ (Scraper.visited_urls_per_category s0) category).
  { unfold Scraper.new_products, Scraper.empty_streak. rewrite Hp0, Hf0, He0.
    split; [constructor|]. split; [intros u Hu; apply elem_of_nil in Hu; destruct Hu|].
    split; [simpl; set_tauto|]. split; [simpl; lia|]. split; [reflexivity|].
    split; [intros c _; split; reflexivity | exact Hvis]. }
  destruct (Scraper.validate_url url); simpl; [|exact Hfail].
  destruct (fetch w url) as [w1 [|html]]; simpl; [exact Hfail|]. clear Hfail.
  assert (Hread : exists (s1 : Scraper.t) (products : list string) (next : option string),
            match html with
            | Some html =>
                Scraper.read_listing is_product_url (parse_listing html url) url s0
            | None => (s0, [], 0, None)
            end = (s1, products, Z.of_nat (length products), next) /\
            frontier is_product_url s0 s1 products).
  { destruct html as [html|].
    - destruct (read_listing_frontier is_product_url (parse_listing html url) url s0)
        as (F1 & F2 & _).
      destruct (Scraper.read_listing is_product_url (parse_listing html url) url s0)
        as [[[s1 products] n] next]. simpl in F1, F2. subst n.
      exists s1, products, next. split; [reflexivity | exact F1].
    - exists s0, [], None. split; [reflexivity | apply frontier_nil]. }
  destruct Hread as (s1 & products & next & -> & Hnd & Hnew & Hs1).
  assert (Hp1 : Scraper.product_urls s1 = list_to_set products ∪ Scraper.product_urls s).
  { rewrite Hs1. simpl. rewrite Hp0. reflexivity. }
  assert (Hf1 : Scraper.new_products_found s1 = Scraper.new_products_found s).
  { rewrite Hs1. simpl. exact Hf0. }
  assert (He1 : Scraper.consecutive_empty_pages s1 = Scraper.consecutive_empty_pages s).
  { rewrite Hs1. simpl. exact He0. }
  assert (Hv1 : Scraper.visited_urls_per_category s1 = Scraper.visited_urls_per_category s0).
  { rewrite Hs1. reflexivity. }
  rewrite Hp0 in Hnew. clear Hs1.
  split; [exact Hnd|]. split; [exact Hnew|].
  unfold Scraper.new_products, Scraper.empty_streak.
  destruct products as [|p products].
  - simpl. rewrite Hp1, Hf1, He1, Hv1.
    split; [reflexivity|]. split; [lia|].
    split; [unfold Scraper.dd_get, Scraper.dd_update; rewrite lookup_insert_eq; reflexivity|].
    split; [|exact Hvis].
    intros c Hc. split; [reflexivity|].
    unfold Scraper.dd_get, Scraper.dd_update. rewrite lookup_insert_ne by congruence.
    reflexivity.
  - assert (Hz : (Z.of_nat (length (p :: products)) =? 0) = false).
    { apply Z.eqb_neq. simpl length. lia. }
    rewrite Hz. cbn [fst snd Scraper.pd_products Scraper.product_urls
                     Scraper.new_products_found Scraper.consecutive_empty_pages
                     Scraper.visited_urls_per_category
                     Scraper.with_new_products_found
                     Scraper.with_consecutive_empty_pages].
    rewrite Hp1, Hf1, He1, Hv1.
    split; [reflexivity|].
    split; [unfold Scraper.dd_get, Scraper.dd_update; rewrite lookup_insert_eq; reflexivity|].
    split; [unfold Scraper.dd_get; rewrite lookup_insert_eq; reflexivity|].
    split; [|exact Hvis].
    intros c Hc. unfold Scraper.dd_get, Scraper.dd_update.
    rewrite !lookup_insert_ne by congruence. split; reflexivity.
Qed.


(** * The orchestrator *)

Section Discover.
Import Scraper.
Context {World Html : Type}.
Variable fetch : World -> string -> World * crawl_result Html.
Variable parse_listing : Html -> string -> listing_page.
Variable is_product_url : string -> bool.
Variable time : nat -> Z.

Local Abbreviation grows := (grows is_product_url).
Local Abbreviation parse_subcategory_page :=
  (parse_subcategory_page fetch parse_listing is_product_url).
Local Abbreviation following_pages :=
  (Orchestrator.following_pages fetch parse_listing is_product_url).
Local Abbreviation discover :=
  (Orchestrator.discover fetch parse_listing is_product_url).

Lemma grows_nil (s s' : t) : product_urls s' = product_urls s -> grows s s' [].
Proof.
  intros E. split; [constructor|]. split.
  - intros u Hu. apply elem_of_nil in Hu. destruct Hu.
  - rewrite E. simpl. set_tauto.
Qed.

Lemma grows_app (s s1 s2 : t) (new1 new2 : list string) :
  grows s s1 new1 -> grows s1 s2 new2 -> grows s s2 (new1 ++ new2).
Proof.
  intros (N1 & F1 & E1) (N2 & F2 & E2).
  split; [|split].
  - apply NoDup_app. split; [exact N1|]. split; [|exact N2].
    intros u H1 H2. destruct (F2 u H2) as (_ & Hn & _). apply Hn.
    rewrite E1. apply elem_of_union. left. apply elem_of_list_to_set. exact H1.
  - intros u Hu. apply elem_of_app in Hu as [Hu|Hu]; [exact (F1 u Hu)|].
    destruct (F2 u Hu) as (Hne & Hn & Hp). split; [exact Hne|]. split; [|exact Hp].
    intros Hin. apply Hn. rewrite E1. apply elem_of_union. right. exact Hin.
  - rewrite E2, E1. apply set_eq. intros u.
    rewrite !elem_of_union, !elem_of_list_to_set, elem_of_app. tauto.
Qed.

Lemma parse_subcategory_page_grows (s : t) (w : World) (url category : string) :
  let r := parse_subcategory_page s w url category in
  grows s r.1.1 (pd_products r.2).
Proof.
  destruct (parse_subcategory_page_effect fetch parse_listing is_product_url
              s w url category) as (H1 & H2 & H3 & _).
  split; [exact H1|]. split; [exact H2 | exact H3].
Qed.

Lemma listing_requests_app (l1 l2 : list event) :
  listing_requests (l1 ++ l2) = (listing_requests l1 + listing_requests l2)%nat.
Proof. unfold listing_requests. rewrite List.filter_app, length_app. reflexivity. Qed.

(** A call of [parse_subcategory_page] asks for one page. *)
Lemma parse_subcategory_page_log (s : t) (w : World) (url category : string) :
  log (parse_subcategory_page s w url category).1.1
  = (log s ++ [EvCrawl url "subcategory_page"])%list.
Proof.
  unfold Scraper.parse_subcategory_page, safe_crawl_page.
  set (s0 := with_log _ (with_visited _ s)).
  assert (H0 : log s0 = (log s ++ [EvCrawl url "subcategory_page"])%list) by reflexivity.
  clearbody s0.
  destruct (negb (validate_url url)); [exact H0|].
  destruct (fetch w url) as [w1 [|html]]; [exact H0|].
  assert (Hread : exists (s1 : t) (products : list string) (n : Z) (next : option string),
            match html with
            | Some html => read_listing is_product_url (parse_listing html url) url s0
            | None => (s0, [], 0, None)
            end = (s1, products, n, next) /\ log s1 = log s0).
  { destruct html as [html|].
    - destruct (read_listing_frontier is_product_url (parse_listing html url) url s0)
        as ((_ & _ & F1) & _).
      destruct (read_listing is_product_url (parse_listing html url) url s0)
        as [[[s1 products] n] next]. simpl in F1.
      exists s1, products, n, next. split; [reflexivity|]. rewrite F1. reflexivity.
    - exists s0, [], 0, None. split; reflexivity. }
  destruct Hread as (s1 & products & n & next & -> & Hl).
  destruct (n =? 0); simpl; rewrite Hl; exact H0.
Qed.

Lemma following_pages_spec (fuel : nat) :
  forall (s : t) (w : World) (next_page : option string) (page_count : Z)
         (all : list string),
    (Z.to_nat (3 - page_count) <= fuel)%nat ->
    exists s' w' new,
      following_pages fuel s w next_page page_count all = Some (s', w', (all ++ new)%list) /\
      grows s s' new /\
      (listing_requests (log s') <=
       listing_requests (log s) + Z.to_nat (3 - page_count))%nat.
Proof.
  induction fuel as [|fuel IH]; intros s w next_page page_count all Hfuel.
  - simpl. assert (Hpc : (page_count <? 3) = false) by (apply Z.ltb_ge; lia).
    rewrite Hpc, andb_false_r. exists s, w, []. rewrite app_nil_r.
    split; [reflexivity|]. split; [apply grows_nil; reflexivity | lia].
  - cbn [Orchestrator.following_pages].
    destruct (Text.truthy_opt next_page && (page_count <? 3)) eqn:Ec.
    2:{ exists s, w, []. rewrite app_nil_r.
        split; [reflexivity|]. split; [apply grows_nil; reflexivity | lia]. }
    apply andb_true_iff in Ec as [_ Hpc]. apply Z.ltb_lt in Hpc.
    pose proof (parse_subcategory_page_grows s w (default "" next_page) "WOMAN") as Hg.
    pose proof (parse_subcategory_page_log s w (default "" next_page) "WOMAN") as Hl.
    destruct (parse_subcategory_page s w (default "" next_page) "WOMAN")
      as [[s1 w1] data]. simpl in Hg, Hl.
    assert (Hreq : listing_requests (log s1) = (listing_requests (log s) + 1)%nat).
    { rewrite Hl, listing_requests_app. reflexivity. }
    destruct (negb (Text.truthy_opt (pd_next_page data))).
    + exists s1, w1, (pd_products data). split; [reflexivity|]. split; [exact Hg|].
      rewrite Hreq. lia.
    + destruct (IH s1 w1 (pd_next_page data) (page_count + 1)
                  (all ++ pd_products data)%list) as (s2 & w2 & new & E & G & R);
        [lia|].
      exists s2, w2, (pd_products data ++ new)%list.
      split; [rewrite E, <- app_assoc; reflexivity|].
      split; [exact (grows_app s s1 s2 _ _ Hg G)|].
      rewrite Hreq in R. lia.
Qed.

Lemma discover_spec (fuel : nat) (category_urls : list string) :
  (2 <= fuel)%nat ->
  forall (s : t) (w : World) (all : list string),
    exists s' w' new,
      discover fuel s w category_urls all = Some (s', w', (all ++ new)%list) /\
      grows s s' new /\
      (listing_requests (log s') <=
       listing_requests (log s) + 3 * length category_urls)%nat.
Proof.
  intros Hfuel. induction category_urls as [|u rest IH]; intros s w all.
  - exists s, w, []. rewrite app_nil_r. simpl.
    split; [reflexivity|]. split; [apply grows_nil; reflexivity | lia].
  - cbn [Orchestrator.discover].
    pose proof (parse_subcategory_page_grows s w u "WOMAN") as Hg.
    pose proof (parse_subcategory_page_log s w u "WOMAN") as Hl.
    destruct (parse_subcategory_page s w u "WOMAN") as [[s1 w1] data].
    simpl in Hg, Hl.
    assert (Hreq : listing_requests (log s1) = (listing_requests (log s) + 1)%nat).
    { rewrite Hl, listing_requests_app. reflexivity. }
    destruct (following_pages_spec fuel s1 w1 (pd_next_page data) 1
                (all ++ pd_products data)%list) as (s2 & w2 & new2 & E2 & G2 & R2);
      [simpl; lia|].
    rewrite E2.
    destruct (IH s2 w2 ((all ++ pd_products data) ++ new2)%list)
      as (s3 & w3 & new3 & E3 & G3 & R3).
    exists s3, w3, ((pd_products data ++ new2) ++ new3)%list.
    split; [rewrite E3, <- !app_assoc; reflexivity|].
    split; [exact (grows_app s s2 s3 _ _ (grows_app s s1 s2 _ _ Hg G2) G3)|].
    simpl length. change (Z.to_nat (3 - 1)) with 2%nat in R2. lia.
Qed.

End Discover.

Section Batches.
Import Orchestrator.
Variable time : nat -> Z.

Local Abbreviation entry_at := (entry_at time).

Lemma entries_shift (i : nat) (batch : list string) :
  entries time i batch = imap (fun idx => entry_at (i + idx)) batch.
Proof. reflexivity. Qed.

Lemma range_from_slices (all : list string) (step : nat) :
  (0 < step)%nat ->
  forall fuel start,
    (length all - start <= fuel)%nat ->
    concat (List.map (fun i => entries time i (take step (drop i all)))
              (range_from fuel start (length all) step))
    = imap (fun idx => entry_at (start + idx)) (drop start all).
Proof.
  intros Hstep. induction fuel as [|fuel IH]; intros start Hfuel; simpl.
  - rewrite drop_ge by lia. reflexivity.
  - destruct (Nat.ltb_spec start (length all)) as [Hlt|Hge].
    + simpl. rewrite IH by lia. rewrite entries_shift.
      symmetry. rewrite <- (take_drop step (drop start all)) at 1.
      rewrite imap_app. f_equal.
      rewrite drop_drop, length_take, length_drop.
      apply imap_ext. intros k x Hk. simpl.
      apply lookup_lt_Some in Hk. rewrite length_drop in Hk. f_equal. lia.
    + rewrite drop_ge by lia. reflexivity.
Qed.

Lemma batches_concat (all : list string) :
  concat (batches time all) = imap entry_at all.
Proof.
  unfold batches, range.
  rewrite (range_from_slices all 10) by lia. reflexivity.
Qed.

Lemma range_from_sizes (all : list string) (step : nat) :
  (0 < step)%nat ->
  forall fuel start,
    Forall (fun b : list entry => (1 <= length b <= step)%nat)
      (List.map (fun i => entries time i (take step (drop i all)))
         (range_from fuel start (length all) step)).
Proof.
  intros Hstep. induction fuel as [|fuel IH]; intros start; simpl; [constructor|].
  destruct (Nat.ltb_spec start (length all)) as [Hlt|Hge]; [|constructor].
  simpl. constructor; [|apply IH].
  unfold entries. rewrite length_imap, length_take, length_drop. lia.
Qed.

End Batches.

Section Enqueue.
Import Orchestrator.
Variable time : nat -> Z.

Lemma entry_ids_distinct (urls : list string) :
  NoDup (List.map e_id (imap (entry_at time) urls)).
Proof.
  change (List.map e_id (imap (entry_at time) urls))
    with (e_id <$> imap (entry_at time) urls).
  rewrite fmap_imap.
  rewrite (imap_ext _ (fun k _ => pretty k)) by reflexivity.
  rewrite imap_seq_0. apply NoDup_fmap_2; [apply _ | apply NoDup_seq].
Qed.

Lemma entry_urls (urls : list string) :
  List.map e_url (imap (entry_at time) urls) = urls.
Proof.
  change (List.map e_url (imap (entry_at time) urls))
    with (e_url <$> imap (entry_at time) urls).
  rewrite fmap_imap.
  rewrite (imap_ext _ (const id)) by reflexivity.
  rewrite imap_const. apply list_fmap_id.
Qed.

End Enqueue.


(** * The retry loop *)

Section RetryFacts.
Import Retry.

Lemma dd_get_update_same (f : Z -> Z) (k : string) (m : gmap string Z) :
  Scraper.dd_get 0 (Scraper.dd_update 0 f k m) k = f (Scraper.dd_get 0 m k).
Proof. unfold Scraper.dd_update, Scraper.dd_get. rewrite lookup_insert_eq. reflexivity. Qed.

Lemma failures_in_errored (context : string) (m : monitor) :
  failures_in context (errored context m) = failures_in context m + 1.
Proof. unfold failures_in, errored. simpl. rewrite dd_get_update_same. lia. Qed.

Lemma failures_in_timed_out (context : string) (m : monitor) :
  failures_in context (timed_out context m) = failures_in context m + 1.
Proof. unfold failures_in, timed_out. simpl. rewrite dd_get_update_same. lia. Qed.

Lemma failures_in_sleep (context : string) (seconds : Z) (m : monitor) :
  failures_in context (sleep seconds m) = failures_in context m.
Proof. reflexivity. Qed.

Lemma failures_in_succeeded (context : string) (m : monitor) :
  failures_in context (succeeded m) = failures_in context m.
Proof. reflexivity. Qed.

End RetryFacts.

Ltac retry_leaf :=
  simpl;
  repeat first [ rewrite failures_in_succeeded | rewrite failures_in_sleep
               | rewrite failures_in_errored | rewrite failures_in_timed_out ];
  rewrite ?app_nil_r, <- ?app_assoc;
  first [discriminate | lia | reflexivity].

(** The retry loop of [safe_crawl_page].  An invalid URL is refused
    without a request and without touching the counters.  Otherwise the
    page is requested at most three times: [k] failed attempts are
    counted in [failed_requests] and, under the context, in the error
    or time-out counts; the loop sleeps 2 and then 4 seconds between
    attempts and never after the last one; a success is counted once and
    ends the loop, and a failure is returned only after three failed
    attempts.  The fall-through result after the loop is never
    returned. *)
Theorem X_safe_crawl_page_retries
    {World Html : Type}
    (arun : World -> string -> World * Retry.attempt Html)
    (m : Retry.monitor) (w : World) (url context : string) :
  let r := Retry.safe_crawl_page arun m w url context in
  let m' := r.1.1 in
  r.2 <> Retry.Failed Retry.MaxRetriesExceeded /\
  (r.2 = Retry.Failed Retry.InvalidURL <-> Scraper.validate_url url = false) /\
  (Scraper.validate_url url = false -> m' = m /\ r.1.2 = w) /\
  exists k,
    0 <= k <= 3 /\
    Retry.failed_requests m' = Retry.failed_requests m + k /\
    failures_in context m' = failures_in context m + k /\
    Retry.slept m' = (Retry.slept m ++ take (Z.to_nat k) [2; 4])%list /\
    Retry.successful_requests m'
      = Retry.successful_requests m
        + match r.2 with Retry.Ok _ => 1 | Retry.Failed _ => 0 end /\
    match r.2 with
    | Retry.Ok _ => k <= 2
    | Retry.Failed Retry.InvalidURL => k = 0
    | Retry.Failed _ => k = 3
    end.
Proof.
  cbv zeta. unfold Retry.safe_crawl_page.
  destruct (Scraper.validate_url url) eqn:Ev; simpl.
  2:{ split; [discriminate|]. split; [tauto|]. split; [auto|].
      exists 0. rewrite app_nil_r. repeat split; lia. }
  change (seqZ 0 Retry.max_retries) with [0; 1; 2].
  cbn [Retry.attempts].
  assert (Hneq : forall e, e <> Retry.InvalidURL ->
            (@Retry.Failed Html e = Retry.Failed Retry.InvalidURL <-> true = false)).
  { intros e He. split; [intros [= H]; contradiction | discriminate]. }
  assert (Hok : forall h : option Html,
            (Retry.Ok h = Retry.Failed Retry.InvalidURL <-> true = false)).
  { intros h. split; discriminate. }
  assert (Hleaf : forall (m' : Retry.monitor) (w' : World) (res : Retry.result Html)
                          (k : Z),
    res <> Retry.Failed Retry.MaxRetriesExceeded ->
    res <> Retry.Failed Retry.InvalidURL ->
    0 <= k <= 3 ->
    Retry.failed_requests m' = Retry.failed_requests m + k ->
    failures_in context m' = failures_in context m + k ->
    Retry.slept m' = (Retry.slept m ++ take (Z.to_nat k) [2; 4])%list ->
    Retry.successful_requests m'
      = Retry.successful_requests m
        + match res with Retry.Ok _ => 1 | Retry.Failed _ => 0 end ->
    match res with
    | Retry.Ok _ => k <= 2
    | Retry.Failed Retry.InvalidURL => k = 0
    | Retry.Failed _ => k = 3
    end ->
    (m', w', res).2 <> Retry.Failed Retry.MaxRetriesExceeded /\
    ((m', w', res).2 = Retry.Failed Retry.InvalidURL <-> true = false) /\
    (true = false -> (m', w', res).1.1 = m /\ (m', w', res).1.2 = w) /\
    exists k,
      0 <= k <= 3 /\
      Retry.failed_requests (m', w', res).1.1 = Retry.failed_requests m + k /\
      failures_in context (m', w', res).1.1 = failures_in context m + k /\
      Retry.slept (m', w', res).1.1 = (Retry.slept m ++ take (Z.to_nat k) [2; 4])%list /\
      Retry.successful_requests (m', w', res).1.1
        = Retry.successful_requests m
          + match (m', w', res).2 with Retry.Ok _ => 1 | Retry.Failed _ => 0 end /\
      match (m', w', res).2 with
      | Retry.Ok _ => k <= 2
      | Retry.Failed Retry.InvalidURL => k = 0
      | Retry.Failed _ => k = 3
      end).
  { intros m' w' res k H1 H2 H3 H4 H5 H6 H7 H8. simpl.
    split; [exact H1|]. split; [split; [intros E; contradiction | discriminate]|].
    split; [discriminate|]. exists k. tauto. }
  destruct (arun w url) as [w1 [h1| | |]];
    [apply (Hleaf _ _ _ 0); retry_leaf | ..];
    (destruct (arun w1 url) as [w2 [h2| | |]];
     [apply (Hleaf _ _ _ 1); retry_leaf | ..];
     (destruct (arun w2 url) as [w3 [h3| | |]];
      [apply (Hleaf _ _ _ 2) | apply (Hleaf _ _ _ 3) ..]; retry_leaf)).
Qed.

(** * The progress record of a category *)

Section Progress.
Import Scraper.
Context {World Html : Type}.
Variable fetch : World -> string -> World * crawl_result Html.
Variable parse_product : Html -> option product_page.
Variable parse_listing : Html -> string -> listing_page.
Variable is_product_url : string -> bool.
Variable get_category_name_from_url : string -> string.
Variable get_subcategory_name_from_url : string -> string.

(** Only the pagination loop writes [pages_processed]. *)
Lemma safe_crawl_page_progress (s : t) (w : World) (url context : string) :
  pages_processed (safe_crawl_page fetch s w url context).1.1 = pages_processed s.
Proof.
  unfold safe_crawl_page. destruct (negb (validate_url url)); [reflexivity|].
  destruct (fetch w url). reflexivity.
Qed.

Lemma extract_product_details_progress (s : t) (w : World) (u c sc : string) :
  pages_processed (extract_product_details fetch parse_product s w u c sc).1.1
  = pages_processed s.
Proof.
  unfold extract_product_details.
  pose proof (safe_crawl_page_progress s w u "product_page") as H.
  destruct (safe_crawl_page fetch s w u "product_page") as [[s1 w1] r].
  simpl in H. destruct r as [|[html|]]; try exact H.
  destruct (parse_product html); [|exact H].
  destruct (negb _); exact H.
Qed.

Lemma process_single_product_progress (c sc : string) (s : t) (w : World) (u : string) :
  pages_processed (process_single_product fetch parse_product c sc s w u).1.1
  = pages_processed s.
Proof.
  unfold process_single_product.
  destruct (bool_decide _); [reflexivity|].
  pose proof (extract_product_details_progress s w u c sc) as H.
  destruct (extract_product_details fetch parse_product s w u c sc) as [[s1 w1] r].
  simpl in H. destruct r as [|[info|]]; simpl; exact H.
Qed.

Lemma gather_progress (c sc : string) (urls : list string) :
  forall (s : t) (w : World),
    pages_processed (gather fetch parse_product c sc s w urls).1.1 = pages_processed s.
Proof.
  induction urls as [|u urls IH]; intros s w; simpl; [reflexivity|].
  pose proof (process_single_product_progress c sc s w u) as H.
  destruct (process_single_product fetch parse_product c sc s w u) as [[s1 w1] r].
  specialize (IH s1 w1).
  destruct (gather fetch parse_product c sc s1 w1 urls) as [[s2 w2] rs].
  simpl in *. congruence.
Qed.

Lemma run_batches_progress (c sc : string) (batch_size : nat) (fuel : nat) :
  forall (s : t) (w : World) (urls : list string) results,
    pages_processed
      (run_batches fetch parse_product fuel batch_size c sc s w urls results).1.1
    = pages_processed s.
Proof.
  induction fuel as [|fuel IH]; intros s w urls results.
  - destruct urls; reflexivity.
  - destruct urls as [|u urls]; [reflexivity|].
    cbn [run_batches].
    pose proof (gather_progress c sc (take batch_size (u :: urls)) s w) as H.
    destruct (gather fetch parse_product c sc s w (take batch_size (u :: urls)))
      as [[s1 w1] rs].
    rewrite IH. exact H.
Qed.

Lemma store_results_progress (key : string) (results : list _) :
  forall s : t, pages_processed (store_results key results s) = pages_processed s.
Proof.
  induction results as [|r results IH]; intros s; simpl; [reflexivity|].
  destruct r as [[u [info|]]|]; try apply IH.
  destruct (negb _); rewrite IH; reflexivity.
Qed.

Lemma process_products_progress (s : t) (w : World) (c sc : string)
    (urls : list string) (max_concurrent : positive) :
  pages_processed
    (process_products fetch parse_product s w c sc urls max_concurrent).1
  = pages_processed s.
Proof.
  unfold process_products.
  destruct (List.filter _ urls) as [|u l] eqn:E; [reflexivity|].
  pose proof (run_batches_progress c sc (Pos.to_nat max_concurrent)
                (length (u :: l)) s w (u :: l) []) as H.
  destruct (run_batches fetch parse_product (length (u :: l))
              (Pos.to_nat max_concurrent) c sc s w (u :: l) []) as [[s1 w1] rs].
  simpl in *. rewrite store_results_progress. exact H.
Qed.

Lemma collect_products_progress (links : list string) :
  forall (s : t) (products : list string) (n : Z),
    pages_processed (collect_products is_product_url links s products n).1.1
    = pages_processed s.
Proof.
  induction links as [|u links IH]; intros s products n; simpl; [reflexivity|].
  destruct (_ && _); rewrite IH; reflexivity.
Qed.

Lemma collect_subcategories_progress (links : list string) :
  forall (s : t) (subs : list string),
    pages_processed (collect_subcategories is_product_url links s subs).1
    = pages_processed s.
Proof.
  induction links as [|u links IH]; intros s subs; simpl; [reflexivity|].
  destruct (_ && _); rewrite IH; reflexivity.
Qed.

Lemma read_listing_progress (page : listing_page) (url : string) (s : t) :
  pages_processed (read_listing is_product_url page url s).1.1.1 = pages_processed s.
Proof.
  unfold read_listing.
  pose proof (collect_products_progress (lp_grid_links page) s [] 0) as H1.
  destruct (collect_products is_product_url (lp_grid_links page) s [] 0)
    as [[s1 products] n]. simpl in H1.
  destruct products as [|p products]; simpl; [|exact H1].
  pose proof (collect_products_progress (lp_generic_links page) s1 [] n) as H2.
  destruct (collect_products is_product_url (lp_generic_links page) s1 [] n)
    as [[s2 products2] n2]. simpl in *. congruence.
Qed.

Lemma parse_subcategory_page_progress (s : t) (w : World) (url category : string) :
  pages_processed
    (parse_subcategory_page fetch parse_listing is_product_url s w url category).1.1
  = pages_processed s.
Proof.
  unfold parse_subcategory_page, safe_crawl_page.
  set (s0 := with_log _ (with_visited _ s)).
  assert (H0 : pages_processed s0 = pages_processed s) by reflexivity.
  clearbody s0.
  destruct (negb (validate_url url)); [exact H0|].
  destruct (fetch w url) as [w1 [|html]]; [exact H0|].
  destruct html as [html|].
  - pose proof (read_listing_progress (parse_listing html url) url s0) as H.
    destruct (read_listing is_product_url (parse_listing html url) url s0)
      as [[[s1 products] n] next]. simpl in H.
    destruct (n =? 0); simpl; congruence.
  - simpl. exact H0.
Qed.

Lemma parse_category_page_progress (s : t) (w : World) (url : string) :
  pages_processed
    (parse_category_page fetch parse_listing is_product_url s w url).1.1
  = pages_processed s.
Proof.
  unfold parse_category_page, safe_crawl_page.
  set (s0 := with_log _ s).
  assert (H0 : pages_processed s0 = pages_processed s) by reflexivity.
  clearbody s0.
  destruct (negb (validate_url url)); [exact H0|].
  destruct (fetch w url) as [w1 [|[html|]]]; try exact H0.
  pose proof (collect_subcategories_progress
                (lp_subcategory_links (parse_listing html url)) s0 []) as H1.
  destruct (collect_subcategories is_product_url
              (lp_subcategory_links (parse_listing html url)) s0 [])
    as [s1 subs]. simpl in H1.
  pose proof (read_listing_progress (parse_listing html url) url s1) as H2.
  destruct (read_listing is_product_url (parse_listing html url) url s1)
    as [[[s2 products] n] next]. simpl in *. congruence.
Qed.

Lemma validate_page_has_products_progress (s : t) (w : World) (url : string) :
  pages_processed (validate_page_has_products fetch parse_listing s w url).1.1
  = pages_processed s.
Proof.
  unfold validate_page_has_products.
  pose proof (safe_crawl_page_progress s w url "page_validation") as H.
  destruct (safe_crawl_page fetch s w url "page_validation") as [[s1 w1] r].
  simpl in H. destruct r as [|[html|]]; exact H.
Qed.

Lemma parse_product_page_progress (s : t) (w : World) (u c sc : string) :
  pages_processed (parse_product_page fetch parse_product s w u c sc).1.1
  = pages_processed s.
Proof.
  unfold parse_product_page.
  destruct (bool_decide _); [reflexivity|].
  pose proof (extract_product_details_progress s w u c sc) as H.
  destruct (extract_product_details fetch parse_product s w u c sc) as [[s1 w1] r].
  simpl in H. destruct r as [|[info|]]; simpl; try exact H.
  destruct (negb _); simpl; exact H.
Qed.

Lemma parse_direct_products_progress (category : string) (products : list string) :
  forall (s : t) (w : World),
    pages_processed
      (parse_direct_products fetch parse_product is_product_url
         get_subcategory_name_from_url s w category products).1
    = pages_processed s.
Proof.
  induction products as [|u products IH]; intros s w; simpl; [reflexivity|].
  destruct (is_product_url u); [|apply IH].
  pose proof (parse_product_page_progress s w u category
                (get_subcategory_name_from_url u)) as H.
  destruct (parse_product_page fetch parse_product s w u category
              (get_subcategory_name_from_url u)) as [[s1 w1] r].
  rewrite IH. exact H.
Qed.

Local Abbreviation body := (loop_body fetch parse_product parse_listing is_product_url).
Local Abbreviation loop := (pagination_loop fetch parse_product parse_listing is_product_url).

(** One execution of the loop body: with a progress record it counts the
    page and does not raise; without one it raises after the page was
    read. *)
Lemma loop_body_progress (s : t) (w : World) (url : string) (max_pages : Z)
    (parent sub : string) (st : loop_state) :
  let r := body s w url max_pages parent sub st in
  match pages_processed s !! parent with
  | Some n =>
      (forall st', r.2 <> RaiseKeyError st') /\
      (pages_processed r.1.1 = pages_processed s \/
       pages_processed r.1.1 = <[parent := n + 1]> (pages_processed s))
  | None =>
      pages_processed r.1.1 = pages_processed s /\
      (is_category_complete s parent = false -> exists st', r.2 = RaiseKeyError st') /\
      (is_category_complete s parent = true -> exists st', r.2 = Break st')
  end.
Proof.
  cbv zeta. unfold loop_body.
  cbn [current_url page_count consecutive_empty total_products_found
       javascript_pagination_detected iterations].
  destruct (is_category_complete s parent) eqn:Ec.
  { simpl. destruct (pages_processed s !! parent).
    - split; [discriminate | left; reflexivity].
    - split; [reflexivity|]. split; [discriminate | eauto]. }
  pose proof (parse_subcategory_page_progress s w (current_url st) parent) as Hp.
  destruct (parse_subcategory_page fetch parse_listing is_product_url s w
              (current_url st) parent) as [[s1 w1] data]. simpl in Hp.
  cbv beta iota. rewrite Hp.
  destruct (pages_processed s !! parent) as [n|] eqn:En.
  2:{ simpl. split; [exact Hp|]. split; [eauto | discriminate]. }
  set (s2 := with_pages_processed _ s1).
  assert (H2 : pages_processed s2 = <[parent := n + 1]> (pages_processed s)).
  { unfold s2. simpl. rewrite Hp. reflexivity. }
  clearbody s2.
  set (found := Z.of_nat (length (pd_products data))).
  assert (Hfin : forall (s4 : t) (w4 : World) (ce : Z) (stop : bool),
    pages_processed s4 = <[parent := n + 1]> (pages_processed s) ->
    let r :=
      (if stop
       then (s4, w4, Break (LoopState (current_url st) (page_count st + 1) ce
                              (total_products_found st + found)
                              (javascript_pagination_detected st) (S (iterations st))))
       else if should_stop_pagination s4 parent found ce (page_count st + 1)
       then (s4, w4, Break (LoopState (current_url st) (page_count st + 1) ce
                              (total_products_found st + found)
                              (javascript_pagination_detected st) (S (iterations st))))
       else if bool_decide (pd_next_page data = Some javascript_pagination_detected_marker)
       then
         if page_count st + 1 <? max_pages then
           if Text.truthy (create_next_page_url (current_url st) (page_count st + 1 + 1))
           then (s4, w4, Continue
                   (LoopState (create_next_page_url (current_url st) (page_count st + 1 + 1))
                      (page_count st + 1) ce (total_products_found st + found)
                      true (S (iterations st))))
           else (s4, w4, Break (LoopState (current_url st) (page_count st + 1) ce
                                  (total_products_found st + found) true
                                  (S (iterations st))))
         else (s4, w4, Break (LoopState (current_url st) (page_count st + 1) ce
                                (total_products_found st + found) true
                                (S (iterations st))))
       else
         match pd_next_page data with
         | Some next_url =>
             if Text.truthy next_url then
               (s4, w4, Continue
                  (LoopState next_url (page_count st + 1) ce
                     (total_products_found st + found)
                     (javascript_pagination_detected st) (S (iterations st))))
             else (s4, w4, Break (LoopState (current_url st) (page_count st + 1) ce
                                    (total_products_found st + found)
                                    (javascript_pagination_detected st)
                                    (S (iterations st))))
         | None => (s4, w4, Break (LoopState (current_url st) (page_count st + 1) ce
                                     (total_products_found st + found)
                                     (javascript_pagination_detected st)
                                     (S (iterations st))))
         end) in
    (forall st', r.2 <> RaiseKeyError st') /\
    (pages_processed r.1.1 = pages_processed s \/
     pages_processed r.1.1 = <[parent := n + 1]> (pages_processed s))).
  { intros s4 w4 ce stop H4.
    cbv zeta.
    repeat match goal with
           | |- context [if ?x then _ else _] => destruct x
           | |- context [match pd_next_page data with _ => _ end] =>
               destruct (pd_next_page data)
           end; simpl; (split; [intros st'; discriminate | right; exact H4]). }
  assert (Hmid : forall (s3 : t) (w3 : World),
    pages_processed s3 = <[parent := n + 1]> (pages_processed s) ->
    exists s4 w4 ce stop,
      (if found =? 0 then
         if (2 <=? consecutive_empty st + 1) && Text.truthy_opt (pd_next_page data) then
           let '(s, w, has_products) :=
             validate_page_has_products fetch parse_listing s3 w3
               (default "" (pd_next_page data)) in
           (s, w, consecutive_empty st + 1, negb has_products)
         else (s3, w3, consecutive_empty st + 1, false)
       else (s3, w3, 0, false)) = (s4, w4, ce, stop) /\
      pages_processed s4 = <[parent := n + 1]> (pages_processed s)).
  { intros s3 w3 H3. destruct (found =? 0); [|eauto 6].
    destruct (_ && _); [|eauto 6].
    pose proof (validate_page_has_products_progress s3 w3
                  (default "" (pd_next_page data))) as H4.
    destruct (validate_page_has_products fetch parse_listing s3 w3
                (default "" (pd_next_page data))) as [[s4 w4] has].
    simpl in H4. rewrite H3 in H4. eauto 6. }
  destruct (elements _) as [|y l].
  - destruct (Hmid s2 w1 H2) as (s4 & w4 & ce & stop & E & H4).
    fold found. rewrite E. exact (Hfin s4 w4 ce stop H4).
  - pose proof (process_products_progress s2 w1 parent sub (y :: l) 5) as H3.
    destruct (process_products fetch parse_product s2 w1 parent sub (y :: l) 5)
      as [s3 w3]. simpl in H3. rewrite H2 in H3.
    destruct (Hmid s3 w3 H3) as (s4 & w4 & ce & stop & E & H4).
    fold found. rewrite E. exact (Hfin s4 w4 ce stop H4).
Qed.

Lemma pagination_loop_progress (url : string) (max_pages : Z) (parent sub : string) :
  forall (fuel : nat) (s : t) (w : World) (st : loop_state) s' w' st' e,
    is_Some (pages_processed s !! parent) ->
    loop fuel s w url max_pages parent sub st = Some (s', w', st', e) ->
    e = Completed /\ is_Some (pages_processed s' !! parent).
Proof.
  induction fuel as [|fuel IH]; intros s w st s' w' st' e Hkey Hrun; simpl in Hrun.
  - destruct (_ && _); [discriminate|]. injection Hrun as <- <- <- <-. auto.
  - destruct (_ && _); [|injection Hrun as <- <- <- <-; auto].
    pose proof (loop_body_progress s w url max_pages parent sub st) as Hb.
    cbv zeta in Hb. destruct Hkey as [n Hn]. rewrite Hn in Hb.
    destruct Hb as [Hno Hpp].
    destruct (body s w url max_pages parent sub st) as [[s1 w1] c]. simpl in Hno, Hpp.
    assert (Hkey1 : is_Some (pages_processed s1 !! parent)).
    { destruct Hpp as [-> | ->]; [eauto|]. rewrite lookup_insert_eq. eauto. }
    destruct c as [st1|st1|st1].
    + exact (IH s1 w1 st1 s' w' st' e Hkey1 Hrun).
    + injection Hrun as <- <- <- <-. auto.
    + exfalso. exact (Hno st1 eq_refl).
Qed.

Local Abbreviation walk :=
  (walk_subcategories fetch parse_product parse_listing is_product_url
     get_subcategory_name_from_url).

Lemma walk_subcategories_progress (max_pages : Z) (category : string)
    (subcategories : list string) (fuel : nat) :
  forall (s : t) (w : World) (pages : list nat) s' w' pages' e,
    is_Some (pages_processed s !! category) ->
    walk fuel s w max_pages category subcategories pages = Some (s', w', pages', e) ->
    e = Completed /\ is_Some (pages_processed s' !! category).
Proof.
  induction subcategories as [|sub_url rest IH];
    intros s w pages s' w' pages' e Hkey Hrun; simpl in Hrun.
  - injection Hrun as <- <- <- <-. auto.
  - destruct (is_category_complete s category); [injection Hrun as <- <- <- <-; auto|].
    destruct (process_subcategory_with_pagination fetch parse_product parse_listing
                is_product_url fuel s w sub_url max_pages category
                (get_subcategory_name_from_url sub_url))
      as [[[[s1 w1] st1] e1]|] eqn:E; [|discriminate].
    destruct (pagination_loop_progress sub_url max_pages category
                (get_subcategory_name_from_url sub_url) fuel s w _ s1 w1 st1 e1 Hkey E)
      as [-> Hkey1].
    exact (IH s1 w1 _ s' w' pages' e Hkey1 Hrun).
Qed.

Lemma crawl_with_pagination_completed (fuel : nat) (s : t) (w : World)
    (start_url : string) (max_pages : option Z) s' w' pages e :
  crawl_with_pagination fetch parse_product parse_listing is_product_url
    get_category_name_from_url get_subcategory_name_from_url
    fuel s w start_url max_pages = Some (s', w', pages, e) ->
  e = Completed.
Proof.
  unfold crawl_with_pagination.
  set (c := get_category_name_from_url start_url).
  set (s0 := with_pages_processed _ s).
  assert (H0 : is_Some (pages_processed s0 !! c)).
  { unfold s0. simpl. rewrite lookup_insert_eq. eauto. }
  clearbody s0.
  pose proof (parse_category_page_progress s0 w start_url) as Hp.
  destruct (parse_category_page fetch parse_listing is_product_url s0 w start_url)
    as [[s1 w1] data]. simpl in Hp. rewrite <- Hp in H0.
  destruct (walk fuel s1 w1 (default 5 max_pages) c (pd_subcategories data) [])
    as [[[[s2 w2] pages2] e2]|] eqn:E; [|discriminate].
  destruct (walk_subcategories_progress _ _ _ _ _ _ _ _ _ _ _ H0 E) as [-> _].
  destruct (parse_direct_products _ _ _ _ _ _ _ _). intros [= _ _ _ <-]. reflexivity.
Qed.

(** Without a progress record the first page read raises. *)
Lemma pagination_without_record (fuel : nat) (s : t) (w : World) (url : string)
    (max_pages : Z) (parent sub : string) :
  pages_processed s !! parent = None ->
  url <> "" -> 0 < max_pages ->
  is_category_complete s parent = false ->
  let r := parse_subcategory_page fetch parse_listing is_product_url s w url parent in
  process_subcategory_with_pagination fetch parse_product parse_listing
    is_product_url (S fuel) s w url max_pages parent sub
  = Some (r.1.1, r.1.2, LoopState url 1 0 0 false 1, KeyError).
Proof.
  intros Hnone Hurl Hmax Hc.
  unfold process_subcategory_with_pagination.
  cbn [pagination_loop current_url page_count].
  apply truthy_nonempty in Hurl. rewrite Hurl.
  assert (Hlt : (0 <? max_pages) = true) by (apply Z.ltb_lt; exact Hmax).
  rewrite Hlt. cbn [andb]. unfold loop_body.
  cbn [current_url page_count consecutive_empty total_products_found
       javascript_pagination_detected iterations].
  rewrite Hc.
  pose proof (parse_subcategory_page_progress s w url parent) as Hp.
  destruct (parse_subcategory_page fetch parse_listing is_product_url s w url parent)
    as [[s1 w1] data]. simpl in Hp. cbv beta iota zeta.
  rewrite Hp, Hnone. reflexivity.
Qed.

End Progress.

(** [crawl_with_pagination] creates the progress record of its category
    before it reads a page, so the update of that record in the
    pagination loop never fails: with fuel from its ceiling on, the
    crawl returns, and it returns normally. *)
Theorem X_crawl_with_pagination_completes
    {World Html : Type}
    (fetch : World -> string -> World * Scraper.crawl_result Html)
    (parse_product : Html -> option Scraper.product_page)
    (parse_listing : Html -> string -> Scraper.listing_page)
    (is_product_url : string -> bool)
    (get_category_name_from_url get_subcategory_name_from_url : string -> string)
    (s : Scraper.t) (w : World) (start_url : string) (max_pages : option Z) :
  exists s' w' pages,
    forall fuel, (Z.to_nat (default 5%Z max_pages) <= fuel)%nat ->
      Scraper.crawl_with_pagination fetch parse_product parse_listing is_product_url
        get_category_name_from_url get_subcategory_name_from_url
        fuel s w start_url max_pages
      = Some (s', w', pages, Scraper.Completed).
Proof.
  destruct (crawl_with_pagination_terminates fetch parse_product parse_listing
              is_product_url get_category_name_from_url get_subcategory_name_from_url
              s w start_url max_pages) as (s' & w' & pages & e & Hrun & _).
  exists s', w', pages. intros fuel Hfuel.
  rewrite (Hrun fuel Hfuel). 
  rewrite (crawl_with_pagination_completed fetch parse_product parse_listing
             is_product_url get_category_name_from_url get_subcategory_name_from_url
             fuel s w start_url max_pages s' w' pages e (Hrun fuel Hfuel)).
  reflexivity.
Qed.

(** [process_subcategory_with_pagination] called for a category that has
    no progress record (it is [crawl_with_pagination] that creates it)
    raises [KeyError] on its first page, after the page was read, unless
    the loop is not entered (empty URL, no page allowed) or the category
    is already complete.  The lookup itself changes nothing. *)
Theorem X_pagination_without_progress_record
    {World Html : Type}
    (fetch : World -> string -> World * Scraper.crawl_result Html)
    (parse_product : Html -> option Scraper.product_page)
    (parse_listing : Html -> string -> Scraper.listing_page)
    (is_product_url : string -> bool)
    (fuel : nat) (s : Scraper.t) (w : World) (url : string) (max_pages : Z)
    (parent_category subcategory_name : string) :
  Scraper.pages_processed s !! parent_category = None ->
  url <> "" -> 0 < max_pages ->
  Scraper.is_category_complete s parent_category = false ->
  let r := Scraper.parse_subcategory_page fetch parse_listing is_product_url
             s w url parent_category in
  Scraper.process_subcategory_with_pagination fetch parse_product parse_listing
    is_product_url (S fuel) s w url max_pages parent_category subcategory_name
  = Some (r.1.1, r.1.2, Scraper.LoopState url 1 0 0 false 1, Scraper.KeyError).
Proof. apply pagination_without_record. Qed.

(** * Categories of the worker *)

(** The category the worker stores for a product URL.  The mapping is
    found exactly for the URLs that contain [/woman/] and one of the
    markers [/jean], [/camisas-y-tops], [/remeras], [/vestidos],
    [/pantalones]; every other URL (all of GIRLS among them, whose
    subcategory is always inferred as [GENERAL]) is stored without
    category ids.  A mapping that is found always carries the category
    [prendas], and the markers are tried in that order. *)
Theorem X_worker_category_mapping (url : string) :
  let marked :=
    Text.contains "/jean" url || Text.contains "/camisas-y-tops" url
    || Text.contains "/remeras" url || Text.contains "/vestidos" url
    || Text.contains "/pantalones" url in
  (is_Some (Categories.category_mapping_of url)
   <-> Text.contains "/woman/" url && marked = true) /\
  (forall m, Categories.category_mapping_of url = Some m ->
             Categories.m_category_slug m = "prendas" /\
             Categories.m_subcategory_slug m =
               (if Text.contains "/jean" url then "jeans"
                else if Text.contains "/camisas-y-tops" url
                        || Text.contains "/remeras" url then "tops"
                else if Text.contains "/vestidos" url then "vestidos"
                else "pantalones")).
Proof.
  unfold Categories.category_mapping_of, Categories.infer_category_from_url.
  destruct (Text.contains "/woman/" url); cbn [andb].
  - destruct (Text.contains "/jean" url); cbn [orb].
    + split; [split; [reflexivity | intros _; eexists; reflexivity]|].
      intros m [= <-]. split; reflexivity.
    + destruct (Text.contains "/camisas-y-tops" url || Text.contains "/remeras" url);
        cbn [orb].
      * split; [split; [reflexivity | intros _; eexists; reflexivity]|].
        intros m [= <-]. split; reflexivity.
      * destruct (Text.contains "/vestidos" url); cbn [orb].
        -- split; [split; [reflexivity | intros _; eexists; reflexivity]|].
           intros m [= <-]. split; reflexivity.
        -- destruct (Text.contains "/pantalones" url).
           ++ split; [split; [reflexivity | intros _; eexists; reflexivity]|].
              intros m [= <-]. split; reflexivity.
           ++ split; [split; [intros [m H]; discriminate H | discriminate]|].
              intros m H. discriminate H.
  - destruct (Text.contains "/girls/" url);
      (split; [split; [intros [m H]; discriminate H | discriminate]|]);
      intros m H; discriminate H.
Qed.

(** * Pagination links *)

Section UniqueFacts.
Import Links.

Lemma unique_loop (l : list string) :
  forall acc,
    NoDup acc ->
    let r := fold_left
               (fun unique_links link =>
                  if bool_decide (link ∈ unique_links) then unique_links
                  else (unique_links ++ [link])%list) l acc in
    NoDup r /\ forall x, x ∈ r <-> x ∈ acc \/ x ∈ l.
Proof.
  induction l as [|a l IH]; intros acc Hnd; simpl.
  - split; [exact Hnd|]. intros x. split; [auto|]. intros [H|H]; [exact H|].
    apply elem_of_nil in H. destruct H.
  - case_bool_decide as Hin.
    + destruct (IH acc Hnd) as [H1 H2]. split; [exact H1|].
      intros x. rewrite H2, elem_of_cons. split; [tauto|].
      intros [H|[->|H]]; auto.
    + destruct (IH (acc ++ [a])%list) as [H1 H2].
      { apply NoDup_app. split; [exact Hnd|]. split; [|apply NoDup_singleton].
        intros x Hx Hx'. apply list_elem_of_singleton in Hx'. subst x. exact (Hin Hx). }
      split; [exact H1|]. intros x.
      rewrite H2, elem_of_app, list_elem_of_singleton, elem_of_cons. tauto.
Qed.

Lemma unique_spec (l : list string) :
  NoDup (unique l) /\ forall x, x ∈ unique l <-> x ∈ l.
Proof.
  destruct (unique_loop l [] (NoDup_nil_2)) as [H1 H2].
  split; [exact H1|]. intros x. rewrite H2. split; [|auto].
  intros [H|H]; [apply elem_of_nil in H; destruct H | exact H].
Qed.

End UniqueFacts.

Section LinkFacts.
Import Links.
Variable urljoin : string -> string -> option string.
Variable is_product_url : string -> bool.

Local Abbreviation normalize_url := (normalize_url urljoin).
Local Abbreviation validate_next_page_url := (validate_next_page_url is_product_url).
Local Abbreviation add_link := (add_link urljoin is_product_url).
Local Abbreviation accept := (accepted urljoin is_product_url).

Lemma normalize_url_http (href : string) (base : option string) :
  normalize_url href base = "" \/
  Text.startswith "http" (normalize_url href base) = true.
Proof.
  unfold Links.normalize_url.
  destruct (negb (Text.truthy href)); [left; reflexivity|].
  destruct (Text.startswith "http" href) eqn:E; [right; exact E|].
  destruct (urljoin _ href) as [n|]; [|left; reflexivity].
  destruct (Text.startswith "http" n) eqn:En; simpl; [right; exact En | left; reflexivity].
Qed.

Lemma normalize_url_absolute (href : string) (base : option string) :
  Text.startswith "http" href = true -> normalize_url href base = href.
Proof.
  intros H. unfold Links.normalize_url.
  destruct href as [|c h]; [reflexivity|]. simpl Text.truthy. cbn [negb].
  rewrite H. reflexivity.
Qed.

Lemma add_link_accepted (current_url : string) (acc : list string) (href : string) :
  Text.truthy href = true ->
  add_link current_url acc href
  = (acc ++ match accept current_url href with Some l => [l] | None => [] end)%list.
Proof.
  intros Ht. unfold Links.add_link, accepted.
  rewrite Ht. cbn [andb].
  destruct (_ && _); [reflexivity | rewrite app_nil_r; reflexivity].
Qed.

Lemma accept_blank (current_url href : string) :
  Text.truthy href = false -> accept current_url href = None.
Proof. intros H. unfold accepted. rewrite H. reflexivity. Qed.

Lemma selector_loop (current_url : string) (links : list (option string)) :
  forall acc,
    fold_left
      (fun acc href =>
         match href with
         | Some href => if Text.truthy href then add_link current_url acc href else acc
         | None => acc
         end) links acc
    = (acc ++ omap (accept current_url) (omap id links))%list.
Proof.
  induction links as [|[h|] links IH]; intros acc; simpl.
  - rewrite app_nil_r. reflexivity.
  - rewrite IH. destruct (Text.truthy h) eqn:Et.
    + rewrite (add_link_accepted _ _ _ Et), <- app_assoc.
      destruct (accept current_url h); reflexivity.
    + rewrite (accept_blank _ _ Et). reflexivity.
  - apply IH.
Qed.

Lemma selectors_loop (current_url : string) (selected : list (list (option string))) :
  forall acc,
    fold_left
      (fun acc links =>
         fold_left
           (fun acc href =>
              match href with
              | Some href =>
                  if Text.truthy href then add_link current_url acc href else acc
              | None => acc
              end) links acc) selected acc
    = (acc ++ omap (accept current_url) (omap id (concat selected)))%list.
Proof.
  induction selected as [|links selected IH]; intros acc; simpl.
  - rewrite app_nil_r. reflexivity.
  - rewrite IH, selector_loop, !omap_app, <- app_assoc. reflexivity.
Qed.

Lemma anchors_loop (current_url : string) (all_links : list string) :
  forall acc,
    fold_left
      (fun acc href =>
         if Text.truthy href && bool_decide (is_Some (Text.re_search_page href))
         then add_link current_url acc href
         else acc) all_links acc
    = (acc ++ omap (accept current_url)
                (List.filter (fun href => bool_decide (is_Some (Text.re_search_page href)))
                   all_links))%list.
Proof.
  induction all_links as [|h l IH]; intros acc; simpl.
  - rewrite app_nil_r. reflexivity.
  - rewrite IH. destruct (bool_decide (is_Some (Text.re_search_page h))) eqn:Ep.
    + rewrite andb_true_r. simpl. destruct (Text.truthy h) eqn:Et.
      * rewrite (add_link_accepted _ _ _ Et), <- app_assoc.
        destruct (accept current_url h); reflexivity.
      * rewrite (accept_blank _ _ Et). reflexivity.
    + rewrite andb_false_r. reflexivity.
Qed.

Lemma extract_pagination_links_unfold (selected : list (list (option string)))
    (all_links : list string) (current_url : string) :
  extract_pagination_links urljoin is_product_url selected all_links current_url
  = unique (omap (accept current_url) (candidates selected all_links)).
Proof.
  unfold extract_pagination_links, candidates.
  rewrite selectors_loop, anchors_loop, omap_app. reflexivity.
Qed.

Lemma validate_next_page_url_true (url current_url : string) :
  validate_next_page_url url current_url = true ->
  url <> "" /\ url <> current_url /\
  Text.contains "rapsodia.com.ar" url = true /\
  is_product_url url = false /\
  forall pattern, In pattern invalid_patterns -> Text.contains pattern url = false.
Proof.
  unfold Links.validate_next_page_url.
  destruct (Text.truthy url) eqn:Et; [|discriminate]. cbn [negb].
  destruct (String.eqb_spec url current_url) as [|Hne]; [discriminate|].
  destruct (Text.contains "rapsodia.com.ar" url); [|discriminate]. cbn [negb].
  destruct (is_product_url url); [discriminate|].
  destruct (existsb _ invalid_patterns) eqn:Ex; [discriminate|]. intros _.
  split; [apply truthy_nonempty; exact Et|]. split; [exact Hne|].
  split; [reflexivity|]. split; [reflexivity|].
  intros pattern Hin.
  destruct (Text.contains pattern url) eqn:Ec; [|reflexivity].
  assert (existsb (fun pattern => Text.contains pattern url) invalid_patterns = true).
  { apply existsb_exists. exists pattern. split; assumption. }
  congruence.
Qed.

End LinkFacts.

(** [normalize_url] never returns a relative reference: its result is
    empty or starts with [http].  A reference that starts with [http] is
    returned as it is, so normalising a result again, against any base,
    changes nothing. *)
Theorem X_normalize_url
    (urljoin : string -> string -> option string) (href : string)
    (base : option string) :
  let url := Links.normalize_url urljoin href base in
  (url = "" \/ Text.startswith "http" url = true) /\
  (Text.startswith "http" href = true -> url = href) /\
  (forall base', Links.normalize_url urljoin url base' = url).
Proof.
  intros url. split; [apply normalize_url_http|].
  split; [apply normalize_url_absolute|].
  intros base'. destruct (normalize_url_http urljoin href base) as [H|H]; fold url in H.
  - rewrite H. reflexivity.
  - apply normalize_url_absolute. exact H.
Qed.

(** [extract_pagination_links] returns, without duplicates, exactly the
    links that a non-empty reference of the page normalises to and that
    [validate_next_page_url] accepts.  Every one of them is an absolute
    URL of the shop, is not the current page, is not a product URL and
    contains none of the rejected texts ([#], [javascript:], the filter
    parameters). *)
Theorem X_extract_pagination_links
    (urljoin : string -> string -> option string) (is_product_url : string -> bool)
    (selected : list (list (option string))) (all_links : list string)
    (current_url : string) :
  let links :=
    Links.extract_pagination_links urljoin is_product_url selected all_links
      current_url in
  NoDup links /\
  (forall l, l ∈ links <->
     exists href, href ∈ candidates selected all_links /\ href <> "" /\
                  l = Links.normalize_url urljoin href (Some Links.base_url) /\
                  Links.validate_next_page_url is_product_url l current_url = true) /\
  (forall l, l ∈ links ->
     l <> current_url /\
     Text.startswith "http" l = true /\
     Text.contains "rapsodia.com.ar" l = true /\
     is_product_url l = false /\
     forall pattern, In pattern Links.invalid_patterns ->
                     Text.contains pattern l = false).
Proof.
  intros links. unfold links. rewrite extract_pagination_links_unfold.
  destruct (unique_spec
              (omap (M := list) (accepted urljoin is_product_url current_url)
                 (candidates selected all_links))) as [Hnd Hin].
  assert (Hchar : forall l,
    l ∈ Links.unique (omap (M := list) (accepted urljoin is_product_url current_url)
                        (candidates selected all_links)) <->
    exists href, href ∈ candidates selected all_links /\ href <> "" /\
                 l = Links.normalize_url urljoin href (Some Links.base_url) /\
                 Links.validate_next_page_url is_product_url l current_url = true).
  { intros l. rewrite Hin, list_elem_of_omap. split.
    - intros (href & Hh & Ha). exists href. split; [exact Hh|].
      unfold accepted in Ha.
      destruct (Text.truthy href) eqn:Et; [|discriminate]. cbn [andb] in Ha.
      destruct (Text.truthy _ && _) eqn:E; [|discriminate].
      injection Ha as <-. apply andb_true_iff in E as [_ Hv].
      split; [apply truthy_nonempty; exact Et|]. split; [reflexivity | exact Hv].
    - intros (href & Hh & Hne & -> & Hv). exists href. split; [exact Hh|].
      unfold accepted. apply truthy_nonempty in Hne. rewrite Hne, Hv. cbn [andb].
      destruct (validate_next_page_url_true is_product_url _ _ Hv) as (Hl & _).
      apply truthy_nonempty in Hl. rewrite Hl. reflexivity. }
  split; [exact Hnd|]. split; [exact Hchar|].
  intros l Hl. apply Hchar in Hl as (href & _ & _ & -> & Hv).
  destruct (validate_next_page_url_true is_product_url _ _ Hv)
    as (Hne & Hcur & Hdom & Hprod & Hpat).
  split; [exact Hcur|]. split; [|tauto].
  destruct (normalize_url_http urljoin href (Some Links.base_url)) as [H|H];
    [contradiction | exact H].
Qed.

(** * Page URLs *)

Section PageText.
Import Text.

Lemma prefix_app (p u x : string) :
  String.prefix p u = true -> String.prefix p (u +:+ x) = true.
Proof.
  revert u. induction p as [|a p IH]; intros u; [intros _; simpl; destruct (u +:+ x); reflexivity|].
  destruct u as [|b u]; simpl; [discriminate|].
  destruct (ascii_dec a b); [apply IH | discriminate].
Qed.

Lemma prefix_refl_app (u x : string) : String.prefix u (u +:+ x) = true.
Proof.
  induction u as [|a u IH]; simpl; [destruct x; reflexivity|].
  destruct (ascii_dec a a); [exact IH | congruence].
Qed.

Lemma contains_app_l (p u x : string) :
  contains p u = true -> contains p (u +:+ x) = true.
Proof.
  induction u as [|a u IH]; simpl.
  - rewrite orb_false_r. intros H. destruct p; [|discriminate].
    destruct x; reflexivity.
  - intros H. apply orb_true_iff in H as [H|H].
    + pose proof (prefix_app p (String a u) x H) as H'. simpl in H'.
      rewrite H'. reflexivity.
    + rewrite (IH H). apply orb_true_r.
Qed.

Lemma contains_app_r (p u x : string) :
  contains p x = true -> contains p (u +:+ x) = true.
Proof.
  intros H. induction u as [|a u IH]; simpl; [exact H|].
  rewrite IH. apply orb_true_r.
Qed.

Lemma contains_prefix (p x : string) : contains p (p +:+ x) = true.
Proof.
  destruct p as [|a p]; simpl.
  - destruct x; reflexivity.
  - pose proof (prefix_refl_app (String a p) x) as H'. simpl in H'.
    rewrite H'. reflexivity.
Qed.

Lemma take_digits_stop (r : string) (c : ascii) (x : string) :
  is_digit c = false -> take_digits (r +:+ String c x) = take_digits r.
Proof.
  intros Hc. induction r as [|a r IH]; simpl; [rewrite Hc; reflexivity|].
  rewrite IH. reflexivity.
Qed.

Lemma match_page_here_stop (s : string) (c : ascii) (x : string) :
  is_digit c = false -> c <> "="%char -> s <> "" ->
  match_page_here (s +:+ String c x) = match_page_here s.
Proof.
  intros Hd He Hs. destruct s as [|a [|b rest]]; [congruence| |].
  - simpl. destruct (Ascii.eqb_spec a "p"); [subst a|].
    + destruct (Ascii.eqb_spec c "="); [congruence|].
      destruct c as [[] [] [] [] [] [] [] []]; try reflexivity; congruence.
    + destruct a as [[] [] [] [] [] [] [] []]; try reflexivity; congruence.
  - change ((String a (String b rest)) +:+ String c x)
      with (String a (String b (rest +:+ String c x))).
    unfold match_page_here.
    rewrite (take_digits_stop rest c x Hd). reflexivity.
Qed.

Lemma re_search_page_app (s : string) (c : ascii) (x : string) :
  is_digit c = false -> c <> "="%char ->
  re_search_page (s +:+ String c x) =
  match re_search_page s with
  | Some n => Some n
  | None => re_search_page (String c x)
  end.
Proof.
  intros Hd He. induction s as [|a s IH]; [reflexivity|].
  change (String a s +:+ String c x) with (String a (s +:+ String c x)).
  cbn [re_search_page].
  change (String a (s +:+ String c x)) with (String a s +:+ String c x).
  rewrite (match_page_here_stop (String a s) c x Hd He) by discriminate.
  destruct (match_page_here (String a s)); [reflexivity | exact IH].
Qed.

Lemma digit_value_char (k : N) :
  (k < 10)%N ->
  is_digit (pretty_N_char k) = true /\ digit_value (pretty_N_char k) = Z.of_N k.
Proof.
  intros Hk.
  assert (k = 0 \/ k = 1 \/ k = 2 \/ k = 3 \/ k = 4 \/ k = 5 \/ k = 6 \/ k = 7
          \/ k = 8 \/ k = 9)%N as H by lia.
  repeat (destruct H as [->|H]; [split; reflexivity|]). subst k. split; reflexivity.
Qed.

Lemma int_of_digits_acc (l : list ascii) (a : Z) :
  fold_left (fun acc d => 10 * acc + digit_value d) l a
  = a * 10 ^ Z.of_nat (length l)
    + fold_left (fun acc d => 10 * acc + digit_value d) l 0.
Proof.
  revert a. induction l as [|d l IH]; intros a.
  - simpl. lia.
  - cbn [fold_left length]. rewrite (IH (10 * a + digit_value d)), (IH (10 * 0 + digit_value d)).
    rewrite Nat2Z.inj_succ, Z.pow_succ_r by lia. lia.
Qed.

Lemma pretty_N_go_digits (x : N) :
  forall s,
    take_digits s = chars s ->
    take_digits (pretty_N_go x s) = chars (pretty_N_go x s) /\
    int_of_digits (chars (pretty_N_go x s))
    = Z.of_N x * 10 ^ Z.of_nat (length (chars s)) + int_of_digits (chars s).
Proof.
  induction (N.lt_wf_0 x) as [x _ IH]. intros s Hs.
  destruct (N.eq_dec x 0%N) as [->|Hx].
  - rewrite pretty_N_go_0. split; [exact Hs | lia].
  - rewrite pretty_N_go_step by lia.
    destruct (digit_value_char (x `mod` 10)%N) as [Hd Hv];
      [apply N.mod_lt; lia|].
    assert (Hlt : (x `div` 10 < x)%N) by (apply N.div_lt; lia).
    destruct (IH (x `div` 10)%N Hlt
                (String (pretty_N_char (x `mod` 10)) s)) as [H1 H2].
    { simpl. rewrite Hd, Hs. reflexivity. }
    split; [exact H1|]. rewrite H2. cbn [chars length]. unfold int_of_digits.
    cbn [fold_left]. rewrite (int_of_digits_acc (chars s) _), Hv.
    rewrite Nat2Z.inj_succ, Z.pow_succ_r by lia.
    assert (Hdm : x = (10 * (x `div` 10) + x `mod` 10)%N)
      by (apply N.div_mod; lia).
    assert (Hz : Z.of_N x = 10 * Z.of_N (x `div` 10) + Z.of_N (x `mod` 10)) by lia.
    rewrite Hz. ring.
Qed.

Lemma pretty_page_number (n : Z) :
  0 <= n ->
  take_digits (pretty n) <> [] /\ int_of_digits (take_digits (pretty n)) = n.
Proof.
  intros Hn. destruct n as [|p|p]; [split; [discriminate | reflexivity]| |lia].
  change (pretty (Z.pos p)) with (pretty_N_go (N.pos p) "").
  destruct (pretty_N_go_digits (N.pos p) "" eq_refl) as [H1 H2].
  assert (Hval : int_of_digits (chars (pretty_N_go (N.pos p) "")) = Z.pos p).
  { rewrite H2. cbn [chars length]. unfold int_of_digits. cbn [fold_left].
    change (Z.of_N (N.pos p)) with (Z.pos p). change (Z.of_nat 0) with 0.
    rewrite Z.pow_0_r. lia. }
  rewrite H1. split; [|exact Hval].
  intros E. rewrite E in Hval. unfold int_of_digits in Hval. simpl in Hval. lia.
Qed.

End PageText.

Section NextPage.
Import Scraper.

Lemma validate_url_true (url : string) :
  validate_url url = true <->
  url <> "" /\
  (Text.startswith "http://" url || Text.startswith "https://" url
   || Text.startswith "file://" url || Text.startswith "raw:" url) = true /\
  Text.contains "rapsodia.com.ar" url = true.
Proof.
  unfold validate_url. rewrite <- truthy_nonempty.
  destruct (Text.truthy url); cbn [negb]; [|split; [discriminate | intros [H _]; discriminate]].
  destruct (_ || _ || _ || _); cbn [negb];
    [|split; [discriminate | intros (_ & H & _); discriminate]].
  destruct (Text.contains "rapsodia.com.ar" url); cbn [negb];
    [tauto | split; [discriminate | intros (_ & _ & H); discriminate]].
Qed.

Lemma scheme_app (url x : string) :
  (Text.startswith "http://" url || Text.startswith "https://" url
   || Text.startswith "file://" url || Text.startswith "raw:" url) = true ->
  (Text.startswith "http://" (url +:+ x) || Text.startswith "https://" (url +:+ x)
   || Text.startswith "file://" (url +:+ x) || Text.startswith "raw:" (url +:+ x)) = true.
Proof.
  unfold Text.startswith. intros H.
  repeat (apply orb_true_iff in H as [H|H]);
    rewrite (prefix_app _ url x H), ?orb_true_r; reflexivity.
Qed.

(** The text [create_next_page_url] appends to a valid URL. *)
Lemma create_next_page_url_valid (url : string) (n : Z) :
  validate_url url = true ->
  exists c, (c = "&"%char \/ c = "?"%char) /\
            (Text.contains "?" url = false -> c = "?"%char) /\
            create_next_page_url url n = url +:+ String c ("p=" +:+ pretty n).
Proof.
  intros Hv. unfold create_next_page_url. rewrite Hv. cbn [negb].
  destruct (Text.contains "?" url).
  - exists "&"%char. split; [auto|]. split; [discriminate | reflexivity].
  - exists "?"%char. split; [auto|]. split; reflexivity.
Qed.

End NextPage.

(** [create_next_page_url] returns the empty string exactly for a URL
    that [validate_url] rejects.  For a valid URL the result extends the
    URL, is valid again and carries a query.  The page parameter is
    appended, never replaced: read back with the pattern of
    [find_next_page_url], the result shows the requested page only when
    the URL had no page parameter yet, and otherwise still shows the page
    of the URL it was made from. *)
Theorem X_create_next_page_url (current_url : string) (page_number : Z) :
  let next := Scraper.create_next_page_url current_url page_number in
  (next = "" <-> Scraper.validate_url current_url = false) /\
  (Scraper.validate_url current_url = true ->
     Scraper.validate_url next = true /\
     Text.startswith current_url next = true /\
     Text.contains "?" next = true /\
     (forall n, Text.re_search_page current_url = Some n ->
                Text.re_search_page next = Some n) /\
     (Text.re_search_page current_url = None -> 0 <= page_number ->
      Text.re_search_page next = Some page_number)).
Proof.
  intros next.
  assert (Hvalid : Scraper.validate_url current_url = true ->
    next <> "" /\
    Scraper.validate_url next = true /\
    Text.startswith current_url next = true /\
    Text.contains "?" next = true /\
    (forall n, Text.re_search_page current_url = Some n ->
               Text.re_search_page next = Some n) /\
    (Text.re_search_page current_url = None -> 0 <= page_number ->
     Text.re_search_page next = Some page_number)).
  { intros Hv.
    destruct (create_next_page_url_valid current_url page_number Hv)
      as (c & Hc & Hq & E).
    fold next in E.
    pose proof (proj1 (validate_url_true current_url) Hv) as (Hne & Hs & Hd).
    assert (Hnext : next <> "").
    { rewrite E. destruct current_url; [congruence | discriminate]. }
    split; [exact Hnext|]. split.
    { apply validate_url_true. split; [exact Hnext|]. rewrite E.
      split; [apply scheme_app; exact Hs | apply contains_app_l; exact Hd]. }
    split; [rewrite E; apply prefix_refl_app|]. split.
    { rewrite E. destruct (Text.contains "?" current_url) eqn:Eq.
      - apply contains_app_l. exact Eq.
      - rewrite (Hq eq_refl). apply contains_app_r.
        apply (contains_prefix "?" ("p=" +:+ pretty page_number)). }
    assert (Hd' : Text.is_digit c = false) by (destruct Hc as [-> | ->]; reflexivity).
    assert (He' : c <> "="%char) by (destruct Hc as [-> | ->]; discriminate).
    pose proof (re_search_page_app current_url c ("p=" +:+ pretty page_number) Hd' He')
      as Hr.
    rewrite <- E in Hr. split.
    { intros n En. rewrite Hr, En. reflexivity. }
    intros En Hpos. rewrite Hr, En.
    destruct (pretty_page_number page_number Hpos) as [Hnz Hval].
    assert (Hhere : Text.match_page_here ("p=" +:+ pretty page_number)
                    = Some page_number).
    { change ("p=" +:+ pretty page_number)
        with (String "p" (String "=" (pretty page_number))).
      unfold Text.match_page_here.
      destruct (Text.take_digits (pretty page_number)); [congruence|].
      rewrite Hval. reflexivity. }
    assert (Hskip : Text.match_page_here (String c ("p=" +:+ pretty page_number))
                    = None).
    { destruct Hc as [-> | ->]; reflexivity. }
    cbn [Text.re_search_page]. rewrite Hskip.
    change (Text.re_search_page ("p=" +:+ pretty page_number) = Some page_number).
    destruct ("p=" +:+ pretty page_number) as [|a r] eqn:Es; [discriminate|].
    cbn [Text.re_search_page]. rewrite Hhere. reflexivity. }
  split.
  - split.
    + intros Hn. destruct (Scraper.validate_url current_url) eqn:Hv; [|reflexivity].
      destruct (Hvalid eq_refl) as [Hne _]. contradiction.
    + intros Hv. unfold next, Scraper.create_next_page_url. rewrite Hv. reflexivity.
  - intros Hv. destruct (Hvalid Hv) as (_ & H). exact H.
Qed.

(** * Size labels *)

Section SizeLabels.
Import Scraper.

Lemma dict_get_value (m : list (string * string)) (k v : string) :
  dict_get m k = Some v -> In v (List.map snd m).
Proof.
  unfold dict_get. destruct (List.find _ m) as [kv|] eqn:E; [|discriminate].
  intros [= <-]. apply List.find_some in E as [Hin _].
  apply in_map. exact Hin.
Qed.

Lemma size_mapping_values (v : string) : In v (List.map snd size_mapping) -> v <> "".
Proof.
  simpl. intros H.
  repeat (destruct H as [<-|H]; [discriminate|]). destruct H.
Qed.

Lemma append_nonempty (a b : string) : b <> "" -> a +:+ b <> "".
Proof. destruct a; simpl; [auto | discriminate]. Qed.

Lemma strip_empty : Text.strip "" = "".
Proof. reflexivity. Qed.

End SizeLabels.

(** [clean_size_text] returns the empty string exactly for a blank label
    (empty, or white space only): every other label keeps a text, so the
    extractor drops a swatch only when it shows no label. *)
Theorem X_clean_size_text_blank (size_text : string) :
  Scraper.clean_size_text size_text = "" <-> Text.strip size_text = "".
Proof.
  unfold Scraper.clean_size_text.
  destruct size_text as [|c0 rest] eqn:Es; [split; reflexivity|]. rewrite <- Es.
  assert (Ht : Text.truthy size_text = true) by (rewrite Es; reflexivity).
  rewrite Ht. cbn [negb].
  set (cleaned := Text.strip size_text).
  assert (Hmapped :
    match Scraper.dict_get Scraper.size_mapping cleaned with
    | Some v => v
    | None => Text.upper cleaned
    end = "" <-> cleaned = "").
  { destruct (Scraper.dict_get Scraper.size_mapping cleaned) as [v|] eqn:Ed.
    - pose proof (size_mapping_values v (dict_get_value _ _ _ Ed)) as Hv.
      split; [intros E; contradiction|]. intros E. rewrite E in Ed.
      vm_compute in Ed. discriminate Ed.
    - apply upper_empty. }
  destruct (Text.contains "/" cleaned) eqn:Ec; [|exact Hmapped].
  destruct (Text.split "/" cleaned) as [|n [|l [|x parts]]]; try exact Hmapped.
  split.
  - intros E. exfalso. revert E. apply append_nonempty. discriminate.
  - intros E. rewrite E in Ec. vm_compute in Ec. discriminate Ec.
Qed.

(** * Records kept per category *)

Section Records.
Import Scraper.
Context {World Html : Type}.
Variable fetch : World -> string -> World * crawl_result Html.
Variable parse_product : Html -> option product_page.
Variable parse_listing : Html -> string -> listing_page.
Variable is_product_url : string -> bool.

Lemma safe_crawl_page_records (s : t) (w : World) (url context : string) :
  products_by_category (safe_crawl_page fetch s w url context).1.1
  = products_by_category s.
Proof.
  unfold safe_crawl_page. destruct (negb (validate_url url)); [reflexivity|].
  destruct (fetch w url). reflexivity.
Qed.

Lemma extract_product_details_records (s : t) (w : World) (u c sc : string) :
  products_by_category (extract_product_details fetch parse_product s w u c sc).1.1
  = products_by_category s.
Proof.
  unfold extract_product_details.
  pose proof (safe_crawl_page_records s w u "product_page") as H.
  destruct (safe_crawl_page fetch s w u "product_page") as [[s1 w1] r].
  simpl in H. destruct r as [|[html|]]; try exact H.
  destruct (parse_product html); [|exact H].
  destruct (negb _); exact H.
Qed.

Lemma process_single_product_records (c sc : string) (s : t) (w : World) (u : string) :
  products_by_category (process_single_product fetch parse_product c sc s w u).1.1
  = products_by_category s.
Proof.
  unfold process_single_product.
  destruct (bool_decide _); [reflexivity|].
  pose proof (extract_product_details_records s w u c sc) as H.
  destruct (extract_product_details fetch parse_product s w u c sc) as [[s1 w1] r].
  simpl in H. destruct r as [|[info|]]; simpl; exact H.
Qed.

Lemma gather_records (c sc : string) (urls : list string) :
  forall (s : t) (w : World),
    products_by_category (gather fetch parse_product c sc s w urls).1.1
    = products_by_category s.
Proof.
  induction urls as [|u urls IH]; intros s w; simpl; [reflexivity|].
  pose proof (process_single_product_records c sc s w u) as H.
  destruct (process_single_product fetch parse_product c sc s w u) as [[s1 w1] r].
  specialize (IH s1 w1).
  destruct (gather fetch parse_product c sc s1 w1 urls) as [[s2 w2] rs].
  simpl in *. congruence.
Qed.

Lemma run_batches_records (c sc : string) (batch_size : nat) (fuel : nat) :
  forall (s : t) (w : World) (urls : list string) results,
    products_by_category
      (run_batches fetch parse_product fuel batch_size c sc s w urls results).1.1
    = products_by_category s.
Proof.
  induction fuel as [|fuel IH]; intros s w urls results.
  - destruct urls; reflexivity.
  - destruct urls as [|u urls]; [reflexivity|].
    cbn [run_batches].
    pose proof (gather_records c sc (take batch_size (u :: urls)) s w) as H.
    destruct (gather fetch parse_product c sc s w (take batch_size (u :: urls)))
      as [[s1 w1] rs].
    rewrite IH. exact H.
Qed.

(** Storing under [key] leaves the list of every other key as it was. *)
Lemma store_results_records (key : string) (results : list _) (k : string) :
  k <> key ->
  forall s : t,
    dd_get [] (products_by_category (store_results key results s)) k
    = dd_get [] (products_by_category s) k.
Proof.
  intros Hk. induction results as [|r results IH]; intros s; simpl; [reflexivity|].
  destruct r as [[u [info|]]|]; try apply IH.
  destruct (negb _); rewrite IH; [reflexivity|].
  unfold store_product, dd_get, dd_update. simpl.
  rewrite lookup_insert_ne by congruence. reflexivity.
Qed.

Lemma process_products_records (s : t) (w : World) (c sc : string)
    (urls : list string) (max_concurrent : positive) (k : string) :
  k <> category_key c sc ->
  dd_get [] (products_by_category
               (process_products fetch parse_product s w c sc urls max_concurrent).1) k
  = dd_get [] (products_by_category s) k.
Proof.
  intros Hk. unfold process_products.
  destruct (List.filter _ urls) as [|u l] eqn:E; [reflexivity|].
  pose proof (run_batches_records c sc (Pos.to_nat max_concurrent)
                (length (u :: l)) s w (u :: l) []) as H.
  destruct (run_batches fetch parse_product (length (u :: l))
              (Pos.to_nat max_concurrent) c sc s w (u :: l) []) as [[s1 w1] rs].
  simpl in *. rewrite (store_results_records _ _ k Hk). rewrite H. reflexivity.
Qed.

Lemma collect_products_records (links : list string) :
  forall (s : t) (products : list string) (n : Z),
    products_by_category (collect_products is_product_url links s products n).1.1
    = products_by_category s.
Proof.
  induction links as [|u links IH]; intros s products n; simpl; [reflexivity|].
  destruct (_ && _); rewrite IH; reflexivity.
Qed.

Lemma read_listing_records (page : listing_page) (url : string) (s : t) :
  products_by_category (read_listing is_product_url page url s).1.1.1
  = products_by_category s.
Proof.
  unfold read_listing.
  pose proof (collect_products_records (lp_grid_links page) s [] 0) as H1.
  destruct (collect_products is_product_url (lp_grid_links page) s [] 0)
    as [[s1 products] n]. simpl in H1.
  destruct products as [|p products]; simpl; [|exact H1].
  pose proof (collect_products_records (lp_generic_links page) s1 [] n) as H2.
  destruct (collect_products is_product_url (lp_generic_links page) s1 [] n)
    as [[s2 products2] n2]. simpl in *. congruence.
Qed.

Lemma parse_subcategory_page_records (s : t) (w : World) (url category : string) :
  products_by_category
    (parse_subcategory_page fetch parse_listing is_product_url s w url category).1.1
  = products_by_category s.
Proof.
  unfold parse_subcategory_page, safe_crawl_page.
  set (s0 := with_log _ (with_visited _ s)).
  assert (H0 : products_by_category s0 = products_by_category s) by reflexivity.
  clearbody s0.
  destruct (negb (validate_url url)); [exact H0|].
  destruct (fetch w url) as [w1 [|html]]; [exact H0|].
  destruct html as [html|].
  - pose proof (read_listing_records (parse_listing html url) url s0) as H.
    destruct (read_listing is_product_url (parse_listing html url) url s0)
      as [[[s1 products] n] next]. simpl in H.
    destruct (n =? 0); simpl; congruence.
  - simpl. exact H0.
Qed.

Lemma validate_page_has_products_records (s : t) (w : World) (url : string) :
  products_by_category (validate_page_has_products fetch parse_listing s w url).1.1
  = products_by_category s.
Proof.
  unfold validate_page_has_products.
  pose proof (safe_crawl_page_records s w url "page_validation") as H.
  destruct (safe_crawl_page fetch s w url "page_validation") as [[s1 w1] r].
  simpl in H. destruct r as [|[html|]]; exact H.
Qed.

Lemma string_length_app (s1 s2 : string) :
  String.length (s1 +:+ s2) = (String.length s1 + String.length s2)%nat.
Proof. induction s1 as [|a s1 IH]; simpl; [reflexivity | rewrite IH; reflexivity]. Qed.

Lemma category_key_differs (c sc : string) : c <> category_key c sc.
Proof.
  unfold category_key. intros E.
  assert (H : String.length c = String.length (c +:+ "_" +:+ sc))
    by (rewrite <- E; reflexivity).
  rewrite !string_length_app in H. simpl in H. lia.
Qed.

Local Abbreviation body := (loop_body fetch parse_product parse_listing is_product_url).
Local Abbreviation loop := (pagination_loop fetch parse_product parse_listing is_product_url).

(** One execution of the loop body adds records under the key of the
    subcategory only. *)
Lemma loop_body_records (s : t) (w : World) (url : string) (max_pages : Z)
    (parent sub : string) (st : loop_state) (k : string) :
  k <> category_key parent sub ->
  dd_get [] (products_by_category (body s w url max_pages parent sub st).1.1) k
  = dd_get [] (products_by_category s) k.
Proof.
  intros Hk. unfold loop_body.
  cbn [current_url page_count consecutive_empty total_products_found
       javascript_pagination_detected iterations].
  destruct (is_category_complete s parent); [reflexivity|].
  pose proof (parse_subcategory_page_records s w (current_url st) parent) as Hp.
  destruct (parse_subcategory_page fetch parse_listing is_product_url s w
              (current_url st) parent) as [[s1 w1] data]. simpl in Hp.
  cbv beta iota.
  destruct (pages_processed s1 !! parent) as [n|]; [|simpl; rewrite Hp; reflexivity].
  set (s2 := with_pages_processed _ s1).
  assert (H2 : dd_get [] (products_by_category s2) k = dd_get [] (products_by_category s) k).
  { unfold s2. simpl. rewrite Hp. reflexivity. }
  clearbody s2.
  set (found := Z.of_nat (length (pd_products data))).
  assert (Hfin : forall (s4 : t) (w4 : World) (ce : Z) (stop : bool),
    dd_get [] (products_by_category s4) k = dd_get [] (products_by_category s) k ->
    dd_get [] (products_by_category
      (if stop
       then (s4, w4, Break (LoopState (current_url st) (page_count st + 1) ce
                              (total_products_found st + found)
                              (javascript_pagination_detected st) (S (iterations st))))
       else if should_stop_pagination s4 parent found ce (page_count st + 1)
       then (s4, w4, Break (LoopState (current_url st) (page_count st + 1) ce
                              (total_products_found st + found)
                              (javascript_pagination_detected st) (S (iterations st))))
       else if bool_decide (pd_next_page data = Some javascript_pagination_detected_marker)
       then
         if page_count st + 1 <? max_pages then
           if Text.truthy (create_next_page_url (current_url st) (page_count st + 1 + 1))
           then (s4, w4, Continue
                   (LoopState (create_next_page_url (current_url st) (page_count st + 1 + 1))
                      (page_count st + 1) ce (total_products_found st + found)
                      true (S (iterations st))))
           else (s4, w4, Break (LoopState (current_url st) (page_count st + 1) ce
                                  (total_products_found st + found) true
                                  (S (iterations st))))
         else (s4, w4, Break (LoopState (current_url st) (page_count st + 1) ce
                                (total_products_found st + found) true
                                (S (iterations st))))
       else
         match pd_next_page data with
         | Some next_url =>
             if Text.truthy next_url then
               (s4, w4, Continue
                  (LoopState next_url (page_count st + 1) ce
                     (total_products_found st + found)
                     (javascript_pagination_detected st) (S (iterations st))))
             else (s4, w4, Break (LoopState (current_url st) (page_count st + 1) ce
                                    (total_products_found st + found)
                                    (javascript_pagination_detected st)
                                    (S (iterations st))))
         | None => (s4, w4, Break (LoopState (current_url st) (page_count st + 1) ce
                                     (total_products_found st + found)
                                     (javascript_pagination_detected st)
                                     (S (iterations st))))
         end).1.1) k
    = dd_get [] (products_by_category s) k).
  { intros s4 w4 ce stop H4.
    repeat match goal with
           | |- context [if ?x then _ else _] => destruct x
           | |- context [match pd_next_page data with _ => _ end] =>
               destruct (pd_next_page data)
           end; simpl; exact H4. }
  assert (Hmid : forall (s3 : t) (w3 : World),
    dd_get [] (products_by_category s3) k = dd_get [] (products_by_category s) k ->
    exists s4 w4 ce stop,
      (if found =? 0 then
         if (2 <=? consecutive_empty st + 1) && Text.truthy_opt (pd_next_page data) then
           let '(s, w, has_products) :=
             validate_page_has_products fetch parse_listing s3 w3
               (default "" (pd_next_page data)) in
           (s, w, consecutive_empty st + 1, negb has_products)
         else (s3, w3, consecutive_empty st + 1, false)
       else (s3, w3, 0, false)) = (s4, w4, ce, stop) /\
      dd_get [] (products_by_category s4) k = dd_get [] (products_by_category s) k).
  { intros s3 w3 H3. destruct (found =? 0); [|eauto 6].
    destruct (_ && _); [|eauto 6].
    pose proof (validate_page_has_products_records s3 w3
                  (default "" (pd_next_page data))) as H4.
    destruct (validate_page_has_products fetch parse_listing s3 w3
                (default "" (pd_next_page data))) as [[s4 w4] has].
    simpl in H4. exists s4, w4, (consecutive_empty st + 1), (negb has).
    split; [reflexivity|]. rewrite H4. exact H3. }
  destruct (elements _) as [|y l].
  - destruct (Hmid s2 w1 H2) as (s4 & w4 & ce & stop & E & H4).
    fold found. rewrite E. exact (Hfin s4 w4 ce stop H4).
  - pose proof (process_products_records s2 w1 parent sub (y :: l) 5 k Hk) as H3.
    destruct (process_products fetch parse_product s2 w1 parent sub (y :: l) 5)
      as [s3 w3]. simpl in H3. rewrite H2 in H3.
    destruct (Hmid s3 w3 H3) as (s4 & w4 & ce & stop & E & H4).
    fold found. rewrite E. exact (Hfin s4 w4 ce stop H4).
Qed.

Lemma pagination_loop_records (url : string) (max_pages : Z) (parent sub k : string) :
  k <> category_key parent sub ->
  forall (fuel : nat) (s : t) (w : World) (st : loop_state) s' w' st' e,
    loop fuel s w url max_pages parent sub st = Some (s', w', st', e) ->
    dd_get [] (products_by_category s') k = dd_get [] (products_by_category s) k.
Proof.
  intros Hk. induction fuel as [|fuel IH]; intros s w st s' w' st' e Hrun;
    simpl in Hrun.
  - destruct (_ && _); [discriminate|]. injection Hrun as <- <- <- <-. reflexivity.
  - destruct (_ && _); [|injection Hrun as <- <- <- <-; reflexivity].
    pose proof (loop_body_records s w url max_pages parent sub st k Hk) as Hb.
    destruct (body s w url max_pages parent sub st) as [[s1 w1] c]. simpl in Hb.
    destruct c as [st1|st1|st1].
    + rewrite (IH s1 w1 st1 s' w' st' e Hrun). exact Hb.
    + injection Hrun as <- <- <- <-. exact Hb.
    + injection Hrun as <- <- <- <-. exact Hb.
Qed.

End Records.

(** The pagination loop files every record under the key
    [<category>_<subcategory>], which is never the name of the category.
    So the list both completion detectors measure against their product
    caps, [products_by_category[category]], is as long after the loop as
    before it, and so is the list of every key other than the
    subcategory's. *)
Theorem X_pagination_keeps_category_records
    {World Html : Type}
    (fetch : World -> string -> World * Scraper.crawl_result Html)
    (parse_product : Html -> option Scraper.product_page)
    (parse_listing : Html -> string -> Scraper.listing_page)
    (is_product_url : string -> bool)
    (s : Scraper.t) (w : World) (url : string) (max_pages : Z)
    (parent_category subcategory_name : string) :
  exists s' w' st' e,
    (forall fuel, (Z.to_nat max_pages <= fuel)%nat ->
       Scraper.process_subcategory_with_pagination fetch parse_product parse_listing
         is_product_url fuel s w url max_pages parent_category subcategory_name
       = Some (s', w', st', e)) /\
    Scraper.products_recorded s' parent_category
      = Scraper.products_recorded s parent_category /\
    (forall k, k <> Scraper.category_key parent_category subcategory_name ->
       Scraper.dd_get [] (Scraper.products_by_category s') k
       = Scraper.dd_get [] (Scraper.products_by_category s) k).
Proof.
  destruct (process_subcategory_terminates fetch parse_product parse_listing
              is_product_url s w url max_pages parent_category subcategory_name)
    as (s' & w' & st' & e & Hrun & _).
  exists s', w', st', e. split; [exact Hrun|].
  assert (Hk : forall k, k <> Scraper.category_key parent_category subcategory_name ->
             Scraper.dd_get [] (Scraper.products_by_category s') k
             = Scraper.dd_get [] (Scraper.products_by_category s) k).
  { intros k Hk.
    exact (pagination_loop_records fetch parse_product parse_listing is_product_url
             url max_pages parent_category subcategory_name k Hk
             (Z.to_nat max_pages) s w _ s' w' st' e
             (Hrun (Z.to_nat max_pages) (le_n _))). }
  split; [|exact Hk].
  unfold Scraper.products_recorded. rewrite (Hk parent_category); [reflexivity|].
  apply category_key_differs.
Qed.

(** * The worker *)

Section WorkerFacts.
Import SupabaseClient WorkerLambda.
Context {World Html : Type}.
Variable fetch : World -> string -> World * Scraper.crawl_result Html.
Variable parse_product : Html -> option Scraper.product_page.
Variable normalize_price : string -> Z.
Variable uuid : string -> Z.

Lemma get_brand_id_row (st : store) (name : string) :
  let r := get_brand_id st name in
  base r.1 = base st /\
  exists b, In b (brands r.1) /\ brand_name b = name /\ brand_row_id b = r.2.
Proof.
  unfold get_brand_id.
  destruct (List.find _ (brands st)) as [b|] eqn:E; simpl.
  - split; [reflexivity|]. apply List.find_some in E as [Hin Hn].
    apply String.eqb_eq in Hn. exists b. auto.
  - split; [reflexivity|]. exists (Brand (next_brand_id st) name).
    split; [apply in_or_app; right; left; reflexivity | auto].
Qed.

Lemma sync_record_row (now : Z) (d : db) (brand_id0 : Z) (c sc : string)
    (info : Scraper.product_info) (mapping : string -> string -> option (Z * Z)) :
  let r := Worker.sync_record normalize_price mapping now d brand_id0 c sc info in
  exists id row,
    r.2 = Some id /\ In row (items r.1) /\ item_id row = id /\ brand_id row = brand_id0.
Proof.
  cbv zeta.
  destruct (sync_record_effect normalize_price mapping now d brand_id0 c sc info)
    as (id & U1 & U2 & U3 & _).
  set (x := Worker.make_item_data normalize_price mapping brand_id0 c sc
              (Worker.normalize info)) in *.
  destruct (upsert_item_then_find now d x) as (row & Hfind & Hid & _).
  apply List.find_some in Hfind as [Hin Hkey].
  exists id, row. split; [exact U2|]. rewrite U3. split; [exact Hin|].
  split; [congruence|].
  unfold same_key in Hkey. apply andb_true_iff in Hkey as [_ Hb].
  apply Z.eqb_eq in Hb. rewrite Hb. reflexivity.
Qed.

Lemma process_records_counts (now : Z) (records : list sqs_record) :
  forall (st : store) (w : World) (results : list entry),
    length (process_records fetch parse_product normalize_price uuid
              now st w records results).2
    = (length results + length (List.filter counted records))%nat.
Proof.
  induction records as [|r records IH]; intros st w results; simpl; [lia|].
  destruct r as [|url brand]; simpl.
  - rewrite IH, length_app. simpl. lia.
  - destruct (Text.truthy_opt url); simpl.
    + destruct (process_product_url fetch parse_product normalize_price uuid now st w
                  (default "" url) (default "Rapsodia" brand)) as [[st1 w1] res].
      rewrite IH, length_app. simpl. lia.
    + apply IH.
Qed.

End WorkerFacts.

(** The outcomes of [process_product_url].  A brand other than Rapsodia
    (in any case) is refused before any request.  A result that reports
    the unknown brand, a failed extraction or an exception of the
    extraction leaves the database exactly as before: the brand row is
    created only after a successful extraction.  A success names an item
    row of the brand row that carries the given brand name. *)
Theorem X_process_product_url_outcomes
    {World Html : Type}
    (fetch : World -> string -> World * Scraper.crawl_result Html)
    (parse_product : Html -> option Scraper.product_page)
    (normalize_price : string -> Z) (uuid : string -> Z)
    (now : Z) (st : WorkerLambda.store) (w : World) (url brand : string) :
  let r := WorkerLambda.process_product_url fetch parse_product normalize_price uuid
             now st w url brand in
  (Text.lower brand <> "rapsodia" ->
   r = (st, w, WorkerLambda.Failure WorkerLambda.UnknownBrand url)) /\
  (forall e u, r.2 = WorkerLambda.Failure e u -> e <> WorkerLambda.FailedToUpsert ->
     u = url /\ r.1.1 = st) /\
  (forall id u, r.2 = WorkerLambda.Success id u ->
     u = url /\
     exists b row,
       In b (WorkerLambda.brands r.1.1) /\ WorkerLambda.brand_name b = brand /\
       In row (SupabaseClient.items (WorkerLambda.base r.1.1)) /\
       SupabaseClient.item_id row = id /\
       SupabaseClient.brand_id row = WorkerLambda.brand_row_id b).
Proof.
  cbv zeta. unfold WorkerLambda.process_product_url.
  destruct (String.eqb_spec (Text.lower brand) "rapsodia") as [Hb|Hb]; cbn [negb].
  2:{ split; [reflexivity|].
      split; [intros e u H _; injection H as <- <-; split; reflexivity|].
      intros id u H. discriminate H. }
  split; [intros H; contradiction|].
  destruct (Categories.infer_category_from_url url) as [c sc].
  destruct (Scraper.extract_product_details fetch parse_product Scraper.init w url c sc)
    as [[s1 w1] [|[info|]]].
  1,3: (split; [intros e u H _; injection H as <- <-; split; reflexivity|];
        intros id u H; discriminate H).
  destruct (get_brand_id_row st brand) as (Hbase & b & Hin & Hname & Hid).
  destruct (WorkerLambda.get_brand_id st brand) as [st1 bid]. simpl in Hbase, Hin, Hid.
  destruct (sync_record_row normalize_price now (WorkerLambda.base st1) bid c sc info
              (WorkerLambda.category_ids uuid)) as (id & row & Hr & Hrow & Hrid & Hrb).
  destruct (Worker.sync_record normalize_price (WorkerLambda.category_ids uuid) now
              (WorkerLambda.base st1) bid c sc info) as [d o].
  simpl in Hr, Hrow. subst o. simpl.
  split; [intros e u H; discriminate H|].
  intros id' u [= <- <-]. split; [reflexivity|].
  exists b, row. repeat split; try assumption. congruence.
Qed.


(** ** The further theorems at sample inputs *)

Lemma jean_db_store_ok : store_ok Samples.jean_db.
Proof.
  split; [split; apply NoDup_singleton|].
  intros r [<-|[]]. vm_compute. reflexivity.
Qed.

Lemma jean_db_colors_ok : colors_ok Samples.jean_db.
Proof.
  split; [apply NoDup_singleton|]. split; [apply NoDup_singleton|].
  intros c [<-|[]]. vm_compute. reflexivity.
Qed.

Lemma X_upsert_item_idempotent_witness :
  let first := SupabaseClient.upsert_item 10 Samples.jean_db Samples.jean_reordered in
  let second := SupabaseClient.upsert_item 20 first.1 Samples.jean_reordered in
  store_ok Samples.jean_db /\
  first.2 = Some 1 /\ second.2 = first.2 /\
  length (SupabaseClient.items second.1) = 1%nat.
Proof.
  intros first second.
  destruct (X_upsert_item_idempotent 10 20 Samples.jean_db Samples.jean_reordered
              jean_db_store_ok) as (H1 & H2 & _).
  split; [exact jean_db_store_ok|]. split; [vm_compute; reflexivity|].
  split; [exact H1|]. fold first second in H2. rewrite H2. vm_compute. reflexivity.
Defined.

Lemma X_upsert_item_keeps_natural_key_witness :
  store_ok Samples.jean_db /\
  store_ok (SupabaseClient.upsert_item 10 Samples.jean_db Samples.jean_reordered).1.
Proof.
  split; [exact jean_db_store_ok|].
  exact (X_upsert_item_keeps_natural_key 10 Samples.jean_db Samples.jean_reordered
           jean_db_store_ok).
Defined.

Lemma X_upsert_item_images_one_primary_witness :
  List.map SupabaseClient.image_url
    (List.filter SupabaseClient.is_primary
       (List.filter (image_of 1)
          (SupabaseClient.item_images
             (SupabaseClient.upsert_item_images 10 Samples.jean_db 1
                ["https://grupo-alas.com.ar/media/catalog/product/j2.jpg";
                 "https://grupo-alas.com.ar/media/catalog/product/j3.jpg"] None))))
  = ["https://grupo-alas.com.ar/media/catalog/product/j2.jpg"].
Proof.
  apply (X_upsert_item_images_one_primary 10 Samples.jean_db 1
           ["https://grupo-alas.com.ar/media/catalog/product/j2.jpg";
            "https://grupo-alas.com.ar/media/catalog/product/j3.jpg"] None).
  discriminate.
Defined.

Lemma X_get_color_id_up_to_case_witness :
  let first := SupabaseClient.get_color_id Samples.jean_db "Negro" in
  let second := SupabaseClient.get_color_id first.1 "NEGRO" in
  colors_ok Samples.jean_db /\
  first.2 = Some 4 /\ second = first /\
  (SupabaseClient.get_color_id first.1 "azul").2 <> first.2.
Proof.
  intros first second.
  destruct (X_get_color_id_up_to_case Samples.jean_db "Negro" "NEGRO" jean_db_colors_ok)
    as (_ & _ & Hsame & _).
  destruct (X_get_color_id_up_to_case Samples.jean_db "Negro" "azul" jean_db_colors_ok)
    as (_ & _ & _ & Hiff).
  split; [exact jean_db_colors_ok|]. split; [vm_compute; reflexivity|].
  split; [apply Hsame; vm_compute; reflexivity|].
  intros E. apply Hiff in E. vm_compute in E. discriminate E.
Defined.

Lemma X_sync_product_availability_idempotent_witness :
  let once :=
    SupabaseClient.sync_product_availability 10 Samples.jean_db 7
      [Samples.jean_reordered_observed] in
  let twice :=
    SupabaseClient.sync_product_availability 20 once 7
      [Samples.jean_reordered_observed] in
  keyed (SupabaseClient.items Samples.jean_db) /\
  SupabaseClient.items twice
    = List.map (stamped 20) (SupabaseClient.items once) /\
  SupabaseClient.items twice <> SupabaseClient.items once.
Proof.
  intros once twice.
  split; [exact (proj1 jean_db_store_ok)|].
  pose proof (proj1 (X_sync_product_availability_idempotent 10 20 Samples.jean_db 7
                       [Samples.jean_reordered_observed] (proj1 jean_db_store_ok)))
    as H.
  fold once twice in H. rewrite H.
  split; [vm_compute; reflexivity | vm_compute; discriminate].
Defined.

Lemma X_sync_product_availability_empty_witness :
  keyed (SupabaseClient.items Samples.jean_db) /\
  SupabaseClient.items (SupabaseClient.sync_product_availability 10 Samples.jean_db 7 [])
  = [SupabaseClient.set_unavailable 10 Samples.jean].
Proof.
  split; [exact (proj1 jean_db_store_ok)|].
  rewrite (X_sync_product_availability_empty 10 Samples.jean_db 7
             (proj1 jean_db_store_ok)).
  vm_compute. reflexivity.
Defined.

Lemma X_process_product_url_replay_witness :
  let sync_record := Worker.sync_record (fun _ => 240000) (fun _ _ => None) in
  let info :=
    Scraper.build_product_info Samples.product_url "WOMAN" "VESTIDOS"
      Samples.dress_page in
  let first := sync_record 10 Samples.jean_db 7 "WOMAN" "VESTIDOS" info in
  let second := sync_record 10 first.1 7 "WOMAN" "VESTIDOS" info in
  store_ok Samples.jean_db /\
  first.2 = Some 2 /\ second.2 = first.2 /\ tables second.1 = tables first.1.
Proof.
  intros sync_record info first second.
  destruct (X_process_product_url_replay (fun _ => 240000) (fun _ _ => None)
              10 10 Samples.jean_db 7 "WOMAN" "VESTIDOS" info jean_db_store_ok)
    as (H1 & _ & _ & H4).
  split; [exact jean_db_store_ok|]. split; [vm_compute; reflexivity|].
  split; [exact H1 | exact (H4 eq_refl)].
Defined.

Lemma X_extract_product_details_accepts_witness :
  let info :=
    Scraper.build_product_info Samples.product_url "WOMAN" "VESTIDOS"
      Samples.dress_page in
  (Scraper.extract_product_details Samples.live_fetch Samples.dress_parse
     Scraper.init tt Samples.product_url "WOMAN" "VESTIDOS").2
  = Scraper.Returned (Some info) /\
  Scraper.pi_description info <> "" /\
  Text.contains "rapsodia.com.ar" Samples.product_url = true.
Proof.
  intros info.
  assert (E : Scraper.extract_product_details Samples.live_fetch Samples.dress_parse
                Scraper.init tt Samples.product_url "WOMAN" "VESTIDOS"
              = ((Scraper.extract_product_details Samples.live_fetch Samples.dress_parse
                    Scraper.init tt Samples.product_url "WOMAN" "VESTIDOS").1.1,
                 tt, Scraper.Returned (Some info)))
    by (vm_compute; reflexivity).
  destruct (X_extract_product_details_accepts Samples.live_fetch Samples.dress_parse
              Scraper.init _ tt tt Samples.product_url "WOMAN" "VESTIDOS" info E)
    as (_ & H2 & H3 & _).
  split; [rewrite E; reflexivity|]. split; [exact H3 | exact H2].
Defined.


Lemma X_pagination_without_progress_record_witness :
  exists s' w' st',
    Scraper.process_subcategory_with_pagination Samples.cycle_fetch
      Samples.cycle_product Samples.cycle_listing (Text.contains "/producto/")
      1 Scraper.init tt Samples.page_a 5 "WOMAN" "JEANS"
    = Some (s', w', st', Scraper.KeyError) /\
    Scraper.iterations st' = 1%nat.
Proof.
  eexists _, _, _. split.
  - apply (X_pagination_without_progress_record Samples.cycle_fetch
             Samples.cycle_product Samples.cycle_listing (Text.contains "/producto/")
             0 Scraper.init tt Samples.page_a 5 "WOMAN" "JEANS").
    + reflexivity.
    + discriminate.
    + lia.
    + vm_compute. reflexivity.
  - reflexivity.
Defined.

Lemma X_upsert_item_update_scope_witness :
  let x :=
    SupabaseClient.ItemData "JEAN OXFORD" (Some "Jean recto") 250000 7
      (Some 99) (Some 98) ["S"; "M"] (Some ["S"]) (Some true) in
  store_ok Samples.jean_db /\
  List.find (same_key x) (SupabaseClient.items Samples.jean_db) = Some Samples.jean /\
  exists row,
    List.find (same_key x)
      (SupabaseClient.items (SupabaseClient.upsert_item 10 Samples.jean_db x).1)
    = Some row /\
    SupabaseClient.main_category_id row = None.
Proof.
  intros x.
  assert (F : List.find (same_key x) (SupabaseClient.items Samples.jean_db)
              = Some Samples.jean) by (vm_compute; reflexivity).
  destruct (X_upsert_item_update_scope 10 Samples.jean_db x Samples.jean
              jean_db_store_ok F) as (_ & _ & row & H1 & _ & H2 & _).
  split; [exact jean_db_store_ok|]. split; [exact F|].
  exists row. split; [exact H1 | exact H2].
Defined.
